(** * wait-for-vercel-preview: the polling loops of [action.js]

    A shallow embedding of the action's retry budget, bypass-token fetch,
    URL health poller, deployment resolution poller and orchestrator,
    followed by the properties of the specification that concern them.

    The line numbers are those of the current definitions, lines 507-781
    of the file (its first part is an earlier state of the same code).

    The network, the clock and the CI runner are outside the program: a
    request's transport-level outcome is supplied by an oracle indexed by
    the attempt that issues it, and everything the program does to the
    outside (requests, [console.log], [wait], [core.setOutput],
    [core.setFailed]) is recorded, in order, in a trace of events. *)

From Stdlib Require Import ZArith QArith Qround Qpower Qabs Lqa.
From Stdlib Require Import List String Bool Lia.
From Stdlib Require Import DecimalString.
Import ListNotations.

Local Open Scope string_scope.
Local Open Scope list_scope.

(* ================================================================== *)
(** ** JavaScript numbers *)

(** A JavaScript [Number] is an IEEE 754 double.  [NaN] and the two
    infinities are constructors of their own because [Number(...)], [||],
    [/] and [<] treat them specially and the loops of the action depend on
    it; a finite number is given by its value, a rational.  The
    arithmetic is that of binary64 (module [Js] below): a product or a
    quotient is rounded to the nearest double, ties to even, with gradual
    underflow and with overflow to an infinity.  A zero has no sign in
    [jsnum]: the sign of a zero matters only where the zero is a divisor,
    and the result of a division keeps it ([Js.number]).  No [-0] comes
    in from outside: [Number(x) || d] replaces a zero of either sign by
    the default. *)
Inductive jsnum : Type :=
| JNaN
| JPosInf
| JNegInf
| JFin (q : Q).

Module Js.

Local Open Scope Q_scope.

Definition of_Z (z : Z) : jsnum := JFin (inject_Z z).
Definition of_nat (n : nat) : jsnum := of_Z (Z.of_nat n).

(** [ToBoolean] on a number: [NaN] and [0] are falsy. *)
Definition truthy (x : jsnum) : bool :=
  match x with
  | JNaN => false
  | JFin q => negb (Qeq_bool q 0)
  | _ => true
  end.

(** [x || d] on numbers. *)
Definition or_else (x d : jsnum) : jsnum := if truthy x then x else d.

(** Sign of a finite number: [Lt], [Eq] or [Gt] with respect to 0. *)
Definition sgn (q : Q) : comparison := Qcompare q 0.

Definition negative (q : Q) : bool :=
  match sgn q with Lt => true | _ => false end.

(** *** Rounding to binary64 *)

Definition two_power (e : Z) : Q := 2 ^ e.

(** For a positive [x], the integer [l] with [2^l <= x < 2^(l+1)]. *)
Definition ilog2 (x : Q) : Z :=
  let l := (Z.log2 (Qnum x) - Z.log2 (Zpos (Qden x)))%Z in
  if Qle_bool (two_power l) x then l else (l - 1)%Z.

(** The exponent of the last bit of the doubles around [x]: 53 bits of
    precision, and no bit below [2^-1074] (the subnormal numbers). *)
Definition ulp_exponent (x : Q) : Z := Z.max (ilog2 (Qabs x) - 52) (-1074).

(** The nearest integer, a tie going to the even one. *)
Definition round_half_even (x : Q) : Z :=
  let f := Qfloor x in
  match Qcompare (x - inject_Z f) (1 # 2) with
  | Lt => f
  | Gt => (f + 1)%Z
  | Eq => if Z.even f then f else (f + 1)%Z
  end.

(** The multiple of the last bit nearest to [x], with no bound on the
    exponent. *)
Definition nearest (x : Q) : Q :=
  let u := two_power (ulp_exponent x) in
  Qred (inject_Z (round_half_even (x / u)) * u).

(** A result that rounds to [2^1024] or beyond is an infinity. *)
Definition overflow : Q := two_power 1024.

(** The double that an exact result [x] is rounded to. *)
Definition round64 (x : Q) : jsnum :=
  let y := nearest x in
  if Qle_bool overflow y then JPosInf
  else if Qle_bool y (- overflow) then JNegInf
  else JFin y.

(** [Number.MIN_VALUE] and [Number.MAX_VALUE]. *)
Definition MIN_VALUE : Q := two_power (-1074).
Definition MAX_VALUE : Q := inject_Z (2 ^ 53 - 1) * two_power 971.

(** A finite number that is not zero lies between [MIN_VALUE] and
    [MAX_VALUE] in magnitude. *)
Definition in_range (q : Q) : Q :=
  match sgn q with
  | Eq => q
  | Gt => if Qle_bool q MIN_VALUE then MIN_VALUE
          else if Qle_bool MAX_VALUE q then MAX_VALUE else q
  | Lt => if Qle_bool (- MIN_VALUE) q then - MIN_VALUE
          else if Qle_bool q (- MAX_VALUE) then - MAX_VALUE else q
  end.

(** The double that a finite operand [JFin q] stands for: [q] itself
    when [q] is a double, and the double nearest to it otherwise, as
    [Number("0.07")] reads a decimal literal. *)
Definition double (q : Q) : Q := nearest (in_range q).

(** [x * y]. *)
Definition mul (x y : jsnum) : jsnum :=
  match x, y with
  | JNaN, _ | _, JNaN => JNaN
  | JFin p, JFin q => round64 (double p * double q)
  | JFin p, JPosInf | JPosInf, JFin p =>
      match sgn p with Gt => JPosInf | Lt => JNegInf | Eq => JNaN end
  | JFin p, JNegInf | JNegInf, JFin p =>
      match sgn p with Gt => JNegInf | Lt => JPosInf | Eq => JNaN end
  | JPosInf, JPosInf | JNegInf, JNegInf => JPosInf
  | JPosInf, JNegInf | JNegInf, JPosInf => JNegInf
  end.

(** *** Division *)

(** The result of a division: a number, or the zero with the sign bit
    set.  [Num (JFin 0)] is [+0]. *)
Inductive number : Type :=
| Num (x : jsnum)
| NegZero.

Definition to_jsnum (n : number) : jsnum :=
  match n with
  | Num x => x
  | NegZero => JFin 0
  end.

(** An operand of a division, by its class. *)
Inductive operand : Type :=
| ONaN
| OInfinity (negative : bool)
| OZero (negative : bool)
| OFinite (q : Q).

Definition operand_of (n : number) : operand :=
  match n with
  | NegZero => OZero true
  | Num JNaN => ONaN
  | Num JPosInf => OInfinity false
  | Num JNegInf => OInfinity true
  | Num (JFin q) =>
      match sgn q with
      | Eq => OZero false
      | _ => OFinite (double q)
      end
  end.

Definition infinity (negative : bool) : number :=
  Num (if negative then JNegInf else JPosInf).

Definition zero (negative : bool) : number :=
  if negative then NegZero else Num (JFin 0).

(** The rounded quotient of two finite operands; one that underflows to
    zero keeps the sign of the exact quotient. *)
Definition rounded (x : Q) : number :=
  match round64 x with
  | JFin y => if Qeq_bool y 0 then zero (negative x) else Num (JFin y)
  | r => Num r
  end.

(** [x / y]. *)
Definition divide (x y : number) : number :=
  match operand_of x, operand_of y with
  | ONaN, _ | _, ONaN => Num JNaN
  | OInfinity _, OInfinity _ | OZero _, OZero _ => Num JNaN
  | OInfinity s, OZero t => infinity (xorb s t)
  | OInfinity s, OFinite q => infinity (xorb s (negative q))
  | OZero s, OInfinity t => zero (xorb s t)
  | OZero s, OFinite q => zero (xorb s (negative q))
  | OFinite p, OInfinity t => zero (xorb (negative p) t)
  | OFinite p, OZero t => infinity (xorb (negative p) t)
  | OFinite p, OFinite q => rounded (p / q)
  end.

(** [Math.floor]. *)
Definition floor (x : jsnum) : jsnum :=
  match x with
  | JFin q => of_Z (Qfloor q)
  | _ => x
  end.

(** [x < y]; every comparison with [NaN] is false. *)
Definition lt (x y : jsnum) : bool :=
  match x, y with
  | JNaN, _ | _, JNaN => false
  | JFin p, JFin q => match Qcompare p q with Lt => true | _ => false end
  | JNegInf, (JFin _ | JPosInf) => true
  | JFin _, JPosInf => true
  | _, _ => false
  end.

(** [x <= y]. *)
Definition le (x y : jsnum) : bool :=
  match x, y with
  | JNaN, _ | _, JNaN => false
  | JFin p, JFin q => match Qcompare p q with Gt => false | _ => true end
  | JNegInf, _ => true
  | _, JPosInf => true
  | _, _ => false
  end.

End Js.

(* ================================================================== *)
(** ** Retry budget *)

(** [calculateIterations], lines 514-515:
    [Math.floor(maxTimeoutSec / (checkIntervalInMilliseconds / 1000))]. *)
Definition calculateIterations
    (maxTimeoutSec checkIntervalInMilliseconds : jsnum) : jsnum :=
  Js.floor
    (Js.to_jsnum
       (Js.divide (Js.Num maxTimeoutSec)
          (Js.divide (Js.Num checkIntervalInMilliseconds)
                     (Js.Num (JFin 1000))))).

(** Its inner quotient, [checkIntervalInMilliseconds / 1000]: the
    interval in seconds. *)
Definition interval_in_seconds (checkIntervalInMilliseconds : jsnum)
  : jsnum :=
  Js.to_jsnum
    (Js.divide (Js.Num checkIntervalInMilliseconds) (Js.Num (JFin 1000))).

(** The loop header [for (let i = 0; i < iterations; i++)]: whether the
    body runs for counter value [i]. *)
Definition loop_continues (i : nat) (iterations : jsnum) : bool :=
  Js.lt (Js.of_nat i) iterations.


(* ================================================================== *)
(** ** HTTP as the action sees it through axios *)

(** One parsed cookie, as [set-cookie-parser] returns it. *)
Record Cookie : Type := {
  cookie_name : string;
  cookie_value : string
}.

(** An HTTP response: its status and [headers['set-cookie']] as
    [setCookieParser] reads it; [None] when the header is absent. *)
Record Response : Type := {
  status : Z;
  set_cookie : option (list Cookie)
}.

(** What the transport did with one request, before axios looks at the
    status. *)
Inductive Transport : Type :=
| Responded (r : Response)
| NoResponse (message : string)
| NotSent (message : string).

(** Values that the code throws and catches. *)
Inductive Exn : Type :=
| AxiosResponseError (r : Response)      (* [e.response] is set *)
| AxiosRequestError (message : string)   (* [e.request] is set, no response *)
| AxiosSetupError (message : string)     (* neither is set *)
| JsError (message : string)             (* [new Error(message)] *)
| TypeError (message : string).

(** axios settles a request: it resolves with the response when
    [validateStatus] accepts the status and rejects otherwise. *)
Definition axios (validateStatus : Z -> bool) (t : Transport)
  : Response + Exn :=
  match t with
  | Responded r =>
      if validateStatus (status r) then inl r
      else inr (AxiosResponseError r)
  | NoResponse m => inr (AxiosRequestError m)
  | NotSent m => inr (AxiosSetupError m)
  end.

(** The [validateStatus] axios uses when the caller gives none. *)
Definition defaultValidateStatus (s : Z) : bool :=
  ((200 <=? s) && (s <? 300))%Z.

(** [e.response] and [e.request] of a caught value, as truth values. *)
Definition has_response (e : Exn) : option Response :=
  match e with
  | AxiosResponseError r => Some r
  | _ => None
  end.

Definition has_request (e : Exn) : bool :=
  match e with
  | AxiosResponseError _ | AxiosRequestError _ => true
  | _ => false
  end.

(** [e.message]. *)
Definition exn_message (e : Exn) : string :=
  match e with
  | AxiosResponseError r =>
      "Request failed with status code "
      ++ NilZero.string_of_int (Z.to_int (status r))
  | AxiosRequestError m | AxiosSetupError m | JsError m | TypeError m => m
  end.

(* ================================================================== *)
(** ** Observable events *)

(** An element of [finalLinks]: [url] is [undefined] ([None]) when the
    alias list is empty. *)
Record ResolvedTarget : Type := {
  url : option string;
  name : string
}.

Inductive LogMsg : Type :=
| LogText (s : string)
| LogGetStatus (st : Z) (i : nat) (iterations : jsnum)
| LogGetNoResponse (i : nat) (iterations : jsnum)
| LogErrorUrl (u : string)
| LogExn (e : Exn)
| LogVercelCallError (e : Exn)
| LogUrls (urls : list ResolvedTarget).

Inductive OutputValue : Type :=
| OutString (s : string)
| OutTargets (l : list ResolvedTarget).

Inductive Event : Type :=
| HttpPost (target : string) (form : list (string * string))
| HttpGet (target : string) (headers : list (string * string))
| ConsoleLog (m : LogMsg)
| ConsoleError (m : LogMsg)
| Wait (ms : jsnum)
| SetOutput (key : string) (v : OutputValue)
| SetFailed (message : string).

(** Computations that emit events and either complete or throw. *)
Definition Eff (A : Type) : Type := (list Event * (A + Exn))%type.

Definition ret {A} (a : A) : Eff A := ([], inl a).
Definition throw {A} (e : Exn) : Eff A := ([], inr e).
Definition emit (ev : Event) : Eff unit := ([ev], inl tt).
Definition lift {A} (r : A + Exn) : Eff A := ([], r).

Definition bind {A B} (m : Eff A) (k : A -> Eff B) : Eff B :=
  match m with
  | (t, inl a) => let '(t', r) := k a in (t ++ t', r)
  | (t, inr e) => (t, inr e)
  end.

(** [try { m } catch (e) { h e }]. *)
Definition try_catch {A} (m : Eff A) (h : Exn -> Eff A) : Eff A :=
  match m with
  | (t, inl a) => (t, inl a)
  | (t, inr e) => let '(t', r) := h e in (t ++ t', r)
  end.

Declare Scope eff_scope.
Delimit Scope eff_scope with eff.
Notation "x <- m ;; k" := (bind m (fun x => k))
  (at level 61, m at next level, right associativity) : eff_scope.
Notation "m ;; k" := (bind m (fun _ => k))
  (at level 61, right associativity) : eff_scope.

(** What a loop body does to the enclosing function. *)
Inductive Flow (R : Type) : Type :=
| Return (r : R)
| Fallthrough.
Arguments Return {R} r.
Arguments Fallthrough {R}.

(* ================================================================== *)
(** ** Bypass token fetch: [getPassword], lines 584-623 *)

(** The [validateStatus] passed at lines 598-601. *)
Definition getPassword_validateStatus (s : Z) : bool :=
  ((200 <=? s) && (s <? 307))%Z.

Definition no_jwt : Exn := JsError "no vercel JWT in response".

(** [t] is the transport outcome of the one POST the function issues. *)
Definition getPassword (target vercelPassword : string) (t : Transport)
  : Eff string :=
  (emit (ConsoleLog (LogText "requesting vercel JWT"));;
   emit (HttpPost target [("_vercel_password", vercelPassword)]);;
   response <- lift (axios getPassword_validateStatus t);;
   match set_cookie response with
   | None => throw no_jwt
   | Some cookies =>
       match find (fun cookie => cookie_name cookie =? "_vercel_jwt")
                  cookies with
       | None => throw no_jwt
       | Some vercelJwtCookie =>
           if cookie_value vercelJwtCookie =? "" then throw no_jwt
           else
             emit (ConsoleLog (LogText "received vercel JWT"));;
             ret (cookie_value vercelJwtCookie)
       end
   end)%eff.

(* ================================================================== *)
(** ** The [for] loops *)

(** Extends the trace of a finished computation at the front. *)
Definition prepend {A} (t : list Event) (r : option (Eff A))
  : option (Eff A) :=
  match r with
  | Some (t', a) => Some (t ++ t', a)
  | None => None
  end.

(** [for (let i = ...; i < iterations; i++) { body i }] from counter value
    [i] on.  The body either makes the enclosing function return, or
    falls through to the next iteration, or throws.  With an infinite
    [iterations] the loop need not end, hence the fuel: [None] means that
    [fuel] loop tests did not suffice. *)
Fixpoint for_loop {R : Type} (iterations : jsnum)
    (body : nat -> Eff (Flow R)) (fuel i : nat) : option (Eff (Flow R)) :=
  match fuel with
  | O => None
  | S fuel' =>
      if loop_continues i iterations then
        match body i with
        | (t, inl (Return r)) => Some (t, inl (Return r))
        | (t, inl Fallthrough) =>
            prepend t (for_loop iterations body fuel' (S i))
        | (t, inr e) => Some (t, inr e)
        end
      else Some ([], inl Fallthrough)
  end.

(** The code that follows a loop. *)
Definition and_then {A B} (r : option (Eff A)) (k : A -> Eff B)
  : option (Eff B) :=
  match r with
  | Some m => Some (bind m k)
  | None => None
  end.

(* ================================================================== *)
(** ** URL health poller: [waitForUrl], lines 519-577 *)

(** A [URL] object; [href] is what [toString()] gives. *)
Record URL : Type := { href : string }.

(** Every object is truthy. *)
Definition truthy_object {A : Type} (_ : A) : bool := true.

Definition truthy_string (s : string) : bool := negb (s =? "").

(** The argument object of [waitForUrl]. *)
Record WaitForUrlArgs : Type := {
  wfu_url : string;
  wfu_maxTimeout : jsnum;
  wfu_checkIntervalInMilliseconds : jsnum;
  wfu_vercelPassword : string;
  wfu_path : string
}.

(** The transport outcomes of the requests of attempt [i]: the POST of
    [getPassword] and the health-check GET. *)
Record UrlNet : Type := {
  post_outcome : nat -> Transport;
  get_outcome : nat -> Transport
}.

(** How [waitForUrl] ends: [Success] is a [return] from inside the loop,
    [Timeout] is leaving the loop and calling [core.setFailed]. *)
Inductive PollOutcome : Type := Success | Timeout.

Definition timeout_message (target : string) : string :=
  "Timeout reached: Unable to connect to " ++ target.

Section UrlHealthPoller.

(** [new URL(path, base)]: [None] when the constructor throws. *)
Variable newURL : string -> string -> option URL.
Variable net : UrlNet.
Variable args : WaitForUrlArgs.

(** Lines 533-546: the request headers of attempt [i]. *)
Definition waitForUrl_headers (i : nat) : Eff (list (string * string)) :=
  (if truthy_string (wfu_vercelPassword args) then
     jwt <- getPassword (wfu_url args) (wfu_vercelPassword args)
                        (post_outcome net i);;
     emit (SetOutput "vercel_jwt" (OutString jwt));;
     ret [("Cookie", ("_vercel_jwt=" ++ jwt)%string)]
   else ret [])%eff.

(** The [try] block, lines 533-555.  It completes only by [return]. *)
Definition waitForUrl_try (i : nat) : Eff (Flow unit) :=
  (headers <- waitForUrl_headers i;;
   checkUri <-
     match newURL (wfu_path args) (wfu_url args) with
     | Some u => ret u
     | None => throw (TypeError "Invalid URL")
     end;;
   if negb (truthy_object checkUri) then ret (Return tt)
   else
     emit (HttpGet (href checkUri) headers);;
     lift (axios defaultValidateStatus (get_outcome net i));;
     emit (ConsoleLog (LogText "Received success status code"));;
     ret (Return tt))%eff.

(** The [catch] block, lines 556-573. *)
Definition waitForUrl_catch (iterations : jsnum) (i : nat) (e : Exn)
  : Eff (Flow unit) :=
  (match has_response e with
   | Some r => emit (ConsoleLog (LogGetStatus (status r) i iterations))
   | None =>
       if has_request e then
         emit (ConsoleLog (LogGetNoResponse i iterations));;
         emit (ConsoleLog (LogText (exn_message e)))
       else
         emit (ConsoleLog (LogErrorUrl (wfu_url args)));;
         emit (ConsoleLog (LogExn e))
   end;;
   emit (Wait (wfu_checkIntervalInMilliseconds args));;
   ret Fallthrough)%eff.

(** One execution of the loop body, lines 532-573. *)
Definition waitForUrl_attempt (iterations : jsnum) (i : nat)
  : Eff (Flow unit) :=
  try_catch (waitForUrl_try i) (waitForUrl_catch iterations i).

(** Line 576 and the [return] of line 555 seen from the caller. *)
Definition waitForUrl_finish (r : Flow unit) : Eff PollOutcome :=
  match r with
  | Return _ => ret Success
  | Fallthrough =>
      (emit (SetFailed (timeout_message (wfu_url args)));; ret Timeout)%eff
  end.

Definition waitForUrl_iterations : jsnum :=
  calculateIterations (wfu_maxTimeout args)
                      (wfu_checkIntervalInMilliseconds args).

Definition waitForUrl (fuel : nat) : option (Eff PollOutcome) :=
  let iterations := waitForUrl_iterations in
  and_then (for_loop iterations (waitForUrl_attempt iterations) fuel 0)
           waitForUrl_finish.

End UrlHealthPoller.

(* ================================================================== *)
(** ** Deployment resolution poller: [waitForDeploymentToStart],
       lines 634-681 *)

(** An entry of [data.deployments] of the deployment listing. *)
Record Deployment : Type := {
  dep_name : string;
  dep_state : string
}.

(** An entry of a project's [latestDeployments]; [meta.githubCommitSha]
    is [None] when the deployment carries none. *)
Record LatestDeployment : Type := {
  ld_name : string;
  ld_githubCommitSha : option string;
  ld_automaticAliases : list string
}.

Record Project : Type := {
  latestDeployments : list LatestDeployment
}.

(** What the platform answers at attempt [i]: the payload, or the value
    with which the request (or the reading of its payload) throws. *)
Record VercelApi : Type := {
  deployments_response : nat -> list Deployment + Exn;
  projects_response : nat -> list Project + Exn
}.

(** The argument object; the two optional fields have defaults. *)
Record WaitForDeploymentArgs : Type := {
  wfd_sha : string;
  wfd_maxTimeout : option jsnum;
  wfd_checkIntervalInMilliseconds : option jsnum;
  wfd_VERCEL_TOKEN : string
}.

(** Lines 636 and 637: the defaults of the destructured parameters. *)
Definition maxTimeout_of (args : WaitForDeploymentArgs) : jsnum :=
  match wfd_maxTimeout args with
  | Some m => m
  | None => JFin 20
  end.

Definition interval_of (args : WaitForDeploymentArgs) : jsnum :=
  match wfd_checkIntervalInMilliseconds args with
  | Some m => m
  | None => JFin 2000
  end.

(** The function's result: [null] or the array [finalLinks]. *)
Inductive Resolution : Type :=
| Null
| Links (finalLinks : list ResolvedTarget).

Definition VERCEL_TEAM : string := "coprime".

Definition deployments_endpoint : string :=
  "https://api.vercel.com/v6/deployments?teamId=" ++ VERCEL_TEAM.

Definition projects_endpoint : string :=
  "https://api.vercel.com/v9/projects?teamId=" ++ VERCEL_TEAM.

(** [l[i]]: [undefined] outside the array. *)
Definition js_index {A : Type} (l : list A) (i : Z) : option A :=
  if (i <? 0)%Z then None else nth_error l (Z.to_nat i).

(** The predicate of lines 652 and 653. *)
Definition in_progress (d : Deployment) : bool :=
  (dep_state d =? "QUEUED") || (dep_state d =? "BUILDING")
  || (dep_state d =? "INITIALIZING").

(** [deployment.meta.githubCommitSha === sha]. *)
Definition sha_matches (sha : string) (deployment : LatestDeployment) : bool :=
  match ld_githubCommitSha deployment with
  | Some s => s =? sha
  | None => false
  end.

(** Lines 660-663. *)
Definition toAdd (deployment : LatestDeployment) : ResolvedTarget :=
  {| url := js_index (ld_automaticAliases deployment)
                     (Z.of_nat (List.length (ld_automaticAliases deployment)) - 1);
     name := ld_name deployment |}.

(** The body of the inner [forEach], lines 659-665. *)
Definition push_if_matching (sha : string)
    (finalLinks : list ResolvedTarget) (deployment : LatestDeployment)
  : list ResolvedTarget :=
  if sha_matches sha deployment then finalLinks ++ [toAdd deployment]
  else finalLinks.

(** Lines 656-667: the two nested [forEach] over an initially empty
    [finalLinks]. *)
Definition collect_finalLinks (sha : string)
    (latest : list (list LatestDeployment)) : list ResolvedTarget :=
  fold_left
    (fun finalLinks projectDeployments =>
       fold_left (push_if_matching sha) projectDeployments finalLinks)
    latest [].

Definition still_deploying (queuedDeployments : list Deployment) : string :=
  "Still deploying " ++ String.concat ", " (map dep_name queuedDeployments).

(** Lines 648-650: the [headers] object of both requests. *)
Definition authorization (args : WaitForDeploymentArgs)
  : list (string * string) :=
  [("Authorization", ("Bearer " ++ wfd_VERCEL_TOKEN args)%string)].

Section DeploymentResolutionPoller.

Variable api : VercelApi.
Variable args : WaitForDeploymentArgs.

(** The [try] block, lines 648-672. *)
Definition waitForDeploymentToStart_try (i : nat)
  : Eff (Flow (list ResolvedTarget)) :=
  (let headers := authorization args in
   emit (HttpGet deployments_endpoint headers);;
   deployments <- lift (deployments_response api i);;
   let hasQueuedDeployments := existsb in_progress deployments in
   let queuedDeployments := filter in_progress deployments in
   emit (HttpGet projects_endpoint headers);;
   projects <- lift (projects_response api i);;
   let latest := map latestDeployments projects in
   let finalLinks := collect_finalLinks (wfd_sha args) latest in
   if negb hasQueuedDeployments then ret (Return finalLinks)
   else
     emit (ConsoleLog (LogText (still_deploying queuedDeployments)));;
     emit (Wait (interval_of args));;
     ret Fallthrough)%eff.

(** The [catch] block, lines 673-675. *)
Definition waitForDeploymentToStart_catch (e : Exn)
  : Eff (Flow (list ResolvedTarget)) :=
  (emit (ConsoleError (LogVercelCallError e));;
   ret Fallthrough)%eff.

(** One execution of the loop body, lines 647-677: the [try]/[catch] and,
    unless it returned, the [wait] at the end of the body. *)
Definition waitForDeploymentToStart_attempt (i : nat)
  : Eff (Flow (list ResolvedTarget)) :=
  (r <- try_catch (waitForDeploymentToStart_try i)
                  waitForDeploymentToStart_catch;;
   match r with
   | Return finalLinks => ret (Return finalLinks)
   | Fallthrough =>
       emit (Wait (interval_of args));;
       ret Fallthrough
   end)%eff.

(** Line 680 and the [return] of line 668 seen from the caller. *)
Definition waitForDeploymentToStart_finish (r : Flow (list ResolvedTarget))
  : Eff Resolution :=
  match r with
  | Return finalLinks => ret (Links finalLinks)
  | Fallthrough => ret Null
  end.

Definition waitForDeploymentToStart_iterations : jsnum :=
  calculateIterations (maxTimeout_of args) (interval_of args).

Definition waitForDeploymentToStart (fuel : nat) : option (Eff Resolution) :=
  let iterations := waitForDeploymentToStart_iterations in
  and_then (for_loop iterations waitForDeploymentToStart_attempt fuel 0)
           waitForDeploymentToStart_finish.

End DeploymentResolutionPoller.

(* ================================================================== *)
(** ** Orchestrator: [getShaForPullRequest] and [run], lines 683-781 *)

(** The action's inputs.  The two numeric ones are given as
    [Number(core.getInput(...))] yields them: [JNaN] for text that is not
    a number, [JFin 0] for an input left empty. *)
Record Inputs : Type := {
  in_token : string;
  in_vercel_password : string;
  in_vercel_token : string;
  in_environment : string;
  in_max_timeout : jsnum;
  in_allow_inactive : string;
  in_path : string;
  in_check_interval : jsnum
}.

(** [payload.pull_request], with its [number] when it has one. *)
Record PullRequest : Type := { pr_number : option Z }.

(** What [octokit.rest.pulls.get] does: it resolves with a response, of
    which the code reads [status] and [data.head.sha], or it throws an
    error with a message.  The request library resolves only with a
    status that [octokit_resolves] admits; a lookup answered with any
    other status, such as 404, is a [PullsGetThrows]. *)
Inductive PullsGet : Type :=
| PullsGetResponse (st : Z) (head_sha : string)
| PullsGetThrows (message : string).

(** The statuses with which [@octokit/request] resolves: it throws on
    304 and on every status from 400 on. *)
Definition octokit_resolves (st : Z) : bool :=
  (200 <=? st)%Z && (st <? 400)%Z && negb (st =? 304)%Z.

Record GithubContext : Type := {
  payload_pull_request : option PullRequest;
  context_sha : string;
  pulls_get : PullsGet
}.

(** [!sha] for a [sha] that may still be [undefined]. *)
Definition falsy_sha (sha : option string) : bool :=
  match sha with
  | Some s => negb (truthy_string s)
  | None => true
  end.

(** [urls] as a condition: [null] is falsy, an array (also an empty one)
    is truthy. *)
Definition truthy_resolution (urls : Resolution) : bool :=
  match urls with
  | Null => false
  | Links _ => true
  end.

(** [core.getInput(key, { required: true })]. *)
Definition getInput_required (key value : string) : Eff string :=
  if truthy_string value then ret value
  else throw (JsError ("Input required and not supplied: " ++ key)).

(** Lines 716-720. *)
Definition MAX_TIMEOUT (inputs : Inputs) : jsnum :=
  Js.or_else (in_max_timeout inputs) (JFin 720).

Definition PATH (inputs : Inputs) : string :=
  if truthy_string (in_path inputs) then in_path inputs else "/".

Definition CHECK_INTERVAL_IN_MS (inputs : Inputs) : jsnum :=
  Js.mul (Js.or_else (in_check_interval inputs) (JFin 2)) (JFin 1000).

(** [getShaForPullRequest], lines 683-707; [None] is [undefined]. *)
Definition getShaForPullRequest (ctx : GithubContext) (pr : PullRequest)
  : Eff (option string) :=
  match pr_number pr with
  | Some n =>
      if (n =? 0)%Z then
        (emit (SetFailed "No pull request number was found");; ret None)%eff
      else
        match pulls_get ctx with
        | PullsGetThrows m => throw (JsError m)
        | PullsGetResponse st prSHA =>
            if negb (st =? 200)%Z then
              (emit (SetFailed
                 "Could not get information about the current pull request");;
               ret None)%eff
            else ret (Some prSHA)
        end
  | None =>
      (emit (SetFailed "No pull request number was found");; ret None)%eff
  end.

(** The argument object of the health poll that [run] starts for one
    element of [urls], lines 769-775; the template literal prints
    [undefined] as text. *)
Definition health_poll_args (inputs : Inputs) (u : option string)
  : WaitForUrlArgs :=
  {| wfu_url := "https://" ++ match u with Some s => s | None => "undefined" end;
     wfu_maxTimeout := MAX_TIMEOUT inputs;
     wfu_checkIntervalInMilliseconds := CHECK_INTERVAL_IN_MS inputs;
     wfu_vercelPassword := in_vercel_password inputs;
     wfu_path := PATH inputs |}.

(** The argument object of lines 754-759. *)
Definition resolution_args (inputs : Inputs) (sha : string)
  : WaitForDeploymentArgs :=
  {| wfd_sha := sha;
     wfd_maxTimeout := Some (MAX_TIMEOUT inputs);
     wfd_checkIntervalInMilliseconds := Some (CHECK_INTERVAL_IN_MS inputs);
     wfd_VERCEL_TOKEN := in_vercel_token inputs |}.

Section Orchestrator.

Variable inputs : Inputs.
Variable ctx : GithubContext.
Variable api : VercelApi.

(** Lines 712-751: up to the determination of [sha].  [None] means that
    [run] has returned. *)
Definition run_determine_sha : Eff (option string) :=
  (GITHUB_TOKEN <- getInput_required "token" (in_token inputs);;
   (if negb (truthy_string GITHUB_TOKEN)
    then emit (SetFailed "Required field `token` was not provided")
    else ret tt);;
   (if negb (truthy_string (in_vercel_token inputs))
    then emit (SetFailed "Required field `vercel_token` was not provided")
    else ret tt);;
   sha <-
     match payload_pull_request ctx with
     | Some pr => getShaForPullRequest ctx pr
     | None =>
         if truthy_string (context_sha ctx) then ret (Some (context_sha ctx))
         else ret None
     end;;
   if falsy_sha sha then
     emit (SetFailed "Unable to determine SHA. Exiting...");; ret None
   else ret sha)%eff.

(** Lines 761-776: what [run] does with the poller's result.  The value
    is the list of the health polls it starts and does not wait for. *)
Definition run_after_resolution (urls : Resolution)
  : Eff (list WaitForUrlArgs) :=
  (if negb (truthy_resolution urls) then
     emit (SetFailed "no vercel deployment found, exiting...");; ret []
   else
     let l := match urls with Links l => l | Null => [] end in
     emit (ConsoleLog (LogUrls l));;
     emit (SetOutput "urls" (OutTargets l));;
     ret (map (health_poll_args inputs) (map url l)))%eff.

(** The [try] block of [run]. *)
Definition run_try (fuel : nat) : option (Eff (list WaitForUrlArgs)) :=
  match run_determine_sha with
  | (t, inr e) => Some (t, inr e)
  | (t, inl None) => Some (t, inl [])
  | (t, inl (Some sha)) =>
      prepend t
        (and_then (waitForDeploymentToStart api (resolution_args inputs sha)
                                            fuel)
                  run_after_resolution)
  end.

(** [run]: the [try] block and the [catch] of lines 778-780. *)
Definition run (fuel : nat) : option (Eff (list WaitForUrlArgs)) :=
  match run_try fuel with
  | None => None
  | Some m =>
      Some (try_catch m
              (fun error =>
                 (emit (SetFailed (exn_message error));; ret [])%eff))
  end.

End Orchestrator.

(* ================================================================== *)
(** ** Reading traces *)

Definition is_wait (ev : Event) : bool :=
  match ev with Wait _ => true | _ => false end.

Definition is_post (ev : Event) : bool :=
  match ev with HttpPost _ _ => true | _ => false end.

Definition is_failure (ev : Event) : bool :=
  match ev with SetFailed _ => true | _ => false end.

Definition is_urls_output (ev : Event) : bool :=
  match ev with SetOutput "urls" _ => true | _ => false end.


(** The durations of the sleeps of a trace, in order. *)
Definition waits (t : list Event) : list jsnum :=
  flat_map (fun ev => match ev with Wait ms => [ms] | _ => [] end) t.

Definition count (p : Event -> bool) (t : list Event) : nat :=
  List.length (filter p t).

(** The events of the [catch] block of [waitForUrl] before its [wait]. *)
Definition catch_log (args : WaitForUrlArgs) (iterations : jsnum) (i : nat)
    (e : Exn) : list Event :=
  match has_response e with
  | Some r => [ConsoleLog (LogGetStatus (status r) i iterations)]
  | None =>
      if has_request e then
        [ConsoleLog (LogGetNoResponse i iterations);
         ConsoleLog (LogText (exn_message e))]
      else
        [ConsoleLog (LogErrorUrl (wfu_url args)); ConsoleLog (LogExn e)]
  end.

(** Attempt [i] finds both listings answered and no deployment of the
    team in progress. *)
Definition settled (api : VercelApi) (i : nat) : bool :=
  match deployments_response api i, projects_response api i with
  | inl deployments, inl _ => negb (existsb in_progress deployments)
  | _, _ => false
  end.

(** The traces of the loop bodies for the counter values
    [i], ..., [i + k - 1], one after the other. *)
Definition attempts_trace {R : Type} (body : nat -> Eff (Flow R))
    (i k : nat) : list Event :=
  List.concat (map (fun j => fst (body j)) (seq i k)).

(* ================================================================== *)
(** ** Concrete inputs used by the examples *)

(** A stand-in for the URL constructor on the inputs of the examples: a
    base [https://host] and a path that starts with [/].  A base without
    a scheme makes the constructor throw. *)
Definition ex_newURL (path base : string) : option URL :=
  if String.prefix "https://" base then Some {| href := base ++ path |}
  else None.

Definition ex_response (st : Z) : Response :=
  {| status := st; set_cookie := None |}.

(** Two attempts of two seconds each, no password. *)
Definition ex_poll_args (target : string) : WaitForUrlArgs :=
  {| wfu_url := target;
     wfu_maxTimeout := JFin 4;
     wfu_checkIntervalInMilliseconds := JFin 2000;
     wfu_vercelPassword := "";
     wfu_path := "/" |}.

(** The same budget for a password-protected deployment. *)
Definition ex_protected_args (target : string) : WaitForUrlArgs :=
  {| wfu_url := target;
     wfu_maxTimeout := JFin 4;
     wfu_checkIntervalInMilliseconds := JFin 2000;
     wfu_vercelPassword := "secret";
     wfu_path := "/" |}.

(** The server answers 404 to the first health check and 200 from then
    on; the bypass handshake is never answered. *)
Definition ex_net_404_then_200 : UrlNet :=
  {| post_outcome := fun _ => NoResponse "socket hang up";
     get_outcome := fun i =>
       match i with
       | O => Responded (ex_response 404)
       | _ => Responded (ex_response 200)
       end |}.

(** Nothing ever answers. *)
Definition ex_net_down : UrlNet :=
  {| post_outcome := fun _ => NoResponse "connect ECONNREFUSED";
     get_outcome := fun _ => NoResponse "connect ECONNREFUSED" |}.

(** The handshake answers 303 with the cookie; the health check 200. *)
Definition ex_jwt_response : Response :=
  {| status := 303;
     set_cookie := Some [ {| cookie_name := "other"; cookie_value := "x" |};
                          {| cookie_name := "_vercel_jwt";
                             cookie_value := "abc123" |} ] |}.

Definition ex_web : LatestDeployment :=
  {| ld_name := "web";
     ld_githubCommitSha := Some "abc123";
     ld_automaticAliases := ["web-abc.vercel.app"; "web-preview.vercel.app"] |}.

Definition ex_docs : LatestDeployment :=
  {| ld_name := "docs";
     ld_githubCommitSha := Some "fff999";
     ld_automaticAliases := ["docs.vercel.app"] |}.

Definition ex_projects : list Project :=
  [ {| latestDeployments := [ex_docs; ex_web] |} ].

(** No deployment of the team is in progress. *)
Definition ex_api_idle : VercelApi :=
  {| deployments_response := fun _ =>
       inl [ {| dep_name := "web"; dep_state := "READY" |};
             {| dep_name := "docs"; dep_state := "CANCELED" |} ];
     projects_response := fun _ => inl ex_projects |}.

(** One deployment of the team stays in the build queue. *)
Definition ex_api_busy : VercelApi :=
  {| deployments_response := fun _ =>
       inl [ {| dep_name := "web"; dep_state := "READY" |};
             {| dep_name := "docs"; dep_state := "BUILDING" |} ];
     projects_response := fun _ => inl ex_projects |}.

Definition ex_resolution_args (sha : string) : WaitForDeploymentArgs :=
  {| wfd_sha := sha;
     wfd_maxTimeout := Some (JFin 4);
     wfd_checkIntervalInMilliseconds := Some (JFin 2000);
     wfd_VERCEL_TOKEN := "tok" |}.

Definition ex_inputs (max_timeout check_interval : jsnum) : Inputs :=
  {| in_token := "ghs_token";
     in_vercel_password := "";
     in_vercel_token := "tok";
     in_environment := "";
     in_max_timeout := max_timeout;
     in_allow_inactive := "";
     in_path := "";
     in_check_interval := check_interval |}.

(** A push event for commit [sha]. *)
Definition ex_push (sha : string) : GithubContext :=
  {| payload_pull_request := None;
     context_sha := sha;
     pulls_get := PullsGetThrows "Not Found" |}.

(* ================================================================== *)
(** ** Status poller: [waitForStatus] and [StatusError],
       lines 120-189 *)

(** An element of [statuses.data]. *)
Record DeploymentStatus : Type := {
  status_state : string;
  status_target_url : string
}.

(** The argument object of [waitForStatus]. *)
Record WaitForStatusArgs : Type := {
  wfs_owner : string;
  wfs_repo : string;
  wfs_deployment_id : Z;
  wfs_maxTimeout : jsnum;
  wfs_allowInactive : bool;
  wfs_checkIntervalInMilliseconds : jsnum
}.

(** What the [try] block throws: a [StatusError] of the function's own,
    or whatever [listDeploymentStatuses] rejects with. *)
Inductive StatusThrown : Type :=
| StatusError (message : string)
| OtherError (e : Exn).

(** What [waitForStatus] does to the outside. *)
Inductive StatusEvent : Type :=
| ListDeploymentStatuses (owner repo : string) (deployment_id : Z)
| LogRetrying (attempt : nat) (iterations : jsnum)
| LogLine (message : string)
| LogError (e : Exn)
| Sleep (ms : jsnum)
| Failed (message : string).

Definition double_quote : string :=
  String (Ascii.ascii_of_nat 34) EmptyString.

Definition no_status_message : string := "No status was available".

(** The text that line 169 looks for. *)
Definition not_success_fragment : string :=
  "No status with state " ++ double_quote ++ "success" ++ double_quote.

Definition not_success_message : string :=
  not_success_fragment ++ " was available".

Definition unknown_status_message : string := "Unknown status error".

Definition status_timeout_message : string :=
  "Timeout reached: Unable to wait for an deployment to be successful".

(** [s.includes(fragment)]. *)
Definition includes (s fragment : string) : bool :=
  match String.index 0 fragment s with
  | Some _ => true
  | None => false
  end.

Section StatusPoller.

(** What [octokit.rest.repos.listDeploymentStatuses] answers at attempt
    [i]: the array [data], or the value it rejects with. *)
Variable statuses_response : nat -> list DeploymentStatus + Exn.
Variable args : WaitForStatusArgs.

(** The [try] block, lines 137-161. *)
Definition waitForStatus_try (i : nat)
  : list StatusEvent * (DeploymentStatus + StatusThrown) :=
  let request :=
    [ListDeploymentStatuses (wfs_owner args) (wfs_repo args)
                            (wfs_deployment_id args)] in
  match statuses_response i with
  | inr e => (request, inr (OtherError e))
  | inl data =>
      let status :=
        if (0 <? List.length data)%nat then js_index data 0 else None in
      match status with
      | None => (request, inr (StatusError no_status_message))
      | Some status =>
          if wfs_allowInactive args && (status_state status =? "inactive")
          then (request, inl status)
          else if negb (status_state status =? "success")
          then (request, inr (StatusError not_success_message))
          else if status_state status =? "success"
          then (request, inl status)
          else (request, inr (StatusError unknown_status_message))
      end
  end.

(** The [catch] block, lines 162-178. *)
Definition waitForStatus_catch (iterations : jsnum) (i : nat)
    (e : StatusThrown) : list StatusEvent :=
  [LogRetrying (i + 1) iterations]
  ++ match e with
     | StatusError m =>
         if includes m not_success_fragment then [] else [LogLine m]
     | OtherError e' => [LogError e']
     end
  ++ [Sleep (wfs_checkIntervalInMilliseconds args)].

(** The loop of lines 135-179 from counter value [i] and line 180.  The
    result is the returned status, or [None] for [undefined]. *)
Fixpoint waitForStatus_loop (iterations : jsnum) (fuel i : nat)
  : option (list StatusEvent * option DeploymentStatus) :=
  match fuel with
  | O => None
  | S fuel' =>
      if loop_continues i iterations then
        match waitForStatus_try i with
        | (t, inl status) => Some (t, Some status)
        | (t, inr e) =>
            match waitForStatus_loop iterations fuel' (S i) with
            | Some (t', r) =>
                Some (t ++ waitForStatus_catch iterations i e ++ t', r)
            | None => None
            end
        end
      else Some ([Failed status_timeout_message], None)
  end.

Definition waitForStatus_iterations : jsnum :=
  calculateIterations (wfs_maxTimeout args)
                      (wfs_checkIntervalInMilliseconds args).

Definition waitForStatus (fuel : nat)
  : option (list StatusEvent * option DeploymentStatus) :=
  waitForStatus_loop waitForStatus_iterations fuel 0.

End StatusPoller.

(** Reading the traces of [waitForStatus]. *)
Definition is_sleep (ev : StatusEvent) : bool :=
  match ev with Sleep _ => true | _ => false end.

Definition is_failed (ev : StatusEvent) : bool :=
  match ev with Failed _ => true | _ => false end.

Definition is_listing (ev : StatusEvent) : bool :=
  match ev with ListDeploymentStatuses _ _ _ => true | _ => false end.

Definition count_status (p : StatusEvent -> bool) (t : list StatusEvent)
  : nat :=
  List.length (filter p t).

(** The trace of one execution of the loop body of [waitForStatus]: the
    [try] block and, when it throws, the [catch] block. *)
Definition waitForStatus_attempt
    (statuses_response : nat -> list DeploymentStatus + Exn)
    (args : WaitForStatusArgs) (iterations : jsnum) (i : nat)
  : list StatusEvent :=
  fst (waitForStatus_try statuses_response args i)
  ++ match snd (waitForStatus_try statuses_response args i) with
     | inl _ => []
     | inr e => waitForStatus_catch args iterations i e
     end.

(** The traces of the loop bodies for the counter values
    [i], ..., [i + k - 1], one after the other. *)
Definition status_attempts_trace
    (statuses_response : nat -> list DeploymentStatus + Exn)
    (args : WaitForStatusArgs) (iterations : jsnum) (i k : nat)
  : list StatusEvent :=
  List.concat
    (map (waitForStatus_attempt statuses_response args iterations)
         (seq i k)).

(** The first status is one that ends the poll. *)
Definition accepted_status (args : WaitForStatusArgs) (s : DeploymentStatus)
  : bool :=
  (status_state s =? "success")
  || (wfs_allowInactive args && (status_state s =? "inactive")).

(* ================================================================== *)
(** ** The earlier [waitForDeploymentToStart], lines 200-286 *)

Module Earlier.

(** An entry of [data.deployments], with the [url] this version
    returns. *)
Record Deployment : Type := {
  name : string;
  state : string;
  url : string
}.

(** What the platform answers at attempt [i]; the project listing is
    only logged. *)
Record VercelApi : Type := {
  deployments_response : nat -> list Deployment + Exn;
  projects_response : nat -> list Project + Exn
}.

(** What this version does to the outside. *)
Inductive Event : Type :=
| Get (target : string) (headers : list (string * string))
| LogAllDeployments (deployments : list Deployment)
| LogApps (apps : list (string * string))
| LogProjects (projects : list Project)
| LogCallError (e : Exn)
| Sleep (ms : jsnum).

(** The predicate of line 227. *)
Definition queued (d : Deployment) : bool := state d =? "QUEUED".

(** The filter of line 234. *)
Definition not_canceled (d : Deployment) : bool :=
  negb (state d =? "CANCELED").

Section Poller.

Variable api : VercelApi.
Variable args : WaitForDeploymentArgs.

(** The [try] block, lines 219-236: the events and the returned array,
    the fall through to the [wait], or the thrown value. *)
Definition waitForDeploymentToStart_try (i : nat)
  : list Event * (Flow (list string) + Exn) :=
  let request1 := [Get deployments_endpoint (authorization args)] in
  match deployments_response api i with
  | inr e => (request1, inr e)
  | inl deployments =>
      let logged :=
        request1
        ++ [LogAllDeployments deployments;
            LogApps (map (fun d => (name d, state d)) deployments)] in
      let hasQueuedDeployments := existsb queued deployments in
      let request2 := logged ++ [Get projects_endpoint (authorization args)] in
      match projects_response api i with
      | inr e => (request2, inr e)
      | inl projects =>
          if negb hasQueuedDeployments then
            (request2 ++ [LogProjects projects],
             inl (Return (map url (filter not_canceled deployments))))
          else (request2 ++ [LogProjects projects], inl Fallthrough)
      end
  end.

(** One execution of the loop body, lines 218-282: the [try] and [catch]
    blocks and, unless the function returned, the [wait]. *)
Definition waitForDeploymentToStart_attempt (i : nat)
  : list Event * option (list string) :=
  match waitForDeploymentToStart_try i with
  | (t, inl (Return urls)) => (t, Some urls)
  | (t, inl Fallthrough) => (t ++ [Sleep (interval_of args)], None)
  | (t, inr e) => (t ++ [LogCallError e; Sleep (interval_of args)], None)
  end.

(** The loop from counter value [i] and line 285: the returned array, or
    [None] for [null]. *)
Fixpoint waitForDeploymentToStart_loop (iterations : jsnum) (fuel i : nat)
  : option (list Event * option (list string)) :=
  match fuel with
  | O => None
  | S fuel' =>
      if loop_continues i iterations then
        match waitForDeploymentToStart_attempt i with
        | (t, Some urls) => Some (t, Some urls)
        | (t, None) =>
            match waitForDeploymentToStart_loop iterations fuel' (S i) with
            | Some (t', r) => Some (t ++ t', r)
            | None => None
            end
        end
      else Some ([], None)
  end.

Definition waitForDeploymentToStart (fuel : nat)
  : option (list Event * option (list string)) :=
  waitForDeploymentToStart_loop
    (calculateIterations (maxTimeout_of args) (interval_of args)) fuel 0.

End Poller.

Definition is_sleep (ev : Event) : bool :=
  match ev with Sleep _ => true | _ => false end.

Definition count (p : Event -> bool) (t : list Event) : nat :=
  List.length (filter p t).

(** The traces of the loop bodies for the counter values
    [i], ..., [i + k - 1], one after the other. *)
Definition attempts_trace (api : VercelApi) (args : WaitForDeploymentArgs)
    (i k : nat) : list Event :=
  List.concat
    (map (fun j => fst (waitForDeploymentToStart_attempt api args j))
         (seq i k)).

(** Attempt [i] finds both listings answered and no deployment queued. *)
Definition settled (api : VercelApi) (i : nat) : bool :=
  match deployments_response api i, projects_response api i with
  | inl deployments, inl _ => negb (existsb queued deployments)
  | _, _ => false
  end.

End Earlier.

(** One deployment is being built, one was canceled, none is queued. *)
Definition ex_earlier_api : Earlier.VercelApi :=
  {| Earlier.deployments_response := fun _ =>
       inl [ {| Earlier.name := "web"; Earlier.state := "BUILDING";
                Earlier.url := "web-abc.vercel.app" |};
             {| Earlier.name := "docs"; Earlier.state := "CANCELED";
                Earlier.url := "docs-abc.vercel.app" |} ];
     Earlier.projects_response := fun _ => inl ex_projects |}.


(* ================================================================== *)
(** ** Reading traces, continued *)

Definition is_get (ev : Event) : bool :=
  match ev with HttpGet _ _ => true | _ => false end.

Definition is_output (ev : Event) : bool :=
  match ev with SetOutput _ _ => true | _ => false end.

(** The events of [run] that precede the determination of [sha] when the
    token is there: the failure set for a missing [vercel_token]. *)
Definition vercel_token_check (inputs : Inputs) : list Event :=
  if truthy_string (in_vercel_token inputs) then []
  else [SetFailed "Required field `vercel_token` was not provided"].

(** [ctx] with another [context.sha]. *)
Definition with_context_sha (ctx : GithubContext) (sha : string)
  : GithubContext :=
  {| payload_pull_request := payload_pull_request ctx;
     context_sha := sha;
     pulls_get := pulls_get ctx |}.

(** The inputs and the event from which [run] obtains the commit [sha]
    it polls for: the token is there, and [sha] is the non-empty
    [context.sha] of an event without a pull request, or the head of the
    pull request, looked up by its non-zero number and answered with
    status 200. *)
Definition sha_source (inputs : Inputs) (ctx : GithubContext) (sha : string)
  : Prop :=
  in_token inputs <> "" /\ sha <> ""
  /\ match payload_pull_request ctx with
     | None => context_sha ctx = sha
     | Some pr =>
         (exists n, pr_number pr = Some n /\ n <> 0%Z)
         /\ pulls_get ctx = PullsGetResponse 200 sha
     end.

(* ================================================================== *)
(** ** Further inputs used by the examples *)

(** A budget that never runs out. *)
Definition ex_endless_args (target : string) : WaitForUrlArgs :=
  {| wfu_url := target;
     wfu_maxTimeout := JPosInf;
     wfu_checkIntervalInMilliseconds := JFin 2000;
     wfu_vercelPassword := "";
     wfu_path := "/" |}.


(** The handshake is refused with 401. *)
Definition ex_net_refused : UrlNet :=
  {| post_outcome := fun _ => Responded (ex_response 401);
     get_outcome := fun _ => Responded (ex_response 200) |}.




(** A handshake response with two cookies named [_vercel_jwt], the
    first of them empty. *)
Definition ex_two_jwt_response : Response :=
  {| status := 303;
     set_cookie := Some [ {| cookie_name := "_vercel_jwt";
                             cookie_value := "" |};
                          {| cookie_name := "_vercel_jwt";
                             cookie_value := "abc123" |} ] |}.

(** A deployment is building and the project listing fails. *)
Definition ex_api_busy_projects_failing : VercelApi :=
  {| deployments_response := fun _ =>
       inl [ {| dep_name := "web"; dep_state := "READY" |};
             {| dep_name := "docs"; dep_state := "BUILDING" |} ];
     projects_response := fun _ => inr (AxiosRequestError "timeout") |}.


(** A pull-request event whose head is [sha]. *)
Definition ex_pull_request (st : Z) (sha : string) : GithubContext :=
  {| payload_pull_request := Some {| pr_number := Some 7%Z |};
     context_sha := "merge000";
     pulls_get := PullsGetResponse st sha |}.

(** A pull-request event whose lookup is answered 404: octokit throws. *)
Definition ex_pull_request_not_found : GithubContext :=
  {| payload_pull_request := Some {| pr_number := Some 7%Z |};
     context_sha := "merge000";
     pulls_get := PullsGetThrows "Not Found" |}.

Definition ex_inputs_without_vercel_token : Inputs :=
  {| in_token := "ghs_token";
     in_vercel_password := "";
     in_vercel_token := "";
     in_environment := "";
     in_max_timeout := JFin 4;
     in_allow_inactive := "";
     in_path := "";
     in_check_interval := JFin 2 |}.

Definition ex_status_args (allowInactive : bool) : WaitForStatusArgs :=
  {| wfs_owner := "coprime";
     wfs_repo := "web";
     wfs_deployment_id := 42;
     wfs_maxTimeout := JFin 4;
     wfs_allowInactive := allowInactive;
     wfs_checkIntervalInMilliseconds := JFin 2000 |}.

Definition ex_status (state : string) : DeploymentStatus :=
  {| status_state := state;
     status_target_url := "https://web-preview.vercel.app" |}.

(** The newest status is [pending]; an older one is [success]. *)
Definition ex_statuses_pending (_ : nat) : list DeploymentStatus + Exn :=
  inl [ex_status "pending"; ex_status "success"].

(** No status at first, then [inactive]. *)
Definition ex_statuses_late (i : nat) : list DeploymentStatus + Exn :=
  match i with
  | O => inl []
  | _ => inl [ex_status "inactive"]
  end.

(* ================================================================== *)
(** ** Proof steps *)

(** Case analysis on every bound test of the goal. *)
Ltac by_cases_on_bounds :=
  repeat match goal with
         | |- context [Qle_bool ?a ?b] =>
             let E := fresh "E" in
             destruct (Qle_bool a b) eqn:E;
             [apply Qle_bool_iff in E
             | apply not_true_iff_false in E; rewrite Qle_bool_iff in E]
         end.

(* ================================================================== *)
(** * Properties *)

(* ------------------------------------------------------------------ *)
(** ** Numbers and the loop header *)

Lemma loop_continues_of_Z (i : nat) (z : Z) :
  loop_continues i (Js.of_Z z) = (Z.of_nat i <? z)%Z.
Proof.
  unfold loop_continues, Js.of_nat, Js.of_Z, Js.lt, Qcompare; simpl.
  rewrite !Z.mul_1_r. unfold Z.ltb.
  destruct (Z.of_nat i ?= z)%Z; reflexivity.
Qed.

Lemma loop_continues_below (i : nat) (z : Z) :
  (i < Z.to_nat z)%nat -> loop_continues i (Js.of_Z z) = true.
Proof.
  intros H. rewrite loop_continues_of_Z. apply Z.ltb_lt. lia.
Qed.

Lemma loop_continues_at_bound (z : Z) :
  loop_continues (Z.to_nat z) (Js.of_Z z) = false.
Proof.
  rewrite loop_continues_of_Z. apply Z.ltb_ge. lia.
Qed.

Lemma loop_continues_NaN (i : nat) : loop_continues i JNaN = false.
Proof. reflexivity. Qed.

(** The header admits every counter value below one it admits. *)
Lemma loop_continues_downward (j k : nat) (iterations : jsnum) :
  (j <= k)%nat ->
  loop_continues k iterations = true -> loop_continues j iterations = true.
Proof.
  intros Hjk. unfold loop_continues, Js.lt, Js.of_nat, Js.of_Z.
  destruct iterations as [| | |q]; try discriminate; [reflexivity|].
  destruct (inject_Z (Z.of_nat k) ?= q)%Q eqn:E; try discriminate.
  intros _. apply Qlt_alt in E.
  assert (H : (inject_Z (Z.of_nat j) < q)%Q).
  { eapply Qle_lt_trans; [|exact E]. rewrite <- Zle_Qle. lia. }
  now rewrite (proj1 (Qlt_alt _ _) H).
Qed.

(* ------------------------------------------------------------------ *)
(** ** The [for] loop *)

Section ForLoop.

Context {R : Type}.
Variable iterations : jsnum.
Variable body : nat -> Eff (Flow R).

Lemma for_loop_exit (fuel i : nat) :
  loop_continues i iterations = false ->
  for_loop iterations body (S fuel) i = Some ([], inl Fallthrough).
Proof. intros H. simpl. rewrite H. reflexivity. Qed.

Lemma for_loop_return (fuel i : nat) (t : list Event) (r : R) :
  loop_continues i iterations = true ->
  body i = (t, inl (Return r)) ->
  for_loop iterations body (S fuel) i = Some (t, inl (Return r)).
Proof. intros H Hb. simpl. rewrite H, Hb. reflexivity. Qed.

Lemma for_loop_next (fuel i : nat) (t : list Event) :
  loop_continues i iterations = true ->
  body i = (t, inl Fallthrough) ->
  for_loop iterations body (S fuel) i
  = prepend t (for_loop iterations body fuel (S i)).
Proof. intros H Hb. simpl. rewrite H, Hb. reflexivity. Qed.

Lemma prepend_app {A} (t1 t2 : list Event) (r : option (Eff A)) :
  prepend t1 (prepend t2 r) = prepend (t1 ++ t2) r.
Proof.
  destruct r as [[t a]|]; simpl; [rewrite app_assoc|]; reflexivity.
Qed.

Lemma prepend_nil {A} (r : option (Eff A)) : prepend [] r = r.
Proof. destruct r as [[t a]|]; reflexivity. Qed.

(** [k] iterations that fall through are executed one after the other. *)
Lemma for_loop_falls_through (k fuel i : nat) :
  (forall j, (i <= j < i + k)%nat ->
     loop_continues j iterations = true /\ snd (body j) = inl Fallthrough) ->
  for_loop iterations body (k + fuel) i
  = prepend (attempts_trace body i k)
            (for_loop iterations body fuel (i + k)).
Proof.
  revert i. induction k as [|k IH]; intros i H.
  - simpl. rewrite Nat.add_0_r. unfold attempts_trace. simpl.
    symmetry. apply prepend_nil.
  - destruct (H i ltac:(lia)) as [Hc Hb].
    destruct (body i) as [t r] eqn:E. simpl in Hb. subst r.
    change (S k + fuel)%nat with (S (k + fuel)).
    rewrite (for_loop_next _ _ t Hc E).
    rewrite IH by (intros j Hj; apply H; lia).
    rewrite prepend_app. unfold attempts_trace. simpl. rewrite E. simpl.
    replace (i + S k)%nat with (S i + k)%nat by lia. reflexivity.
Qed.


End ForLoop.

(* ------------------------------------------------------------------ *)
(** ** The [for] loop, continued *)

Section ForLoopOutcomes.

Context {R : Type}.
Variable iterations : jsnum.
Variable body : nat -> Eff (Flow R).

(** The loop returns from the first iteration that returns. *)
Lemma for_loop_first_return (k fuel : nat) (t : list Event) (r : R) :
  (forall j, (j < k)%nat -> snd (body j) = inl Fallthrough) ->
  loop_continues k iterations = true ->
  body k = (t, inl (Return r)) ->
  (k < fuel)%nat ->
  for_loop iterations body fuel 0
  = Some (attempts_trace body 0 k ++ t, inl (Return r)).
Proof.
  intros Hbefore Hc Hb Hfuel.
  replace fuel with (k + S (fuel - k - 1))%nat by lia.
  rewrite for_loop_falls_through.
  - now rewrite Nat.add_0_l, (for_loop_return _ _ _ _ _ _ Hc Hb).
  - intros j Hj. split; [|apply Hbefore; lia].
    apply (loop_continues_downward j k); [lia | exact Hc].
Qed.



(** With an infinite count and iterations that all fall through, the
    loop never ends. *)
Lemma for_loop_endless (fuel i : nat) :
  iterations = JPosInf ->
  (forall j, snd (body j) = inl Fallthrough) ->
  for_loop iterations body fuel i = None.
Proof.
  intros -> Hall. revert i. induction fuel as [|fuel IH]; intros i.
  - reflexivity.
  - simpl. specialize (Hall i).
    destruct (body i) as [t r]. simpl in Hall. subst r.
    now rewrite IH.
Qed.

End ForLoopOutcomes.

(* ------------------------------------------------------------------ *)
(** ** Retry budget *)

Section RetryBudget.

Local Open Scope Q_scope.

(** *** Powers of two *)
Lemma two_power_positive (e : Z) : 0 < Js.two_power e.
Proof. apply Qpower_0_lt. reflexivity. Qed.

Lemma two_power_add (a b : Z) :
  Js.two_power (a + b) == Js.two_power a * Js.two_power b.
Proof. apply Qpower_plus. discriminate. Qed.

Lemma two_power_of_Z (e : Z) :
  (0 <= e)%Z -> Js.two_power e == inject_Z (2 ^ e).
Proof. intros H. unfold Js.two_power. now rewrite Zpower_Qpower. Qed.

Lemma two_power_le (a b : Z) :
  (a <= b)%Z -> Js.two_power a <= Js.two_power b.
Proof. intros H. apply Qpower_le_compat_l; [exact H | discriminate]. Qed.

Lemma two_power_lt (a b : Z) :
  (a < b)%Z -> Js.two_power a < Js.two_power b.
Proof. intros H. apply Qpower_lt_compat_l; [exact H | reflexivity]. Qed.

Lemma two_power_lt_inv (a b : Z) :
  Js.two_power a < Js.two_power b -> (a < b)%Z.
Proof. intros H. apply (Qpower_lt_compat_l_inv 2); [exact H | reflexivity]. Qed.

(** *** The binary logarithm *)
Lemma ilog2_spec (x : Q) :
  0 < x -> Js.two_power (Js.ilog2 x) <= x < Js.two_power (Js.ilog2 x + 1).
Proof.
  intros Hx. destruct x as [n d]. unfold Js.ilog2. cbn [Qnum Qden].
  assert (Hn : (0 < n)%Z) by (unfold Qlt in Hx; simpl in Hx; lia).
  set (a := Z.log2 n). set (b := Z.log2 (Zpos d)).
  destruct (Z.log2_spec n Hn) as [Ha1 Ha2]. fold a in Ha1, Ha2.
  destruct (Z.log2_spec (Zpos d) eq_refl) as [Hb1 Hb2]. fold b in Hb1, Hb2.
  assert (Ha0 : (0 <= a)%Z) by apply Z.log2_nonneg.
  assert (Hb0 : (0 <= b)%Z) by apply Z.log2_nonneg.
  assert (Hx' : (n # d) * inject_Z (Zpos d) == inject_Z n).
  { rewrite Qmake_Qdiv. field. discriminate. }
  assert (Hd : 0 < inject_Z (Zpos d)) by reflexivity.
  assert (Hup : (n # d) < Js.two_power (a - b + 1)).
  { apply (Qmult_lt_r _ _ (Js.two_power b)); [apply two_power_positive|].
    rewrite <- two_power_add. replace (a - b + 1 + b)%Z with (Z.succ a) by lia.
    apply Qle_lt_trans with ((n # d) * inject_Z (Zpos d)).
    - apply Qmult_le_l; [exact Hx|]. rewrite two_power_of_Z by exact Hb0.
      now rewrite <- Zle_Qle.
    - rewrite Hx', two_power_of_Z by lia. now rewrite <- Zlt_Qlt. }
  assert (Hlow : Js.two_power (a - b - 1) < (n # d)).
  { apply (Qmult_lt_r _ _ (Js.two_power (Z.succ b))); [apply two_power_positive|].
    rewrite <- two_power_add. replace (a - b - 1 + Z.succ b)%Z with a by lia.
    apply Qle_lt_trans with ((n # d) * inject_Z (Zpos d)).
    - rewrite Hx', two_power_of_Z by lia. now rewrite <- Zle_Qle.
    - apply Qmult_lt_l; [exact Hx|]. rewrite two_power_of_Z by lia.
      now rewrite <- Zlt_Qlt. }
  destruct (Qle_bool (Js.two_power (a - b)) (n # d)) eqn:E.
  - split; [now apply Qle_bool_iff | exact Hup].
  - split; [now apply Qlt_le_weak|].
    replace (a - b - 1 + 1)%Z with (a - b)%Z by lia.
    apply Qnot_le_lt. intros H. apply Qle_bool_iff in H. congruence.
Qed.

Lemma ilog2_le (x y : Q) : 0 < x -> x <= y -> (Js.ilog2 x <= Js.ilog2 y)%Z.
Proof.
  intros Hx Hxy.
  destruct (ilog2_spec x Hx) as [H1 _].
  destruct (ilog2_spec y (Qlt_le_trans _ _ _ Hx Hxy)) as [_ H2].
  assert (H : Js.two_power (Js.ilog2 x) < Js.two_power (Js.ilog2 y + 1)) by lra.
  apply two_power_lt_inv in H. lia.
Qed.

Lemma ilog2_below (x : Q) (k : Z) :
  0 < x -> x < Js.two_power k -> (Js.ilog2 x < k)%Z.
Proof.
  intros Hx H. destruct (ilog2_spec x Hx) as [H1 _].
  apply two_power_lt_inv. lra.
Qed.

Lemma ilog2_above (x : Q) (k : Z) :
  Js.two_power k <= x -> (k <= Js.ilog2 x)%Z.
Proof.
  intros H. pose proof (two_power_positive k) as Hk.
  destruct (ilog2_spec x) as [_ H2]; [lra|].
  assert (H3 : Js.two_power k < Js.two_power (Js.ilog2 x + 1)) by lra.
  apply two_power_lt_inv in H3. lia.
Qed.

(** *** Rounding to an integer *)
Lemma round_half_even_bounds (x : Q) :
  (Qfloor x <= Js.round_half_even x <= Qfloor x + 1)%Z.
Proof.
  unfold Js.round_half_even.
  destruct (x - inject_Z (Qfloor x) ?= 1 # 2); [destruct (Z.even _)| |]; lia.
Qed.

Lemma round_half_even_integer (x : Q) (n : Z) :
  x == inject_Z n -> Js.round_half_even x = n.
Proof.
  intros H. unfold Js.round_half_even.
  assert (Hf : Qfloor x = n) by (rewrite H; apply Qfloor_Z).
  rewrite Hf.
  assert (Hlt : x - inject_Z n < 1 # 2) by (rewrite H; lra).
  now rewrite (proj1 (Qlt_alt _ _) Hlt).
Qed.

Lemma round_half_even_monotone (x y : Q) :
  x <= y -> (Js.round_half_even x <= Js.round_half_even y)%Z.
Proof.
  intros Hxy.
  pose proof (Qfloor_resp_le x y Hxy) as Hf.
  pose proof (round_half_even_bounds x) as Bx.
  pose proof (round_half_even_bounds y) as By.
  destruct (Z.eq_dec (Qfloor x) (Qfloor y)) as [E | N]; [|lia].
  unfold Js.round_half_even in *. rewrite <- E in *.
  destruct (Qcompare_spec (x - inject_Z (Qfloor x)) (1 # 2)) as [Cx | Cx | Cx];
    destruct (Qcompare_spec (y - inject_Z (Qfloor x)) (1 # 2)) as [Cy | Cy | Cy];
    try destruct (Z.even (Qfloor x)); try lia; exfalso; lra.
Qed.

(** *** Rounding to the precision of a double *)
Lemma nearest_eq (x : Q) :
  Js.nearest x
  == inject_Z (Js.round_half_even (x / Js.two_power (Js.ulp_exponent x)))
     * Js.two_power (Js.ulp_exponent x).
Proof. unfold Js.nearest. apply Qred_correct. Qed.

Lemma ulp_exponent_min (x : Q) : (-1074 <= Js.ulp_exponent x)%Z.
Proof. unfold Js.ulp_exponent. lia. Qed.

Lemma grid_point (n k e : Z) :
  (e <= k)%Z ->
  inject_Z n * Js.two_power k / Js.two_power e == inject_Z (n * 2 ^ (k - e)).
Proof.
  intros H. pose proof (two_power_positive e) as He.
  replace k with ((k - e) + e)%Z at 1 by lia.
  rewrite two_power_add, two_power_of_Z by lia.
  rewrite inject_Z_mult. field. lra.
Qed.

Lemma nearest_le_grid (x : Q) (n k : Z) :
  (Js.ulp_exponent x <= k)%Z ->
  x <= inject_Z n * Js.two_power k ->
  Js.nearest x <= inject_Z n * Js.two_power k.
Proof.
  intros He Hx. rewrite nearest_eq.
  set (e := Js.ulp_exponent x) in *.
  pose proof (two_power_positive e) as Hu.
  assert (Hq : x / Js.two_power e <= inject_Z n * Js.two_power k / Js.two_power e).
  { apply Qmult_le_compat_r; [exact Hx|]. apply Qlt_le_weak, Qinv_lt_0_compat, Hu. }
  apply round_half_even_monotone in Hq.
  rewrite (round_half_even_integer _ _ (grid_point n k e He)) in Hq.
  apply Qle_trans with (inject_Z (n * 2 ^ (k - e)) * Js.two_power e).
  - apply Qmult_le_compat_r; [now rewrite <- Zle_Qle | lra].
  - rewrite <- (grid_point n k e He). apply Qle_lteq. right. field. lra.
Qed.

Lemma nearest_ge_grid (x : Q) (n k : Z) :
  (Js.ulp_exponent x <= k)%Z ->
  inject_Z n * Js.two_power k <= x ->
  inject_Z n * Js.two_power k <= Js.nearest x.
Proof.
  intros He Hx. rewrite nearest_eq.
  set (e := Js.ulp_exponent x) in *.
  pose proof (two_power_positive e) as Hu.
  assert (Hq : inject_Z n * Js.two_power k / Js.two_power e <= x / Js.two_power e).
  { apply Qmult_le_compat_r; [exact Hx|]. apply Qlt_le_weak, Qinv_lt_0_compat, Hu. }
  apply round_half_even_monotone in Hq.
  rewrite (round_half_even_integer _ _ (grid_point n k e He)) in Hq.
  apply Qle_trans with (inject_Z (n * 2 ^ (k - e)) * Js.two_power e).
  - rewrite <- (grid_point n k e He). apply Qle_lteq. right. field. lra.
  - apply Qmult_le_compat_r; [now rewrite <- Zle_Qle | lra].
Qed.

Lemma nearest_nonneg (x : Q) : 0 <= x -> 0 <= Js.nearest x.
Proof.
  intros H.
  pose proof (nearest_ge_grid x 0 (Js.ulp_exponent x) (Z.le_refl _)) as G.
  assert (E : inject_Z 0 * Js.two_power (Js.ulp_exponent x) == 0) by ring.
  rewrite E in G. now apply G.
Qed.

Lemma nearest_nonpos (x : Q) : x <= 0 -> Js.nearest x <= 0.
Proof.
  intros H.
  pose proof (nearest_le_grid x 0 (Js.ulp_exponent x) (Z.le_refl _)) as G.
  assert (E : inject_Z 0 * Js.two_power (Js.ulp_exponent x) == 0) by ring.
  rewrite E in G. now apply G.
Qed.

Lemma abs_ilog2_spec (x : Q) :
  ~ x == 0 ->
  Js.two_power (Js.ilog2 (Qabs x)) <= Qabs x
  < Js.two_power (Js.ilog2 (Qabs x) + 1).
Proof.
  intros H. apply ilog2_spec.
  destruct (Qlt_le_dec 0 (Qabs x)) as [H1 | H1]; [exact H1|].
  exfalso. apply H. pose proof (Qabs_nonneg x) as H2.
  destruct (proj1 (Qabs_Qle_condition x 0) H1) as [H3 H4].
  lra.
Qed.

Lemma nearest_monotone (x y : Q) : x <= y -> Js.nearest x <= Js.nearest y.
Proof.
  intros Hxy.
  destruct (Qlt_le_dec 0 x) as [Hx | Hx].
  - (* both positive *)
    assert (Hy : 0 < y) by lra.
    assert (Nx : ~ x == 0) by lra. assert (Ny : ~ y == 0) by lra.
    pose proof (abs_ilog2_spec x Nx) as [X1 X2].
    pose proof (abs_ilog2_spec y Ny) as [Y1 Y2].
    pose proof (Qabs_pos x (Qlt_le_weak _ _ Hx)) as Ax.
    pose proof (Qabs_pos y (Qlt_le_weak _ _ Hy)) as Ay.
    assert (L : Js.two_power (Js.ilog2 (Qabs x)) < Js.two_power (Js.ilog2 (Qabs y) + 1)) by lra.
    apply two_power_lt_inv in L.
    destruct (Z.eq_dec (Js.ulp_exponent x) (Js.ulp_exponent y)) as [E | N].
    + rewrite !nearest_eq, E.
      pose proof (two_power_positive (Js.ulp_exponent y)) as Hu.
      apply Qmult_le_compat_r; [|lra]. rewrite <- Zle_Qle.
      apply round_half_even_monotone, Qmult_le_compat_r; [exact Hxy|].
      apply Qlt_le_weak, Qinv_lt_0_compat, Hu.
    + unfold Js.ulp_exponent in N.
      set (lx := Js.ilog2 (Qabs x)) in *. set (ly := Js.ilog2 (Qabs y)) in *.
      assert (C : Js.two_power (lx + 1) <= Js.two_power ly)
        by (apply two_power_le; lia).
      apply Qle_trans with (inject_Z 1 * Js.two_power ly).
      * apply nearest_le_grid; [unfold Js.ulp_exponent; fold lx; lia|].
        change (inject_Z 1) with 1. lra.
      * apply nearest_ge_grid; [unfold Js.ulp_exponent; fold ly; lia|].
        change (inject_Z 1) with 1. lra.
  - destruct (Qlt_le_dec y 0) as [Hy | Hy].
    + (* both negative *)
      assert (Nx : ~ x == 0) by lra. assert (Ny : ~ y == 0) by lra.
      pose proof (abs_ilog2_spec x Nx) as [X1 X2].
      pose proof (abs_ilog2_spec y Ny) as [Y1 Y2].
      pose proof (Qabs_neg x Hx) as Ax.
      pose proof (Qabs_neg y (Qlt_le_weak _ _ Hy)) as Ay.
      assert (L : Js.two_power (Js.ilog2 (Qabs y)) < Js.two_power (Js.ilog2 (Qabs x) + 1)) by lra.
      apply two_power_lt_inv in L.
      destruct (Z.eq_dec (Js.ulp_exponent x) (Js.ulp_exponent y)) as [E | N].
      * rewrite !nearest_eq, E.
        pose proof (two_power_positive (Js.ulp_exponent y)) as Hu.
        apply Qmult_le_compat_r; [|lra]. rewrite <- Zle_Qle.
        apply round_half_even_monotone, Qmult_le_compat_r; [exact Hxy|].
        apply Qlt_le_weak, Qinv_lt_0_compat, Hu.
      * unfold Js.ulp_exponent in N.
        set (lx := Js.ilog2 (Qabs x)) in *. set (ly := Js.ilog2 (Qabs y)) in *.
        assert (C : Js.two_power (ly + 1) <= Js.two_power lx)
          by (apply two_power_le; lia).
        apply Qle_trans with (inject_Z (-1) * Js.two_power lx).
        -- apply nearest_le_grid; [unfold Js.ulp_exponent; fold lx; lia|].
           change (inject_Z (-1)) with (-1). lra.
        -- apply nearest_ge_grid; [unfold Js.ulp_exponent; fold ly; lia|].
           change (inject_Z (-1)) with (-1). lra.
    + apply Qle_trans with 0; [now apply nearest_nonpos | now apply nearest_nonneg].
Qed.

Lemma Qabs_nonneg_eq (x : Q) : 0 <= x -> Qabs x = x.
Proof.
  destruct x as [n d]. unfold Qle. simpl. intros H.
  f_equal. apply Z.abs_eq. lia.
Qed.

Lemma Qabs_opp_eq (x : Q) : Qabs (- x) = Qabs x.
Proof. destruct x as [n d]. simpl. now rewrite Z.abs_opp. Qed.

Lemma nearest_two_power (k : Z) :
  (-1074 <= k)%Z -> Js.nearest (Js.two_power k) == Js.two_power k.
Proof.
  intros Hk. pose proof (two_power_positive k) as Hp.
  assert (He : (Js.ulp_exponent (Js.two_power k) <= k)%Z).
  { unfold Js.ulp_exponent. rewrite Qabs_nonneg_eq by lra.
    assert (Js.ilog2 (Js.two_power k) < k + 1)%Z; [|lia].
    apply ilog2_below; [exact Hp | apply two_power_lt; lia]. }
  apply Qle_antisym.
  - setoid_replace (Js.two_power k) with (inject_Z 1 * Js.two_power k) at 2
      by (change (inject_Z 1) with 1; ring).
    apply nearest_le_grid; [exact He|]. change (inject_Z 1) with 1. lra.
  - setoid_replace (Js.two_power k) with (inject_Z 1 * Js.two_power k) at 1
      by (change (inject_Z 1) with 1; ring).
    apply nearest_ge_grid; [exact He|]. change (inject_Z 1) with 1. lra.
Qed.

Lemma nearest_opp_two_power (k : Z) :
  (-1074 <= k)%Z -> Js.nearest (- Js.two_power k) == - Js.two_power k.
Proof.
  intros Hk. pose proof (two_power_positive k) as Hp.
  assert (He : (Js.ulp_exponent (- Js.two_power k) <= k)%Z).
  { unfold Js.ulp_exponent. rewrite Qabs_opp_eq, Qabs_nonneg_eq by lra.
    assert (Js.ilog2 (Js.two_power k) < k + 1)%Z; [|lia].
    apply ilog2_below; [exact Hp | apply two_power_lt; lia]. }
  apply Qle_antisym.
  - setoid_replace (- Js.two_power k) with (inject_Z (-1) * Js.two_power k) at 2
      by (change (inject_Z (-1)) with (-1); ring).
    apply nearest_le_grid; [exact He|]. change (inject_Z (-1)) with (-1). lra.
  - setoid_replace (- Js.two_power k) with (inject_Z (-1) * Js.two_power k) at 1
      by (change (inject_Z (-1)) with (-1); ring).
    apply nearest_ge_grid; [exact He|]. change (inject_Z (-1)) with (-1). lra.
Qed.

(** A number with at most 53 significant bits and no bit below
    [2^-1074] is not changed. *)
Lemma nearest_exact (n e : Z) :
  (-1074 <= e)%Z -> (Z.abs n < 2 ^ 53)%Z ->
  Js.nearest (inject_Z n * Js.two_power e) == inject_Z n * Js.two_power e.
Proof.
  intros He Hn. pose proof (two_power_positive e) as Hp.
  destruct (Z.eq_dec n 0) as [-> | Hn0].
  - assert (Z : inject_Z 0 * Js.two_power e == 0) by ring.
    rewrite Z at 2.
    apply Qle_antisym; [apply nearest_nonpos | apply nearest_nonneg];
      rewrite Z; apply Qle_refl.
  - assert (Hu : (Js.ulp_exponent (inject_Z n * Js.two_power e) <= e)%Z).
    { unfold Js.ulp_exponent.
      assert (Js.ilog2 (Qabs (inject_Z n * Js.two_power e)) < 53 + e)%Z;
        [|lia].
      assert (A : Qabs (inject_Z n * Js.two_power e)
                  == inject_Z (Z.abs n) * Js.two_power e).
      { rewrite Qabs_Qmult, (Qabs_pos (Js.two_power e)) by lra. reflexivity. }
      apply ilog2_below; rewrite A.
      - apply Qmult_lt_0_compat; [|exact Hp].
        change 0 with (inject_Z 0). rewrite <- Zlt_Qlt. lia.
      - rewrite two_power_add, (two_power_of_Z 53) by lia.
        apply Qmult_lt_compat_r; [exact Hp|]. now rewrite <- Zlt_Qlt. }
    apply Qle_antisym;
      [apply nearest_le_grid | apply nearest_ge_grid]; auto; lra.
Qed.

(** *** The range of the finite doubles *)
Lemma MIN_VALUE_positive : 0 < Js.MIN_VALUE.
Proof. apply two_power_positive. Qed.

Lemma MIN_VALUE_le_MAX_VALUE : Js.MIN_VALUE <= Js.MAX_VALUE.
Proof. apply Qle_bool_iff. vm_compute. reflexivity. Qed.

Lemma MAX_VALUE_below_overflow : Js.MAX_VALUE <= Js.overflow.
Proof. apply Qle_bool_iff. vm_compute. reflexivity. Qed.



Lemma in_range_monotone (x y : Q) :
  x <= y -> Js.in_range x <= Js.in_range y.
Proof.
  intros H. pose proof MIN_VALUE_positive. pose proof MIN_VALUE_le_MAX_VALUE.
  unfold Js.in_range, Js.sgn.
  destruct (Qcompare_spec x 0), (Qcompare_spec y 0); by_cases_on_bounds; lra.
Qed.

Lemma in_range_positive (q : Q) :
  0 < q -> Js.MIN_VALUE <= Js.in_range q <= Js.MAX_VALUE.
Proof.
  intros H. pose proof MIN_VALUE_positive. pose proof MIN_VALUE_le_MAX_VALUE.
  unfold Js.in_range, Js.sgn.
  destruct (Qcompare_spec q 0); by_cases_on_bounds; lra.
Qed.

Lemma in_range_negative (q : Q) :
  q < 0 -> - Js.MAX_VALUE <= Js.in_range q <= - Js.MIN_VALUE.
Proof.
  intros H. pose proof MIN_VALUE_positive. pose proof MIN_VALUE_le_MAX_VALUE.
  unfold Js.in_range, Js.sgn.
  destruct (Qcompare_spec q 0); by_cases_on_bounds; lra.
Qed.

Lemma in_range_zero (q : Q) : q == 0 -> Js.in_range q = q.
Proof.
  intros H. unfold Js.in_range, Js.sgn.
  now rewrite (proj1 (Qeq_alt _ _) H).
Qed.

(** *** The double an operand stands for *)
Lemma double_monotone (x y : Q) : x <= y -> Js.double x <= Js.double y.
Proof. intros H. now apply nearest_monotone, in_range_monotone. Qed.

Lemma double_positive (q : Q) : 0 < q -> Js.MIN_VALUE <= Js.double q.
Proof.
  intros H. unfold Js.double.
  rewrite <- (nearest_two_power (-1074)) by lia.
  apply nearest_monotone, in_range_positive, H.
Qed.

Lemma double_negative (q : Q) : q < 0 -> Js.double q <= - Js.MIN_VALUE.
Proof.
  intros H. unfold Js.double.
  rewrite <- (nearest_opp_two_power (-1074)) by lia.
  apply nearest_monotone, in_range_negative, H.
Qed.

Lemma double_zero (q : Q) : q == 0 -> Js.double q == 0.
Proof.
  intros H. unfold Js.double. rewrite in_range_zero by exact H.
  apply Qle_antisym; [apply nearest_nonpos | apply nearest_nonneg]; lra.
Qed.

Lemma double_below_overflow (q : Q) : Js.double q <= Js.overflow.
Proof.
  unfold Js.double, Js.overflow.
  rewrite <- (nearest_two_power 1024) by lia.
  apply nearest_monotone.
  pose proof MAX_VALUE_below_overflow. pose proof MIN_VALUE_positive.
  pose proof MIN_VALUE_le_MAX_VALUE. unfold Js.overflow in *.
  destruct (Qlt_le_dec 0 q) as [P | P].
  - destruct (in_range_positive q P). lra.
  - apply Qle_lteq in P. destruct P as [P | P].
    + destruct (in_range_negative q P). lra.
    + rewrite in_range_zero by exact P. lra.
Qed.

(** An operand that is a double stands for itself. *)
Lemma double_exact (n e : Z) :
  (-1074 <= e <= 971)%Z -> (Z.abs n < 2 ^ 53)%Z ->
  Js.double (inject_Z n * Js.two_power e) == inject_Z n * Js.two_power e.
Proof.
  intros He Hn. set (x := inject_Z n * Js.two_power e).
  assert (R : Js.in_range x == x).
  { pose proof (two_power_positive e) as Hp.
    pose proof (two_power_le (-1074) e ltac:(lia)) as Lo.
    pose proof (two_power_le e 971 ltac:(lia)) as Hi.
    pose proof (two_power_positive 971) as Hp'.
    assert (A : inject_Z (Z.abs n) <= inject_Z (2 ^ 53 - 1))
      by (rewrite <- Zle_Qle; lia).
    assert (B : - inject_Z (2 ^ 53 - 1) * Js.two_power 971 <= x
                <= inject_Z (2 ^ 53 - 1) * Js.two_power 971).
    { unfold x. destruct (Z.abs_spec n) as [[P E] | [P E]]; rewrite E in A.
      - assert (0 <= inject_Z n) by (change 0 with (inject_Z 0);
                                     rewrite <- Zle_Qle; lia).
        split; nra.
      - rewrite inject_Z_opp in A.
        assert (inject_Z n < 0) by (change 0 with (inject_Z 0);
                                    rewrite <- Zlt_Qlt; lia).
        split; nra. }
    unfold Js.in_range, Js.sgn, Js.MIN_VALUE, Js.MAX_VALUE.
    destruct (Qcompare_spec x 0) as [E | L | G]; [reflexivity| |].
    - assert (N : inject_Z n <= -1).
      { change (-1) with (inject_Z (-1)). rewrite <- Zle_Qle.
        assert (inject_Z n < 0) by (unfold x in L; nra).
        change 0 with (inject_Z 0) in H. rewrite <- Zlt_Qlt in H. lia. }
      by_cases_on_bounds; try reflexivity; unfold x in *; nra.
    - assert (N : 1 <= inject_Z n).
      { change 1 with (inject_Z 1). rewrite <- Zle_Qle.
        assert (0 < inject_Z n) by (unfold x in G; nra).
        change 0 with (inject_Z 0) in H. rewrite <- Zlt_Qlt in H. lia. }
      by_cases_on_bounds; try reflexivity; unfold x in *; nra. }
  unfold Js.double.
  apply Qeq_trans with (Js.nearest x); [|apply nearest_exact; lia].
  apply Qle_antisym; apply nearest_monotone; rewrite R; apply Qle_refl.
Qed.

Lemma negative_double (q : Q) : Js.negative (Js.double q) = Js.negative q.
Proof.
  pose proof MIN_VALUE_positive. unfold Js.negative, Js.sgn.
  destruct (Qcompare_spec q 0) as [E | L | G].
  - apply double_zero in E. now rewrite (proj1 (Qeq_alt _ _) E).
  - apply double_negative in L.
    assert (C : Js.double q < 0) by lra. now rewrite (proj1 (Qlt_alt _ _) C).
  - apply double_positive in G.
    assert (C : 0 < Js.double q) by lra. now rewrite (proj1 (Qgt_alt _ _) C).
Qed.

(** *** Rounded results *)
Lemma overflow_positive : 0 < Js.overflow.
Proof. apply two_power_positive. Qed.

Lemma round64_monotone (x y : Q) :
  x <= y -> Js.le (Js.round64 x) (Js.round64 y) = true.
Proof.
  intros H. apply nearest_monotone in H. pose proof overflow_positive.
  unfold Js.round64. by_cases_on_bounds; cbn [Js.le Js.lt];
    try reflexivity; try (exfalso; lra).
  destruct (Qcompare_spec (Js.nearest x) (Js.nearest y)); try reflexivity.
  exfalso; lra.
Qed.

Lemma nearest_zero (x : Q) : x == 0 -> Js.nearest x = 0.
Proof.
  intros H. unfold Js.nearest. change 0 with (Qred 0). apply Qred_complete.
  rewrite <- nearest_eq.
  apply Qle_antisym; [apply nearest_nonpos | apply nearest_nonneg]; lra.
Qed.

Lemma round64_zero (x : Q) : x == 0 -> Js.round64 x = JFin 0.
Proof. intros H. unfold Js.round64. now rewrite (nearest_zero x H). Qed.

Lemma round64_cases (x : Q) :
  Js.round64 x = JPosInf \/ Js.round64 x = JNegInf
  \/ Js.round64 x = JFin (Js.nearest x).
Proof. unfold Js.round64. by_cases_on_bounds; auto. Qed.

Lemma nearest_canonical (x : Q) : Js.nearest x == 0 -> Js.nearest x = 0.
Proof.
  intros H. unfold Js.nearest in *. change 0 with (Qred 0).
  apply Qred_complete. now rewrite Qred_correct in H.
Qed.

Lemma to_jsnum_rounded (x : Q) : Js.to_jsnum (Js.rounded x) = Js.round64 x.
Proof.
  unfold Js.rounded.
  destruct (round64_cases x) as [E | [E | E]]; rewrite E; try reflexivity.
  destruct (Qeq_bool (Js.nearest x) 0) eqn:Z; [|reflexivity].
  apply Qeq_bool_iff, nearest_canonical in Z. rewrite Z.
  unfold Js.zero. now destruct (Js.negative x).
Qed.

Lemma Js_le_of_Z (a b : Z) :
  Js.le (Js.of_Z a) (Js.of_Z b) = true <-> (a <= b)%Z.
Proof.
  unfold Js.le, Js.of_Z, Qcompare; simpl. rewrite !Z.mul_1_r.
  unfold Z.le. destruct (a ?= b)%Z; split; intros; congruence.
Qed.

Lemma floor_monotone (x y : jsnum) :
  Js.le x y = true -> Js.le (Js.floor x) (Js.floor y) = true.
Proof.
  destruct x as [| | |p], y as [| | |q]; simpl; try easy.
  intros H. apply Js_le_of_Z, Qfloor_resp_le.
  destruct (Qcompare_spec p q); try discriminate; lra.
Qed.

(** *** Division *)
Lemma sgn_nonzero (q : Q) : ~ q == 0 -> Js.sgn q <> Eq.
Proof. intros H E. apply H. now apply Qeq_alt. Qed.

Lemma operand_of_nonzero (q : Q) :
  ~ q == 0 -> Js.operand_of (Js.Num (JFin q)) = Js.OFinite (Js.double q).
Proof.
  intros H. apply sgn_nonzero in H. unfold Js.operand_of.
  now destruct (Js.sgn q).
Qed.

Lemma operand_of_zero (q : Q) :
  q == 0 -> Js.operand_of (Js.Num (JFin q)) = Js.OZero false.
Proof.
  intros H. unfold Js.operand_of, Js.sgn. now rewrite (proj1 (Qeq_alt _ _) H).
Qed.

Lemma to_jsnum_zero (s : bool) : Js.to_jsnum (Js.zero s) = JFin 0.
Proof. now destruct s. Qed.

Lemma to_jsnum_divide_finite (p q : Q) :
  ~ q == 0 ->
  Js.to_jsnum (Js.divide (Js.Num (JFin p)) (Js.Num (JFin q)))
  = Js.round64 (Js.double p / Js.double q).
Proof.
  intros Hq. unfold Js.divide. rewrite (operand_of_nonzero q Hq).
  destruct (Qeq_dec p 0) as [Hp | Hp].
  - rewrite (operand_of_zero p Hp), to_jsnum_zero.
    symmetry. apply round64_zero. rewrite (double_zero p Hp).
    unfold Qdiv. ring.
  - rewrite (operand_of_nonzero p Hp). apply to_jsnum_rounded.
Qed.

Lemma to_jsnum_divide_by_infinity (p : Q) :
  Js.to_jsnum (Js.divide (Js.Num (JFin p)) (Js.Num JPosInf)) = JFin 0.
Proof.
  unfold Js.divide, Js.operand_of.
  destruct (Js.sgn p); apply to_jsnum_zero.
Qed.


Lemma positive_nonzero (i : Q) : 0 < i -> ~ i == 0.
Proof. intros H E. rewrite E in H. discriminate. Qed.

Lemma quotient_le_numerator (m1 m2 d : Q) :
  0 < d -> m1 <= m2 -> m1 / d <= m2 / d.
Proof.
  intros Hd H. unfold Qdiv. apply Qmult_le_compat_r; [exact H|].
  apply Qinv_le_0_compat, Qlt_le_weak, Hd.
Qed.


Lemma zero_quotient (d : Q) : 0 / d == 0.
Proof. unfold Qdiv. ring. Qed.





Lemma double_nonnegative (q : Q) : 0 <= q -> 0 <= Js.double q.
Proof.
  intros H. rewrite <- (double_zero 0) by reflexivity. now apply double_monotone.
Qed.


Lemma double_strictly_positive (q : Q) : 0 < q -> 0 < Js.double q.
Proof.
  intros H. apply double_positive in H. pose proof MIN_VALUE_positive. lra.
Qed.

(** A positive divisor: what [m / d] is for every finite [m]. *)
Lemma positive_divisor (n : Js.number) :
  Js.lt (JFin 0) (Js.to_jsnum n) = true ->
  n = Js.Num JPosInf \/ exists d, n = Js.Num (JFin d) /\ 0 < d.
Proof.
  destruct n as [[| | |d]|]; simpl; try easy; auto.
  destruct (Qcompare_spec 0 d); try easy. intros _. right. now exists d.
Qed.

Lemma budget_monotone (n : Js.number) (m1 m2 : Q) :
  Js.lt (JFin 0) (Js.to_jsnum n) = true -> m1 <= m2 ->
  Js.le (Js.floor (Js.to_jsnum (Js.divide (Js.Num (JFin m1)) n)))
        (Js.floor (Js.to_jsnum (Js.divide (Js.Num (JFin m2)) n))) = true.
Proof.
  intros Hn Hm. destruct (positive_divisor n Hn) as [-> | (d & -> & Hd)].
  - now rewrite !to_jsnum_divide_by_infinity.
  - rewrite !to_jsnum_divide_finite by now apply positive_nonzero.
    apply floor_monotone, round64_monotone, quotient_le_numerator.
    + now apply double_strictly_positive.
    + now apply double_monotone.
Qed.



Lemma rounded_nonnegative (x : Q) :
  0 <= x -> Js.rounded x = Js.Num (Js.round64 x).
Proof.
  intros H. unfold Js.rounded.
  destruct (round64_cases x) as [E | [E | E]]; rewrite E; try reflexivity.
  destruct (Qeq_bool (Js.nearest x) 0) eqn:Z; [|reflexivity].
  apply Qeq_bool_iff, nearest_canonical in Z. rewrite Z.
  unfold Js.negative, Js.sgn.
  destruct (Qcompare_spec x 0); try reflexivity. exfalso; lra.
Qed.

Lemma double_1000 : Js.double 1000 = 1000.
Proof. vm_compute. reflexivity. Qed.

(** The interval in seconds of a positive interval in milliseconds. *)
Lemma divide_by_1000 (i : Q) :
  0 < i ->
  Js.divide (Js.Num (JFin i)) (Js.Num (JFin 1000))
  = Js.Num (Js.round64 (Js.double i / 1000)).
Proof.
  intros H. unfold Js.divide.
  rewrite (operand_of_nonzero i) by now apply positive_nonzero.
  rewrite (operand_of_nonzero 1000) by discriminate.
  rewrite double_1000. apply rounded_nonnegative.
  rewrite <- (zero_quotient 1000).
  apply quotient_le_numerator; [reflexivity|].
  apply double_nonnegative. lra.
Qed.




(** The interval in seconds of a positive interval is finite. *)
Lemma seconds_finite (i : Q) :
  0 < i -> exists y, Js.round64 (Js.double i / 1000) = JFin y /\ 0 <= y.
Proof.
  intros Hi. exists (Js.nearest (Js.double i / 1000)).
  assert (P : 0 <= Js.double i / 1000).
  { rewrite <- (zero_quotient 1000).
    apply quotient_le_numerator; [reflexivity|].
    apply double_nonnegative. lra. }
  assert (B : Js.double i / 1000 <= Js.two_power 1015).
  { apply Qle_trans with (Js.overflow / 1000).
    - apply quotient_le_numerator; [reflexivity | apply double_below_overflow].
    - apply Qle_bool_iff. vm_compute. reflexivity. }
  apply nearest_monotone in B. rewrite nearest_two_power in B by lia.
  pose proof (nearest_nonneg _ P) as N.
  assert (L : Js.two_power 1015 < Js.overflow) by (apply two_power_lt; lia).
  pose proof overflow_positive.
  split; [|exact N].
  unfold Js.round64. by_cases_on_bounds; try reflexivity; exfalso; lra.
Qed.

(** The count is never a fraction. *)
Lemma calculateIterations_integral (x y : jsnum) :
  calculateIterations x y = JNaN \/ calculateIterations x y = JPosInf
  \/ calculateIterations x y = JNegInf
  \/ exists n : Z, calculateIterations x y = Js.of_Z n.
Proof.
  unfold calculateIterations.
  destruct (Js.to_jsnum _) as [| | |q]; simpl; auto.
  right. right. right. now exists (Qfloor q).
Qed.

(** A result of magnitude [MIN_VALUE] or more does not round to zero. *)
Lemma round64_truthy (x : Q) :
  Js.MIN_VALUE <= x \/ x <= - Js.MIN_VALUE ->
  Js.truthy (Js.round64 x) = true.
Proof.
  intros H. pose proof MIN_VALUE_positive as P. unfold Js.MIN_VALUE in *.
  assert (N : ~ Js.nearest x == 0).
  { destruct H as [H | H]; apply nearest_monotone in H.
    - rewrite nearest_two_power in H by lia. lra.
    - rewrite nearest_opp_two_power in H by lia. lra. }
  unfold Js.round64. by_cases_on_bounds; try reflexivity.
  simpl. apply negb_true_iff, not_true_is_false.
  intros Z. now apply Qeq_bool_iff in Z.
Qed.




End RetryBudget.

(* ------------------------------------------------------------------ *)
(** ** The numeric inputs of [run] *)

Lemma truthy_false_iff (x : jsnum) :
  Js.truthy x = false <-> x = JNaN \/ exists q, x = JFin q /\ (q == 0)%Q.
Proof.
  destruct x as [| | |q]; simpl.
  - split; auto.
  - split; [discriminate | intros [H|(q & H & _)]; discriminate].
  - split; [discriminate | intros [H|(q & H & _)]; discriminate].
  - rewrite negb_false_iff, Qeq_bool_iff. split.
    + intros H. right. exists q. auto.
    + intros [H|(q' & H & Hq)]; [discriminate|]. now injection H as ->.
Qed.

Lemma truthy_times_1000 (x : jsnum) :
  Js.truthy x = true -> Js.truthy (Js.mul x (JFin 1000)) = true.
Proof.
  destruct x as [| | |q]; [discriminate | reflexivity | reflexivity |].
  intros H. apply negb_true_iff, Qeq_bool_neq in H.
  change (Js.mul (JFin q) (JFin 1000))
    with (Js.round64 (Js.double q * Js.double 1000)%Q).
  rewrite double_1000. apply round64_truthy.
  pose proof MIN_VALUE_positive as P.
  destruct (Qlt_le_dec 0 q) as [G | L].
  - left. apply double_positive in G. nra.
  - right. assert (N : (q < 0)%Q) by (apply Qle_lteq in L; tauto).
    apply double_negative in N. nra.
Qed.

Lemma or_else_truthy (x d : jsnum) :
  Js.truthy d = true -> Js.truthy (Js.or_else x d) = true.
Proof.
  intros Hd. unfold Js.or_else. destruct (Js.truthy x) eqn:E; assumption.
Qed.

(** C10, as stated, fails: a negative [max_timeout] is truthy and is
    passed on as it is, so the budget of the pollers is not always
    positive.  With [max_timeout = -5] and [check_interval = 2] the
    iteration count is [-3]; the resolution poller makes no request and
    [run] fails at once. *)
Lemma negative_max_timeout_is_kept :
  MAX_TIMEOUT (ex_inputs (JFin (-5)) (JFin 2)) = JFin (-5)
  /\ Js.lt (JFin 0) (MAX_TIMEOUT (ex_inputs (JFin (-5)) (JFin 2))) = false
  /\ calculateIterations (MAX_TIMEOUT (ex_inputs (JFin (-5)) (JFin 2)))
                         (CHECK_INTERVAL_IN_MS (ex_inputs (JFin (-5)) (JFin 2)))
     = JFin (-3)
  /\ run (ex_inputs (JFin (-5)) (JFin 2)) (ex_push "abc123") ex_api_idle 1
     = Some ([SetFailed "no vercel deployment found, exiting..."], inl []).
Proof. repeat split. Qed.

(** C10, amended.  A [max_timeout] that parses to 0 or is not a number is
    replaced by 720, and such a [check_interval] by 2 (an interval of
    2000 ms); every other value, also a negative or an infinite one, is
    passed on unchanged ([check_interval] times 1000).  So neither value
    that reaches the two pollers is 0 or [NaN]. *)
Theorem numeric_inputs_defaults (inputs : Inputs) (sha : string)
    (u : option string) :
  (forall x, Js.truthy x = false
             <-> x = JNaN \/ exists q, x = JFin q /\ (q == 0)%Q)
  /\ (Js.truthy (in_max_timeout inputs) = false ->
      MAX_TIMEOUT inputs = JFin 720)
  /\ (Js.truthy (in_check_interval inputs) = false ->
      CHECK_INTERVAL_IN_MS inputs = JFin 2000)
  /\ (Js.truthy (in_max_timeout inputs) = true ->
      MAX_TIMEOUT inputs = in_max_timeout inputs)
  /\ (Js.truthy (in_check_interval inputs) = true ->
      CHECK_INTERVAL_IN_MS inputs
      = Js.mul (in_check_interval inputs) (JFin 1000))
  /\ Js.truthy (MAX_TIMEOUT inputs) = true
  /\ Js.truthy (CHECK_INTERVAL_IN_MS inputs) = true
  /\ maxTimeout_of (resolution_args inputs sha) = MAX_TIMEOUT inputs
  /\ interval_of (resolution_args inputs sha) = CHECK_INTERVAL_IN_MS inputs
  /\ wfu_maxTimeout (health_poll_args inputs u) = MAX_TIMEOUT inputs
  /\ wfu_checkIntervalInMilliseconds (health_poll_args inputs u)
     = CHECK_INTERVAL_IN_MS inputs.
Proof.
  split; [exact truthy_false_iff|].
  unfold MAX_TIMEOUT, CHECK_INTERVAL_IN_MS, Js.or_else.
  split; [intros ->; reflexivity|].
  split; [intros ->; reflexivity|].
  split; [intros ->; reflexivity|].
  split; [intros ->; reflexivity|].
  split; [now apply (or_else_truthy _ (JFin 720))|].
  split; [now apply truthy_times_1000, (or_else_truthy _ (JFin 2))|].
  repeat split.
Qed.

Lemma numeric_inputs_defaults_witness :
  MAX_TIMEOUT (ex_inputs JNaN (JFin 0)) = JFin 720
  /\ CHECK_INTERVAL_IN_MS (ex_inputs JNaN (JFin 0)) = JFin 2000
  /\ MAX_TIMEOUT (ex_inputs (JFin 60) (JFin 5)) = JFin 60
  /\ CHECK_INTERVAL_IN_MS (ex_inputs (JFin 60) (JFin 5))
     = Js.mul (JFin 5) (JFin 1000).
Proof.
  destruct (numeric_inputs_defaults (ex_inputs JNaN (JFin 0)) "abc123" None)
    as (_ & H1 & H2 & _).
  destruct (numeric_inputs_defaults (ex_inputs (JFin 60) (JFin 5)) "abc123" None)
    as (_ & _ & _ & H3 & H4 & _).
  split; [apply H1; reflexivity|].
  split; [apply H2; reflexivity|].
  split; [apply H3; reflexivity | apply H4; reflexivity].
Defined.

(* ------------------------------------------------------------------ *)
(** ** Bypass token fetch *)

Lemma getPassword_validateStatus_range (s : Z) :
  getPassword_validateStatus s = true <-> (200 <= s < 307)%Z.
Proof.
  unfold getPassword_validateStatus.
  rewrite andb_true_iff, Z.leb_le, Z.ltb_lt. reflexivity.
Qed.

Lemma find_first {A} (f : A -> bool) (pre : list A) (c : A) (post : list A) :
  (forall c', In c' pre -> f c' = false) -> f c = true ->
  find f (pre ++ c :: post) = Some c.
Proof.
  induction pre as [|a pre IH]; intros Hpre Hc; simpl.
  - now rewrite Hc.
  - rewrite (Hpre a (or_introl eq_refl)). apply IH; auto.
    intros c' Hin. apply Hpre. now right.
Qed.

(** What [getPassword] does with a response whose status axios accepts. *)
Lemma getPassword_accepted (target pw : string) (r : Response) :
  getPassword_validateStatus (status r) = true ->
  getPassword target pw (Responded r)
  = let request := [ConsoleLog (LogText "requesting vercel JWT");
                    HttpPost target [("_vercel_password", pw)]] in
    match set_cookie r with
    | None => (request, inr no_jwt)
    | Some cookies =>
        match find (fun cookie => cookie_name cookie =? "_vercel_jwt")
                   cookies with
        | None => (request, inr no_jwt)
        | Some c =>
            if cookie_value c =? "" then (request, inr no_jwt)
            else (request ++ [ConsoleLog (LogText "received vercel JWT")],
                  inl (cookie_value c))
        end
    end.
Proof.
  intros Hs. unfold getPassword, bind, emit, lift, axios. rewrite Hs. simpl.
  destruct (set_cookie r) as [cookies|]; [|reflexivity].
  destruct (find _ cookies) as [c|]; [|reflexivity].
  destruct (cookie_value c =? ""); reflexivity.
Qed.

Lemma getPassword_rejected (target pw : string) (t : Transport) (e : Exn) :
  axios getPassword_validateStatus t = inr e ->
  getPassword target pw t
  = ([ConsoleLog (LogText "requesting vercel JWT");
      HttpPost target [("_vercel_password", pw)]], inr e).
Proof.
  intros H. unfold getPassword, bind, emit, lift. rewrite H. reflexivity.
Qed.

Lemma getPassword_one_request (target pw : string) (t : Transport) :
  count is_post (fst (getPassword target pw t)) = 1%nat.
Proof.
  destruct (axios getPassword_validateStatus t) as [r|e] eqn:E.
  - destruct t as [r'|m|m]; simpl in E; try discriminate.
    destruct (getPassword_validateStatus (status r')) eqn:Hs; [|discriminate].
    rewrite (getPassword_accepted _ _ _ Hs). simpl.
    destruct (set_cookie r') as [cookies|]; [|reflexivity].
    destruct (find _ cookies) as [c|]; [|reflexivity].
    destruct (cookie_value c =? ""); reflexivity.
  - rewrite (getPassword_rejected _ _ _ _ E). reflexivity.
Qed.

(** The first element that satisfies a test splits the list. *)
Lemma find_split {A} (f : A -> bool) (l : list A) (c : A) :
  find f l = Some c ->
  exists pre post,
    l = pre ++ c :: post
    /\ (forall c', In c' pre -> f c' = false) /\ f c = true.
Proof.
  induction l as [|a l IH]; [discriminate|]. simpl.
  destruct (f a) eqn:Ea.
  - intros H. injection H as ->. exists [], l. repeat split; auto.
    intros c' [].
  - intros H. destruct (IH H) as (pre & post & -> & Hpre & Hc).
    exists (a :: pre), post. repeat split; auto.
    intros c' [<-|Hin]; auto.
Qed.

(** A returned value is the value of the first cookie of the name. *)
Lemma getPassword_returns (target pw : string) (t : Transport) (v : string) :
  snd (getPassword target pw t) = inl v ->
  exists r pre c post,
    t = Responded r /\ getPassword_validateStatus (status r) = true
    /\ set_cookie r = Some (pre ++ c :: post)
    /\ (forall c', In c' pre -> cookie_name c' <> "_vercel_jwt")
    /\ cookie_name c = "_vercel_jwt" /\ cookie_value c = v /\ v <> "".
Proof.
  intros H.
  destruct (axios getPassword_validateStatus t) as [r|e] eqn:E.
  - destruct t as [r'|m|m]; simpl in E; try discriminate.
    destruct (getPassword_validateStatus (status r')) eqn:Hs; [|discriminate].
    rewrite (getPassword_accepted _ _ _ Hs) in H. simpl in H.
    destruct (set_cookie r') as [cookies|] eqn:Ec; [|discriminate].
    destruct (find _ cookies) as [c|] eqn:Ef; [|discriminate].
    destruct (cookie_value c =? "") eqn:Ev; [discriminate|].
    simpl in H. injection H as <-.
    destruct (find_split _ _ _ Ef) as (pre & post & -> & Hpre & Hn).
    exists r', pre, c, post. repeat split; auto.
    + intros c' Hin. apply String.eqb_neq. auto.
    + now apply String.eqb_eq.
    + now apply String.eqb_neq.
  - rewrite (getPassword_rejected _ _ _ _ E) in H. discriminate.
Qed.

(** C6, as stated, fails.  The response below is accepted (303) and its
    [Set-Cookie] header contains a [_vercel_jwt] cookie with a non-empty
    value, the second one; [cookies.find] takes the first cookie of that
    name, whose value is empty, and [getPassword] throws. *)
Lemma later_jwt_cookie_is_ignored :
  getPassword_validateStatus (status ex_two_jwt_response) = true
  /\ (exists cookies c,
        set_cookie ex_two_jwt_response = Some cookies /\ In c cookies
        /\ cookie_name c = "_vercel_jwt" /\ cookie_value c <> "")
  /\ snd (getPassword "https://web-preview.vercel.app" "secret"
                      (Responded ex_two_jwt_response)) = inr no_jwt.
Proof.
  split; [reflexivity|]. split; [|reflexivity].
  exists [ {| cookie_name := "_vercel_jwt"; cookie_value := "" |};
           {| cookie_name := "_vercel_jwt"; cookie_value := "abc123" |} ],
         {| cookie_name := "_vercel_jwt"; cookie_value := "abc123" |}.
  repeat split; [right; left; reflexivity | discriminate].
Qed.

(** C6, amended.  [getPassword] lets axios accept exactly the statuses
    in [200, 307).  On an accepted response the first cookie named
    [_vercel_jwt] of the [Set-Cookie] header decides, whatever follows
    it: its value is returned when it is not empty, and [getPassword]
    throws when it is empty.  It throws as well when the header is
    absent or has no cookie of that name; a cookie list is always in one
    of these cases.  A rejected status throws.  In every case exactly
    one request is made, and a returned value is always the non-empty
    value of the first [_vercel_jwt] cookie of an accepted response. *)
Theorem getPassword_spec (target pw : string) (r : Response) :
  (forall s, getPassword_validateStatus s = true <-> (200 <= s < 307)%Z)
  /\ (getPassword_validateStatus (status r) = true ->
      (forall pre c post,
         set_cookie r = Some (pre ++ c :: post) ->
         (forall c', In c' pre -> cookie_name c' <> "_vercel_jwt") ->
         cookie_name c = "_vercel_jwt" ->
         (cookie_value c <> "" ->
          snd (getPassword target pw (Responded r)) = inl (cookie_value c))
         /\ (cookie_value c = "" ->
             snd (getPassword target pw (Responded r)) = inr no_jwt))
      /\ (set_cookie r = None ->
          snd (getPassword target pw (Responded r)) = inr no_jwt)
      /\ (forall cookies,
            set_cookie r = Some cookies ->
            (forall c, In c cookies -> cookie_name c <> "_vercel_jwt") ->
            snd (getPassword target pw (Responded r)) = inr no_jwt))
  /\ (forall cookies : list Cookie,
        (forall c, In c cookies -> cookie_name c <> "_vercel_jwt")
        \/ exists pre c post,
             cookies = pre ++ c :: post
             /\ (forall c', In c' pre -> cookie_name c' <> "_vercel_jwt")
             /\ cookie_name c = "_vercel_jwt")
  /\ (getPassword_validateStatus (status r) = false ->
      snd (getPassword target pw (Responded r)) = inr (AxiosResponseError r))
  /\ (forall t, count is_post (fst (getPassword target pw t)) = 1%nat)
  /\ (forall t v,
        snd (getPassword target pw t) = inl v ->
        exists r' pre c post,
          t = Responded r' /\ getPassword_validateStatus (status r') = true
          /\ set_cookie r' = Some (pre ++ c :: post)
          /\ (forall c', In c' pre -> cookie_name c' <> "_vercel_jwt")
          /\ cookie_name c = "_vercel_jwt" /\ cookie_value c = v /\ v <> "").
Proof.
  split; [exact getPassword_validateStatus_range|].
  split.
  { intros Hs. rewrite (getPassword_accepted _ _ _ Hs). simpl.
    split; [|split].
    - intros pre c post Hc Hpre Hn. rewrite Hc.
      rewrite find_first.
      + split; intros Hv.
        * apply String.eqb_neq in Hv. now rewrite Hv.
        * apply String.eqb_eq in Hv. now rewrite Hv.
      + intros c' Hin. apply String.eqb_neq. auto.
      + now apply String.eqb_eq.
    - intros ->. reflexivity.
    - intros cookies -> Hall.
      destruct (find _ cookies) as [c|] eqn:Ef; [|reflexivity].
      apply find_some in Ef. destruct Ef as [Hin Hn].
      apply String.eqb_eq in Hn. now destruct (Hall c Hin). }
  split.
  { intros cookies.
    destruct (find (fun cookie => cookie_name cookie =? "_vercel_jwt") cookies)
      as [c|] eqn:Ef.
    - right. destruct (find_split _ _ _ Ef) as (pre & post & -> & Hpre & Hn).
      exists pre, c, post. repeat split; auto.
      + intros c' Hin. apply String.eqb_neq. auto.
      + now apply String.eqb_eq.
    - left. intros c Hin. apply String.eqb_neq.
      exact (find_none _ _ Ef c Hin). }
  split.
  { intros Hs. rewrite (getPassword_rejected _ _ _ (AxiosResponseError r)).
    - reflexivity.
    - simpl. now rewrite Hs. }
  split; [apply getPassword_one_request | apply getPassword_returns].
Qed.

Lemma getPassword_spec_witness :
  snd (getPassword "https://web-preview.vercel.app" "secret"
                   (Responded ex_jwt_response)) = inl "abc123"
  /\ snd (getPassword "https://web-preview.vercel.app" "secret"
                      (Responded ex_two_jwt_response)) = inr no_jwt
  /\ snd (getPassword "https://web-preview.vercel.app" "secret"
                      (Responded (ex_response 200))) = inr no_jwt
  /\ snd (getPassword "https://web-preview.vercel.app" "secret"
                      (Responded (ex_response 307)))
     = inr (AxiosResponseError (ex_response 307)).
Proof.
  destruct (getPassword_spec "https://web-preview.vercel.app" "secret"
              ex_jwt_response) as (_ & H1 & _).
  destruct (getPassword_spec "https://web-preview.vercel.app" "secret"
              ex_two_jwt_response) as (_ & H1' & _).
  destruct (getPassword_spec "https://web-preview.vercel.app" "secret"
              (ex_response 200)) as (_ & H2 & _).
  destruct (getPassword_spec "https://web-preview.vercel.app" "secret"
              (ex_response 307)) as (_ & _ & _ & H3 & _).
  split; [|split; [|split]].
  - destruct (H1 eq_refl) as (H & _).
    apply (H [ {| cookie_name := "other"; cookie_value := "x" |} ]
             {| cookie_name := "_vercel_jwt"; cookie_value := "abc123" |} []).
    + reflexivity.
    + intros c' [<-|[]]. discriminate.
    + reflexivity.
    + discriminate.
  - destruct (H1' eq_refl) as (H & _).
    apply (H [] {| cookie_name := "_vercel_jwt"; cookie_value := "" |}
             [ {| cookie_name := "_vercel_jwt"; cookie_value := "abc123" |} ]).
    + reflexivity.
    + intros c' [].
    + reflexivity.
    + reflexivity.
  - destruct (H2 eq_refl) as (_ & H & _). apply H. reflexivity.
  - apply H3. reflexivity.
Defined.

(* ------------------------------------------------------------------ *)
(** ** Traces *)

Lemma count_app (p : Event -> bool) (t1 t2 : list Event) :
  count p (t1 ++ t2) = (count p t1 + count p t2)%nat.
Proof. unfold count. now rewrite filter_app, length_app. Qed.

Lemma count_attempts_trace {R} (p : Event -> bool)
    (body : nat -> Eff (Flow R)) (c i k : nat) :
  (forall j, (i <= j < i + k)%nat -> count p (fst (body j)) = c) ->
  count p (attempts_trace body i k) = (k * c)%nat.
Proof.
  revert i. induction k as [|k IH]; intros i H; [reflexivity|].
  unfold attempts_trace in *. simpl. rewrite count_app.
  rewrite (H i) by lia. rewrite IH; [reflexivity|].
  intros j Hj. apply H. lia.
Qed.

(* ------------------------------------------------------------------ *)
(** ** URL health poller *)

Lemma defaultValidateStatus_range (s : Z) :
  defaultValidateStatus s = true <-> (200 <= s < 300)%Z.
Proof.
  unfold defaultValidateStatus.
  rewrite andb_true_iff, Z.leb_le, Z.ltb_lt. reflexivity.
Qed.

Lemma getPassword_never_waits (target pw : string) (t : Transport) :
  count is_wait (fst (getPassword target pw t)) = 0%nat.
Proof.
  destruct (axios getPassword_validateStatus t) as [r|e] eqn:E.
  - destruct t as [r'|m|m]; simpl in E; try discriminate.
    destruct (getPassword_validateStatus (status r')) eqn:Hs; [|discriminate].
    rewrite (getPassword_accepted _ _ _ Hs). simpl.
    destruct (set_cookie r') as [cookies|]; [|reflexivity].
    destruct (find _ cookies) as [c|]; [|reflexivity].
    destruct (cookie_value c =? ""); reflexivity.
  - rewrite (getPassword_rejected _ _ _ _ E). reflexivity.
Qed.

Section UrlHealthPollerFacts.

Variable newURL : string -> string -> option URL.
Variable net : UrlNet.
Variable args : WaitForUrlArgs.

Lemma waitForUrl_catch_eq (iterations : jsnum) (i : nat) (e : Exn) :
  waitForUrl_catch args iterations i e
  = (catch_log args iterations i e ++ [Wait (wfu_checkIntervalInMilliseconds args)], inl Fallthrough).
Proof.
  unfold waitForUrl_catch, catch_log, bind, emit, ret.
  destruct (has_response e); [reflexivity|].
  destruct (has_request e); reflexivity.
Qed.

Lemma catch_log_never_waits (iterations : jsnum) (i : nat) (e : Exn) :
  count is_wait (catch_log args iterations i e) = 0%nat.
Proof.
  unfold catch_log. destruct (has_response e); [reflexivity|].
  destruct (has_request e); reflexivity.
Qed.

(** An attempt whose [try] block throws: the [catch] block logs, sleeps
    and lets the loop go on. *)
Lemma waitForUrl_attempt_caught (iterations : jsnum) (i : nat)
    (t : list Event) (e : Exn) :
  waitForUrl_try newURL net args i = (t, inr e) ->
  waitForUrl_attempt newURL net args iterations i
  = (t ++ catch_log args iterations i e ++ [Wait (wfu_checkIntervalInMilliseconds args)], inl Fallthrough).
Proof.
  intros H. unfold waitForUrl_attempt, try_catch.
  rewrite H, waitForUrl_catch_eq. reflexivity.
Qed.

Lemma waitForUrl_attempt_returned (iterations : jsnum) (i : nat)
    (t : list Event) (r : Flow unit) :
  waitForUrl_try newURL net args i = (t, inl r) ->
  waitForUrl_attempt newURL net args iterations i = (t, inl r).
Proof. intros H. unfold waitForUrl_attempt, try_catch. now rewrite H. Qed.

(** The [try] block once the headers are there and the URL resolves. *)
Lemma waitForUrl_try_request (i : nat) (tp : list Event)
    (hs : list (string * string)) (u : URL) :
  waitForUrl_headers net args i = (tp, inl hs) ->
  newURL (wfu_path args) (wfu_url args) = Some u ->
  waitForUrl_try newURL net args i
  = match axios defaultValidateStatus (get_outcome net i) with
    | inl _ =>
        (tp ++ [HttpGet (href u) hs;
                ConsoleLog (LogText "Received success status code")],
         inl (Return tt))
    | inr e => (tp ++ [HttpGet (href u) hs], inr e)
    end.
Proof.
  intros Hh Hu. unfold waitForUrl_try. rewrite Hh, Hu.
  unfold bind, ret, emit, lift. simpl.
  destruct (axios defaultValidateStatus (get_outcome net i)); reflexivity.
Qed.

Lemma waitForUrl_try_unresolved (i : nat) (tp : list Event)
    (hs : list (string * string)) :
  waitForUrl_headers net args i = (tp, inl hs) ->
  newURL (wfu_path args) (wfu_url args) = None ->
  waitForUrl_try newURL net args i = (tp, inr (TypeError "Invalid URL")).
Proof.
  intros Hh Hu. unfold waitForUrl_try. rewrite Hh, Hu.
  unfold bind, throw. simpl. now rewrite app_nil_r.
Qed.

Lemma waitForUrl_try_no_headers (i : nat) (tp : list Event) (e : Exn) :
  waitForUrl_headers net args i = (tp, inr e) ->
  waitForUrl_try newURL net args i = (tp, inr e).
Proof. intros Hh. unfold waitForUrl_try. now rewrite Hh. Qed.

(** Without a password the headers are empty and nothing is requested. *)
Lemma waitForUrl_headers_plain (i : nat) :
  truthy_string (wfu_vercelPassword args) = false ->
  waitForUrl_headers net args i = ([], inl []).
Proof. intros H. unfold waitForUrl_headers. now rewrite H. Qed.

(** With a password the headers are those of [getPassword]'s result. *)
Lemma waitForUrl_headers_protected (i : nat) :
  truthy_string (wfu_vercelPassword args) = true ->
  waitForUrl_headers net args i
  = match getPassword (wfu_url args) (wfu_vercelPassword args)
                      (post_outcome net i) with
    | (t, inl jwt) =>
        (t ++ [SetOutput "vercel_jwt" (OutString jwt)],
         inl [("Cookie", ("_vercel_jwt=" ++ jwt)%string)])
    | (t, inr e) => (t, inr e)
    end.
Proof.
  intros H. unfold waitForUrl_headers. rewrite H.
  destruct (getPassword _ _ _) as [t [jwt|e]]; reflexivity.
Qed.

Lemma waitForUrl_headers_never_wait (i : nat) :
  count is_wait (fst (waitForUrl_headers net args i)) = 0%nat.
Proof.
  destruct (truthy_string (wfu_vercelPassword args)) eqn:E.
  - rewrite (waitForUrl_headers_protected _ E).
    pose proof (getPassword_never_waits (wfu_url args)
                  (wfu_vercelPassword args) (post_outcome net i)) as H.
    destruct (getPassword _ _ _) as [t [jwt|e]]; simpl in *.
    + rewrite count_app, H. reflexivity.
    + exact H.
  - now rewrite (waitForUrl_headers_plain _ E).
Qed.

Lemma waitForUrl_try_never_waits (i : nat) :
  count is_wait (fst (waitForUrl_try newURL net args i)) = 0%nat.
Proof.
  pose proof (waitForUrl_headers_never_wait i) as H.
  destruct (waitForUrl_headers net args i) as [tp [hs|e]] eqn:Hh.
  - destruct (newURL (wfu_path args) (wfu_url args)) as [u|] eqn:Hu.
    + rewrite (waitForUrl_try_request _ _ _ _ Hh Hu).
      destruct (axios _ _); simpl in *; rewrite count_app, H; reflexivity.
    + now rewrite (waitForUrl_try_unresolved _ _ _ Hh Hu).
  - now rewrite (waitForUrl_try_no_headers _ _ _ Hh).
Qed.

(** The [try] block returns or throws; the attempt returns or falls
    through. *)
Lemma waitForUrl_try_cases (i : nat) :
  (exists t, waitForUrl_try newURL net args i = (t, inl (Return tt)))
  \/ (exists t e, waitForUrl_try newURL net args i = (t, inr e)).
Proof.
  destruct (waitForUrl_headers net args i) as [tp [hs|e]] eqn:Hh.
  - destruct (newURL (wfu_path args) (wfu_url args)) as [u|] eqn:Hu.
    + rewrite (waitForUrl_try_request _ _ _ _ Hh Hu).
      destruct (axios _ _); eauto.
    + rewrite (waitForUrl_try_unresolved _ _ _ Hh Hu). eauto.
  - rewrite (waitForUrl_try_no_headers _ _ _ Hh). eauto.
Qed.

(** A failed attempt: everything before its one sleep, then the sleep. *)
Lemma waitForUrl_attempt_failed (iterations : jsnum) (i : nat) :
  snd (waitForUrl_attempt newURL net args iterations i) <> inl (Return tt) ->
  snd (waitForUrl_attempt newURL net args iterations i) = inl Fallthrough
  /\ exists t0,
       fst (waitForUrl_attempt newURL net args iterations i)
       = t0 ++ [Wait (wfu_checkIntervalInMilliseconds args)]
       /\ count is_wait t0 = 0%nat.
Proof.
  intros H. pose proof (waitForUrl_try_never_waits i) as Hw.
  destruct (waitForUrl_try_cases i) as [[t E]|[t [e E]]].
  - rewrite (waitForUrl_attempt_returned _ _ _ _ E) in H. now contradiction H.
  - rewrite (waitForUrl_attempt_caught _ _ _ _ E). split; [reflexivity|].
    exists (t ++ catch_log args iterations i e). simpl. split.
    + now rewrite app_assoc.
    + rewrite E in Hw. simpl in Hw.
      now rewrite count_app, Hw, catch_log_never_waits.
Qed.

End UrlHealthPollerFacts.

Section UrlHealthPollerTheorems.

Variable newURL : string -> string -> option URL.
Variable net : UrlNet.
Variable args : WaitForUrlArgs.

(** The loop of [waitForUrl] when its first [n] attempts fail and the
    header then stops it. *)
Lemma waitForUrl_all_failed (z : Z) (fuel : nat) :
  waitForUrl_iterations args = Js.of_Z z ->
  (forall i, (i < Z.to_nat z)%nat ->
     snd (waitForUrl_attempt newURL net args (Js.of_Z z) i)
     <> inl (Return tt)) ->
  (Z.to_nat z < fuel)%nat ->
  waitForUrl newURL net args fuel
  = Some (attempts_trace (waitForUrl_attempt newURL net args (Js.of_Z z))
                         0 (Z.to_nat z)
          ++ [SetFailed (timeout_message (wfu_url args))],
          inl Timeout).
Proof.
  intros Hit Hfail Hfuel. unfold waitForUrl. rewrite Hit.
  replace fuel with (Z.to_nat z + S (fuel - Z.to_nat z - 1))%nat by lia.
  rewrite for_loop_falls_through.
  - rewrite Nat.add_0_l, for_loop_exit by apply loop_continues_at_bound.
    simpl. now rewrite app_nil_r.
  - intros j Hj. split; [apply loop_continues_below; lia|].
    apply waitForUrl_attempt_failed, Hfail. lia.
Qed.

Lemma waitForUrl_failed_attempts_waits (z : Z) :
  (forall i, (i < Z.to_nat z)%nat ->
     snd (waitForUrl_attempt newURL net args (Js.of_Z z) i)
     <> inl (Return tt)) ->
  count is_wait
    (attempts_trace (waitForUrl_attempt newURL net args (Js.of_Z z))
                    0 (Z.to_nat z)) = Z.to_nat z.
Proof.
  intros Hfail. rewrite (count_attempts_trace _ _ 1); [lia|].
  intros j Hj.
  destruct (waitForUrl_attempt_failed newURL net args (Js.of_Z z) j)
    as (_ & t0 & -> & H0); [apply Hfail; lia|].
  rewrite count_app, H0. reflexivity.
Qed.

(** With a URL that does not resolve the [try] block always throws. *)
Lemma waitForUrl_try_unresolvable (i : nat) :
  newURL (wfu_path args) (wfu_url args) = None ->
  exists t e, waitForUrl_try newURL net args i = (t, inr e).
Proof.
  intros Hu.
  destruct (waitForUrl_headers net args i) as [tp [hs|e]] eqn:Hh.
  - rewrite (waitForUrl_try_unresolved _ _ _ _ _ _ Hh Hu). eauto.
  - rewrite (waitForUrl_try_no_headers _ _ _ _ _ _ Hh). eauto.
Qed.




End UrlHealthPollerTheorems.



Lemma attempts_trace_constant {R} (body : nat -> Eff (Flow R))
    (t : list Event) (i k : nat) :
  (forall j, (i <= j < i + k)%nat -> fst (body j) = t) ->
  attempts_trace body i k = List.concat (repeat t k).
Proof.
  revert i. induction k as [|k IH]; intros i H; [reflexivity|].
  unfold attempts_trace in *. simpl. rewrite (H i) by lia.
  f_equal. apply IH. intros j Hj. apply H. lia.
Qed.

(** C1, as stated, fails: a 404 answer to the first health check does not
    end the poll.  The attempt is logged with its status, the poller
    sleeps and asks again; here the second answer, a 200, ends it. *)
Lemma not_found_is_retried :
  get_outcome ex_net_404_then_200 0 = Responded (ex_response 404)
  /\ snd (waitForUrl_attempt ex_newURL ex_net_404_then_200
            (ex_poll_args "https://web-preview.vercel.app") (JFin 2) 0)
     = inl Fallthrough
  /\ waitForUrl ex_newURL ex_net_404_then_200
                (ex_poll_args "https://web-preview.vercel.app") 3
     = Some ([HttpGet "https://web-preview.vercel.app/" [];
              ConsoleLog (LogGetStatus 404 0 (JFin 2));
              Wait (JFin 2000);
              HttpGet "https://web-preview.vercel.app/" [];
              ConsoleLog (LogText "Received success status code")],
             inl Success).
Proof. repeat split. Qed.

(** C1, amended.  On an attempt that reaches the health check, a response
    counts as success exactly when its status is in [200, 300): then the
    attempt returns and the poll ends with Success.  A response with any
    other status, a 404 among them, is logged with its status, followed
    by a sleep of the configured interval, and the loop goes on with the
    next attempt. *)
Theorem waitForUrl_status_decides
    (newURL : string -> string -> option URL) (net : UrlNet)
    (args : WaitForUrlArgs) (iterations : jsnum) (i : nat)
    (tp : list Event) (hs : list (string * string)) (u : URL)
    (r : Response) :
  waitForUrl_headers net args i = (tp, inl hs) ->
  newURL (wfu_path args) (wfu_url args) = Some u ->
  get_outcome net i = Responded r ->
  loop_continues i iterations = true ->
  (forall s, defaultValidateStatus s = true <-> (200 <= s < 300)%Z)
  /\ (defaultValidateStatus (status r) = true ->
      forall fuel,
        for_loop iterations (waitForUrl_attempt newURL net args iterations)
                 (S fuel) i
        = Some (tp ++ [HttpGet (href u) hs;
                       ConsoleLog (LogText "Received success status code")],
                inl (Return tt))
        /\ (i = 0%nat -> iterations = waitForUrl_iterations args ->
            waitForUrl newURL net args (S fuel)
            = Some (tp ++ [HttpGet (href u) hs;
                           ConsoleLog (LogText "Received success status code")],
                    inl Success)))
  /\ (defaultValidateStatus (status r) = false ->
      forall fuel,
        for_loop iterations (waitForUrl_attempt newURL net args iterations)
                 (S fuel) i
        = prepend (tp ++ [HttpGet (href u) hs;
                          ConsoleLog (LogGetStatus (status r) i iterations);
                          Wait (wfu_checkIntervalInMilliseconds args)])
                  (for_loop iterations
                     (waitForUrl_attempt newURL net args iterations)
                     fuel (S i))).
Proof.
  intros Hh Hu Hg Hc.
  pose proof (waitForUrl_try_request newURL net args i tp hs u Hh Hu) as Htry.
  rewrite Hg in Htry. simpl in Htry.
  split; [exact defaultValidateStatus_range|]. split.
  - intros Hs fuel. rewrite Hs in Htry.
    pose proof (waitForUrl_attempt_returned _ _ _ iterations _ _ _ Htry) as Ha.
    pose proof (for_loop_return iterations _ fuel i _ tt Hc Ha) as Hl.
    split; [exact Hl|].
    intros -> ->. unfold waitForUrl. rewrite Hl. simpl.
    now rewrite app_nil_r.
  - intros Hs fuel. rewrite Hs in Htry.
    pose proof (waitForUrl_attempt_caught _ _ _ iterations _ _ _ Htry) as Ha.
    rewrite (for_loop_next iterations _ fuel i _ Hc Ha).
    simpl. now rewrite <- app_assoc.
Qed.

Lemma waitForUrl_status_decides_witness :
  for_loop (JFin 2)
    (waitForUrl_attempt ex_newURL ex_net_404_then_200
       (ex_poll_args "https://web-preview.vercel.app") (JFin 2)) 2 0
  = prepend ([] ++ [HttpGet "https://web-preview.vercel.app/" [];
                    ConsoleLog (LogGetStatus 404 0 (JFin 2));
                    Wait (JFin 2000)])
      (for_loop (JFin 2)
         (waitForUrl_attempt ex_newURL ex_net_404_then_200
            (ex_poll_args "https://web-preview.vercel.app") (JFin 2)) 1 1)
  /\ for_loop (JFin 2)
       (waitForUrl_attempt ex_newURL ex_net_404_then_200
          (ex_poll_args "https://web-preview.vercel.app") (JFin 2)) 1 1
     = Some ([] ++ [HttpGet "https://web-preview.vercel.app/" [];
                    ConsoleLog (LogText "Received success status code")],
             inl (Return tt)).
Proof.
  pose proof (waitForUrl_status_decides ex_newURL ex_net_404_then_200
                (ex_poll_args "https://web-preview.vercel.app") (JFin 2) 0
                [] [] {| href := "https://web-preview.vercel.app/" |}
                (ex_response 404) eq_refl eq_refl eq_refl eq_refl)
    as (_ & _ & H404).
  pose proof (waitForUrl_status_decides ex_newURL ex_net_404_then_200
                (ex_poll_args "https://web-preview.vercel.app") (JFin 2) 1
                [] [] {| href := "https://web-preview.vercel.app/" |}
                (ex_response 200) eq_refl eq_refl eq_refl eq_refl)
    as (_ & H200 & _).
  split.
  - exact (H404 eq_refl 1%nat).
  - exact (proj1 (H200 eq_refl 0%nat)).
Defined.

(** C7: the code at an input whose URL does not resolve.  The error of
    the URL constructor is caught like any other: no attempt of the
    budget is skipped, each one sleeps, and the poll ends in the timeout.
    Without a password every attempt consists of the two log lines of the
    last [catch] branch and the sleep. *)
Theorem waitForUrl_retries_unresolvable_url
    (newURL : string -> string -> option URL) (net : UrlNet)
    (args : WaitForUrlArgs) (z : Z) (fuel : nat) :
  newURL (wfu_path args) (wfu_url args) = None ->
  waitForUrl_iterations args = Js.of_Z z ->
  (Z.to_nat z < fuel)%nat ->
  exists tr,
    waitForUrl newURL net args fuel
    = Some (tr ++ [SetFailed (timeout_message (wfu_url args))], inl Timeout)
    /\ count is_wait tr = Z.to_nat z
    /\ (truthy_string (wfu_vercelPassword args) = false ->
        tr = List.concat
               (repeat [ConsoleLog (LogErrorUrl (wfu_url args));
                        ConsoleLog (LogExn (TypeError "Invalid URL"));
                        Wait (wfu_checkIntervalInMilliseconds args)]
                       (Z.to_nat z))).
Proof.
  intros Hu Hit Hfuel.
  assert (Hfail : forall i, (i < Z.to_nat z)%nat ->
            snd (waitForUrl_attempt newURL net args (Js.of_Z z) i)
            <> inl (Return tt)).
  { intros i _.
    destruct (waitForUrl_try_unresolvable newURL net args i Hu) as (t & e & E).
    rewrite (waitForUrl_attempt_caught _ _ _ _ _ _ _ E). discriminate. }
  eexists. split;
    [exact (waitForUrl_all_failed newURL net args z fuel Hit Hfail Hfuel)|].
  split; [now apply waitForUrl_failed_attempts_waits|].
  intros Hpw. apply attempts_trace_constant. intros j _.
  rewrite (waitForUrl_attempt_caught _ _ _ _ _ _ _
             (waitForUrl_try_unresolved newURL _ _ _ _ _
                (waitForUrl_headers_plain net args j Hpw) Hu)).
  reflexivity.
Qed.

Lemma waitForUrl_retries_unresolvable_url_witness :
  exists tr,
    waitForUrl ex_newURL ex_net_404_then_200
               (ex_poll_args "web-preview.vercel.app") 3
    = Some (tr ++ [SetFailed "Timeout reached: Unable to connect to web-preview.vercel.app"],
            inl Timeout)
    /\ count is_wait tr = 2%nat
    /\ (truthy_string "" = false ->
        tr = List.concat
               (repeat [ConsoleLog (LogErrorUrl "web-preview.vercel.app");
                        ConsoleLog (LogExn (TypeError "Invalid URL"));
                        Wait (JFin 2000)] 2)).
Proof.
  apply (waitForUrl_retries_unresolvable_url ex_newURL ex_net_404_then_200
           (ex_poll_args "web-preview.vercel.app") 2 3).
  - reflexivity.
  - reflexivity.
  - simpl. lia.
Defined.

(* ------------------------------------------------------------------ *)
(** ** Deployment resolution poller *)


Lemma existsb_false_iff {A} (f : A -> bool) (l : list A) :
  existsb f l = false <-> forall x, In x l -> f x = false.
Proof.
  induction l as [|a l IH]; simpl.
  - split; [intros _ x [] | reflexivity].
  - rewrite orb_false_iff, IH. split.
    + intros [Ha Hl] x [<-|Hx]; auto.
    + intros H. split; [apply H; now left | intros x Hx; apply H; now right].
Qed.

(** The inner [forEach] appends the targets of the matching records. *)
Lemma push_if_matching_fold (sha : string) (l : list LatestDeployment)
    (finalLinks : list ResolvedTarget) :
  fold_left (push_if_matching sha) l finalLinks
  = finalLinks ++ map toAdd (filter (sha_matches sha) l).
Proof.
  revert finalLinks. induction l as [|d l IH]; intros finalLinks; simpl.
  - now rewrite app_nil_r.
  - rewrite IH. unfold push_if_matching.
    destruct (sha_matches sha d); simpl; [now rewrite <- app_assoc|].
    reflexivity.
Qed.

Lemma collect_fold (sha : string) (latest : list (list LatestDeployment))
    (finalLinks : list ResolvedTarget) :
  fold_left
    (fun acc projectDeployments =>
       fold_left (push_if_matching sha) projectDeployments acc)
    latest finalLinks
  = finalLinks ++ map toAdd (filter (sha_matches sha) (List.concat latest)).
Proof.
  revert finalLinks. induction latest as [|l latest IH]; intros finalLinks;
    simpl.
  - now rewrite app_nil_r.
  - rewrite IH, push_if_matching_fold, filter_app, map_app.
    now rewrite app_assoc.
Qed.

(** The two nested [forEach]: in the order of the listing, the targets of
    the records whose commit matches. *)
Lemma collect_finalLinks_eq (sha : string)
    (latest : list (list LatestDeployment)) :
  collect_finalLinks sha latest
  = map toAdd (filter (sha_matches sha) (List.concat latest)).
Proof. unfold collect_finalLinks. now rewrite collect_fold. Qed.

Lemma js_index_last {A} (init : list A) (a : A) :
  js_index (init ++ [a]) (Z.of_nat (List.length (init ++ [a])) - 1) = Some a.
Proof.
  unfold js_index. rewrite length_app. simpl.
  replace (Z.of_nat (List.length init + 1) - 1)%Z
    with (Z.of_nat (List.length init)) by lia.
  destruct (Z.of_nat (List.length init) <? 0)%Z eqn:E;
    [apply Z.ltb_lt in E; lia|].
  rewrite Nat2Z.id, nth_error_app2 by lia.
  now rewrite Nat.sub_diag.
Qed.

Lemma toAdd_fields (d : LatestDeployment) :
  (forall init a, ld_automaticAliases d = init ++ [a] ->
                  url (toAdd d) = Some a)
  /\ (ld_automaticAliases d = [] -> url (toAdd d) = None)
  /\ name (toAdd d) = ld_name d.
Proof.
  unfold toAdd; simpl. split; [|split].
  - intros init a ->. apply js_index_last.
  - intros ->. reflexivity.
  - reflexivity.
Qed.

Lemma sha_matches_iff (sha : string) (d : LatestDeployment) :
  sha_matches sha d = true <-> ld_githubCommitSha d = Some sha.
Proof.
  unfold sha_matches. destruct (ld_githubCommitSha d) as [s|].
  - rewrite String.eqb_eq. split; [now intros -> | now intros [= ->]].
  - split; discriminate.
Qed.

Lemma matching_records_iff (sha : string) (ps : list Project)
    (d : LatestDeployment) :
  In d (filter (sha_matches sha) (List.concat (map latestDeployments ps)))
  <-> (exists p, In p ps /\ In d (latestDeployments p))
      /\ ld_githubCommitSha d = Some sha.
Proof.
  rewrite filter_In, in_concat, sha_matches_iff. split.
  - intros [(l & Hl & Hd) Hs]. apply in_map_iff in Hl.
    destruct Hl as (p & <- & Hp). split; [exists p; auto | exact Hs].
  - intros [(p & Hp & Hd) Hs]. split; [|exact Hs].
    exists (latestDeployments p). split; [now apply in_map | exact Hd].
Qed.

Section DeploymentResolutionFacts.

Variable api : VercelApi.
Variable args : WaitForDeploymentArgs.

Lemma attempt_deployments_error (i : nat) (e : Exn) :
  deployments_response api i = inr e ->
  waitForDeploymentToStart_attempt api args i
  = ([HttpGet deployments_endpoint (authorization args);
      ConsoleError (LogVercelCallError e);
      Wait (interval_of args)], inl Fallthrough).
Proof.
  intros H. unfold waitForDeploymentToStart_attempt,
    waitForDeploymentToStart_try, try_catch, bind, emit, lift.
  rewrite H. reflexivity.
Qed.

Lemma attempt_projects_error (i : nat) (ds : list Deployment) (e : Exn) :
  deployments_response api i = inl ds ->
  projects_response api i = inr e ->
  waitForDeploymentToStart_attempt api args i
  = ([HttpGet deployments_endpoint (authorization args);
      HttpGet projects_endpoint (authorization args);
      ConsoleError (LogVercelCallError e);
      Wait (interval_of args)], inl Fallthrough).
Proof.
  intros Hd Hp. unfold waitForDeploymentToStart_attempt,
    waitForDeploymentToStart_try, try_catch, bind, emit, lift.
  rewrite Hd, Hp. reflexivity.
Qed.

Lemma attempt_settled (i : nat) (ds : list Deployment) (ps : list Project) :
  deployments_response api i = inl ds ->
  projects_response api i = inl ps ->
  existsb in_progress ds = false ->
  waitForDeploymentToStart_attempt api args i
  = ([HttpGet deployments_endpoint (authorization args);
      HttpGet projects_endpoint (authorization args)],
     inl (Return (collect_finalLinks (wfd_sha args)
                    (map latestDeployments ps)))).
Proof.
  intros Hd Hp Hq. unfold waitForDeploymentToStart_attempt,
    waitForDeploymentToStart_try, try_catch, bind, emit, lift.
  rewrite Hd, Hp. simpl. rewrite Hq. reflexivity.
Qed.

Lemma attempt_in_progress (i : nat) (ds : list Deployment)
    (ps : list Project) :
  deployments_response api i = inl ds ->
  projects_response api i = inl ps ->
  existsb in_progress ds = true ->
  waitForDeploymentToStart_attempt api args i
  = ([HttpGet deployments_endpoint (authorization args);
      HttpGet projects_endpoint (authorization args);
      ConsoleLog (LogText (still_deploying (filter in_progress ds)));
      Wait (interval_of args);
      Wait (interval_of args)], inl Fallthrough).
Proof.
  intros Hd Hp Hq. unfold waitForDeploymentToStart_attempt,
    waitForDeploymentToStart_try, try_catch, bind, emit, lift.
  rewrite Hd, Hp. simpl. rewrite Hq. reflexivity.
Qed.

(** An attempt returns exactly when it is settled. *)
Lemma attempt_not_settled (i : nat) :
  settled api i = false ->
  snd (waitForDeploymentToStart_attempt api args i) = inl Fallthrough.
Proof.
  unfold settled. intros H.
  destruct (deployments_response api i) as [ds|e] eqn:Hd.
  - destruct (projects_response api i) as [ps|e] eqn:Hp.
    + apply negb_false_iff in H.
      now rewrite (attempt_in_progress _ _ _ Hd Hp H).
    + now rewrite (attempt_projects_error _ _ _ Hd Hp).
  - now rewrite (attempt_deployments_error _ _ Hd).
Qed.



End DeploymentResolutionFacts.

(** C3.  At the first attempt that finds both listings answered and no
    deployment of the team in progress, [waitForDeploymentToStart]
    returns the list that has one target per latest-deployment record,
    over all projects and in the order of the listing, whose commit SHA
    is the target SHA.  A target's [url] is the last element of the
    record's [automaticAliases] ([undefined] for an empty list) and its
    [name] is the record's name. *)
Theorem waitForDeploymentToStart_resolves
    (api : VercelApi) (args : WaitForDeploymentArgs) (k : nat)
    (ds : list Deployment) (ps : list Project) :
  loop_continues k (waitForDeploymentToStart_iterations args) = true ->
  deployments_response api k = inl ds ->
  (forall d, In d ds -> in_progress d = false) ->
  projects_response api k = inl ps ->
  (forall j, (j < k)%nat -> settled api j = false) ->
  (forall fuel, (k < fuel)%nat ->
     exists tr,
       waitForDeploymentToStart api args fuel
       = Some (tr, inl (Links
                 (map toAdd
                    (filter (sha_matches (wfd_sha args))
                       (List.concat (map latestDeployments ps)))))))
  /\ (forall d,
        In d (filter (sha_matches (wfd_sha args))
                (List.concat (map latestDeployments ps)))
        <-> (exists p, In p ps /\ In d (latestDeployments p))
            /\ ld_githubCommitSha d = Some (wfd_sha args))
  /\ (forall d,
        (forall init a, ld_automaticAliases d = init ++ [a] ->
                        url (toAdd d) = Some a)
        /\ (ld_automaticAliases d = [] -> url (toAdd d) = None)
        /\ name (toAdd d) = ld_name d).
Proof.
  intros Hc Hd Hidle Hp Hbefore.
  split; [|split; [apply matching_records_iff | apply toAdd_fields]].
  intros fuel Hfuel.
  apply existsb_false_iff in Hidle.
  pose proof (attempt_settled api args k ds ps Hd Hp Hidle) as Ha.
  rewrite collect_finalLinks_eq in Ha.
  unfold waitForDeploymentToStart.
  replace fuel with (k + S (fuel - k - 1))%nat by lia.
  rewrite for_loop_falls_through.
  - rewrite Nat.add_0_l, (for_loop_return _ _ _ _ _ _ Hc Ha).
    simpl. eexists. reflexivity.
  - intros j Hj. split.
    + apply (loop_continues_downward j k); [lia | exact Hc].
    + apply attempt_not_settled, Hbefore. lia.
Qed.

Lemma waitForDeploymentToStart_resolves_witness :
  exists tr,
    waitForDeploymentToStart ex_api_idle (ex_resolution_args "abc123") 1
    = Some (tr, inl (Links
              (map toAdd
                 (filter (sha_matches "abc123")
                    (List.concat (map latestDeployments ex_projects)))))).
Proof.
  destruct (waitForDeploymentToStart_resolves ex_api_idle
              (ex_resolution_args "abc123") 0
              [ {| dep_name := "web"; dep_state := "READY" |};
                {| dep_name := "docs"; dep_state := "CANCELED" |} ]
              ex_projects) as (H & _).
  - reflexivity.
  - reflexivity.
  - intros d [<-|[<-|[]]]; reflexivity.
  - reflexivity.
  - intros j Hj. lia.
  - apply (H 1%nat). lia.
Defined.

(** The resolved target of the example: the last alias, the name. *)
Example ex_resolved_target :
  map toAdd (filter (sha_matches "abc123")
               (List.concat (map latestDeployments ex_projects)))
  = [ {| url := Some "web-preview.vercel.app"; name := "web" |} ].
Proof. reflexivity. Qed.




(** C9, as stated, fails.  The attempt below finds a deployment that is
    building, but its project listing is rejected: the exception leaves
    the [try] block before the test of line 668, the [catch] block logs
    it, and the only sleep is the one at the end of the loop body. *)
Lemma in_progress_attempt_sleeps_once :
  (exists ds,
     deployments_response ex_api_busy_projects_failing 0 = inl ds
     /\ existsb in_progress ds = true)
  /\ waitForDeploymentToStart_attempt ex_api_busy_projects_failing
       (ex_resolution_args "abc123") 0
     = ([HttpGet deployments_endpoint [("Authorization", "Bearer tok")];
         HttpGet projects_endpoint [("Authorization", "Bearer tok")];
         ConsoleError (LogVercelCallError (AxiosRequestError "timeout"));
         Wait (JFin 2000)], inl Fallthrough)
  /\ waits (fst (waitForDeploymentToStart_attempt
                   ex_api_busy_projects_failing
                   (ex_resolution_args "abc123") 0))
     = [JFin 2000].
Proof.
  split; [eexists; split; reflexivity|]. split; reflexivity.
Qed.

(** C9, amended.  An attempt that finds a deployment in progress and
    whose project listing is answered reaches the test of line 668 and
    sleeps twice, once in the [else] branch and once at the end of the
    loop body: two times the configured interval lie between it and the
    next attempt.  When the project listing is rejected instead, the
    attempt goes through the [catch] block and sleeps once.  In both
    cases the loop goes on with the next counter value. *)
Theorem in_progress_attempt_sleeps_twice
    (api : VercelApi) (args : WaitForDeploymentArgs) (i : nat)
    (ds : list Deployment) (iterations : jsnum) :
  deployments_response api i = inl ds ->
  existsb in_progress ds = true ->
  (forall ps,
     projects_response api i = inl ps ->
     waitForDeploymentToStart_attempt api args i
     = ([HttpGet deployments_endpoint (authorization args);
         HttpGet projects_endpoint (authorization args);
         ConsoleLog (LogText (still_deploying (filter in_progress ds)));
         Wait (interval_of args);
         Wait (interval_of args)], inl Fallthrough)
     /\ waits (fst (waitForDeploymentToStart_attempt api args i))
        = [interval_of args; interval_of args])
  /\ (forall e,
        projects_response api i = inr e ->
        waitForDeploymentToStart_attempt api args i
        = ([HttpGet deployments_endpoint (authorization args);
            HttpGet projects_endpoint (authorization args);
            ConsoleError (LogVercelCallError e);
            Wait (interval_of args)], inl Fallthrough)
        /\ waits (fst (waitForDeploymentToStart_attempt api args i))
           = [interval_of args])
  /\ (loop_continues i iterations = true ->
      forall fuel,
        for_loop iterations (waitForDeploymentToStart_attempt api args)
                 (S fuel) i
        = prepend (fst (waitForDeploymentToStart_attempt api args i))
            (for_loop iterations (waitForDeploymentToStart_attempt api args)
                      fuel (S i))).
Proof.
  intros Hd Hq. split; [|split].
  - intros ps Hp.
    pose proof (attempt_in_progress api args i ds ps Hd Hp Hq) as Ha.
    split; [exact Ha | now rewrite Ha].
  - intros e Hp.
    pose proof (attempt_projects_error api args i ds e Hd Hp) as Ha.
    split; [exact Ha | now rewrite Ha].
  - intros Hc fuel.
    assert (Hs : settled api i = false)
      by (unfold settled; rewrite Hd, Hq; now destruct (projects_response api i)).
    pose proof (attempt_not_settled api args i Hs) as Hf.
    destruct (waitForDeploymentToStart_attempt api args i) as [t r] eqn:E.
    simpl in Hf. subst r. now apply for_loop_next.
Qed.

Lemma in_progress_attempt_sleeps_twice_witness :
  waits (fst (waitForDeploymentToStart_attempt ex_api_busy
                (ex_resolution_args "abc123") 0))
  = [JFin 2000; JFin 2000]
  /\ waits (fst (waitForDeploymentToStart_attempt
                   ex_api_busy_projects_failing
                   (ex_resolution_args "abc123") 0))
     = [JFin 2000].
Proof.
  pose proof (in_progress_attempt_sleeps_twice ex_api_busy
                (ex_resolution_args "abc123") 0
                [ {| dep_name := "web"; dep_state := "READY" |};
                  {| dep_name := "docs"; dep_state := "BUILDING" |} ]
                (JFin 2) eq_refl eq_refl)
    as (H & _ & _).
  pose proof (in_progress_attempt_sleeps_twice ex_api_busy_projects_failing
                (ex_resolution_args "abc123") 0
                [ {| dep_name := "web"; dep_state := "READY" |};
                  {| dep_name := "docs"; dep_state := "BUILDING" |} ]
                (JFin 2) eq_refl eq_refl)
    as (_ & H' & _).
  split.
  - exact (proj2 (H ex_projects eq_refl)).
  - exact (proj2 (H' (AxiosRequestError "timeout") eq_refl)).
Defined.

(* ------------------------------------------------------------------ *)
(** ** Orchestrator *)

Lemma run_with_resolution (inputs : Inputs) (ctx : GithubContext)
    (api : VercelApi) (fuel : nat) (t t' : list Event) (sha : string)
    (urls : Resolution) :
  run_determine_sha inputs ctx = (t, inl (Some sha)) ->
  waitForDeploymentToStart api (resolution_args inputs sha) fuel
  = Some (t', inl urls) ->
  run inputs ctx api fuel
  = Some (t ++ t' ++ fst (run_after_resolution inputs urls),
          snd (run_after_resolution inputs urls)).
Proof.
  intros Hs Hw. unfold run, run_try. rewrite Hs, Hw.
  destruct urls; reflexivity.
Qed.

(** C2: the code on the two results of the poller that are not a
    non-empty list.  On [null] it fails with the message of line 762 and
    publishes nothing.  On an empty list it does not fail: it logs and
    publishes the empty [urls] output and starts no health poll. *)
Theorem run_on_empty_resolution (inputs : Inputs) (ctx : GithubContext)
    (api : VercelApi) (fuel : nat) (t t' : list Event) (sha : string)
    (urls : Resolution) :
  run_determine_sha inputs ctx = (t, inl (Some sha)) ->
  waitForDeploymentToStart api (resolution_args inputs sha) fuel
  = Some (t', inl urls) ->
  (urls = Null ->
   run inputs ctx api fuel
   = Some (t ++ t' ++ [SetFailed "no vercel deployment found, exiting..."],
           inl []))
  /\ (urls = Links [] ->
      run inputs ctx api fuel
      = Some (t ++ t' ++ [ConsoleLog (LogUrls []);
                          SetOutput "urls" (OutTargets [])],
              inl [])).
Proof.
  intros Hs Hw.
  split; intros ->; now rewrite (run_with_resolution _ _ _ _ _ _ _ _ Hs Hw).
Qed.

Lemma run_on_empty_resolution_witness :
  run (ex_inputs (JFin 4) (JFin 2)) (ex_push "000000") ex_api_idle 1
  = Some ([] ++ [HttpGet deployments_endpoint [("Authorization", "Bearer tok")];
                 HttpGet projects_endpoint [("Authorization", "Bearer tok")]]
          ++ [ConsoleLog (LogUrls []); SetOutput "urls" (OutTargets [])],
          inl []).
Proof.
  pose proof (run_on_empty_resolution (ex_inputs (JFin 4) (JFin 2))
                (ex_push "000000") ex_api_idle 1 []
                [HttpGet deployments_endpoint [("Authorization", "Bearer tok")];
                 HttpGet projects_endpoint [("Authorization", "Bearer tok")]]
                "000000" (Links []) eq_refl eq_refl) as (_ & H).
  exact (H eq_refl).
Defined.

(** The run of the example above sets no failure and publishes [urls]. *)
Example ex_empty_resolution_is_published :
  exists t,
    run (ex_inputs (JFin 4) (JFin 2)) (ex_push "000000") ex_api_idle 1
    = Some (t, inl [])
    /\ count is_failure t = 0%nat
    /\ count is_urls_output t = 1%nat.
Proof. eexists. split; [vm_compute; reflexivity | split; reflexivity]. Qed.

(* ================================================================== *)
(** * Further properties of the code *)

(* ------------------------------------------------------------------ *)
(** ** Retry budget: a zero interval, and what rounding does *)

Section RetryBudgetEdges.

Local Open Scope Q_scope.





(** X2.  The count is [NaN], an infinity or an integer, never a
    fraction.  For a non-negative budget and a positive interval in
    seconds it is a non-negative integer or [Infinity].  The two
    divisions are rounded: [calculateIterations(7, 70)] is [99], one
    below the floor of the exact quotient, and
    [calculateIterations(1e308, 1)] is [Infinity], the quotient being
    beyond the largest double. *)
Theorem calculateIterations_rounded_quotient (m i : Q) :
  (forall x y : jsnum,
     calculateIterations x y = JNaN \/ calculateIterations x y = JPosInf
     \/ calculateIterations x y = JNegInf
     \/ exists n : Z, calculateIterations x y = Js.of_Z n)
  /\ (0 <= m -> Js.lt (JFin 0) (interval_in_seconds (JFin i)) = true ->
      calculateIterations (JFin m) (JFin i) = JPosInf
      \/ exists n : Z,
           calculateIterations (JFin m) (JFin i) = Js.of_Z n /\ (0 <= n)%Z)
  /\ calculateIterations (JFin 7) (JFin 70) = JFin 99
  /\ Qfloor (7 / (70 / 1000)) = 100%Z
  /\ calculateIterations (JFin (inject_Z (10 ^ 308))) (JFin 1) = JPosInf.
Proof.
  split; [exact calculateIterations_integral|].
  split; [|repeat split; vm_compute; reflexivity].
  intros Hm Hi.
  assert (L : Js.le (calculateIterations (JFin 0) (JFin i))
                    (calculateIterations (JFin m) (JFin i)) = true)
    by now apply budget_monotone.
  assert (Z : calculateIterations (JFin 0) (JFin i) = JFin 0).
  { unfold calculateIterations.
    destruct (positive_divisor _ Hi) as [-> | (d & -> & Hd)].
    - now rewrite to_jsnum_divide_by_infinity.
    - rewrite to_jsnum_divide_finite by now apply positive_nonzero.
      rewrite round64_zero; [reflexivity|].
      rewrite (double_zero 0) by reflexivity. apply zero_quotient. }
  rewrite Z in L.
  destruct (calculateIterations_integral (JFin m) (JFin i))
    as [E | [E | [E | (n & E)]]]; rewrite E in L |- *;
    try discriminate; auto.
  right. exists n. split; [reflexivity|].
  change (JFin 0) with (Js.of_Z 0) in L. now apply Js_le_of_Z.
Qed.

Lemma calculateIterations_rounded_quotient_witness :
  calculateIterations (JFin 7) (JFin 2000) = JPosInf
  \/ exists n : Z,
       calculateIterations (JFin 7) (JFin 2000) = Js.of_Z n /\ (0 <= n)%Z.
Proof.
  apply (calculateIterations_rounded_quotient 7 2000).
  - discriminate.
  - vm_compute. reflexivity.
Defined.

(** An infinite budget over a positive interval gives an infinite
    count. *)
Lemma infinite_budget (i : Q) :
  0 < i -> calculateIterations JPosInf (JFin i) = JPosInf.
Proof.
  intros Hi. unfold calculateIterations.
  rewrite (divide_by_1000 i Hi).
  destruct (seconds_finite i Hi) as (y & -> & Hy).
  unfold Js.divide.
  destruct (Qeq_dec y 0) as [E | N].
  - now rewrite (operand_of_zero y E).
  - rewrite (operand_of_nonzero y N). cbn [Js.operand_of].
    rewrite negative_double. unfold Js.negative, Js.sgn.
    destruct (Qcompare_spec y 0); try reflexivity. exfalso; lra.
Qed.

End RetryBudgetEdges.

(* ------------------------------------------------------------------ *)
(** ** URL health poller, continued *)

Lemma getPassword_trace (target pw : string) (t : Transport) :
  fst (getPassword target pw t)
  = [ConsoleLog (LogText "requesting vercel JWT");
     HttpPost target [("_vercel_password", pw)]]
    ++ match snd (getPassword target pw t) with
       | inl _ => [ConsoleLog (LogText "received vercel JWT")]
       | inr _ => []
       end.
Proof.
  destruct (axios getPassword_validateStatus t) as [r|e] eqn:E.
  - destruct t as [r'|m|m]; simpl in E; try discriminate.
    destruct (getPassword_validateStatus (status r')) eqn:Hs; [|discriminate].
    rewrite (getPassword_accepted _ _ _ Hs). simpl.
    destruct (set_cookie r') as [cookies|]; [|reflexivity].
    destruct (find _ cookies) as [c|]; [|reflexivity].
    destruct (cookie_value c =? ""); reflexivity.
  - rewrite (getPassword_rejected _ _ _ _ E). reflexivity.
Qed.

Lemma count_catch_log (p : Event -> bool) (args : WaitForUrlArgs)
    (iterations : jsnum) (i : nat) (e : Exn) :
  (forall m, p (ConsoleLog m) = false) ->
  count p (catch_log args iterations i e) = 0%nat.
Proof.
  intros Hp. unfold catch_log, count.
  destruct (has_response e); [simpl; now rewrite Hp|].
  destruct (has_request e); simpl; now rewrite !Hp.
Qed.

Section UrlHealthPollerOutcomes.

Variable newURL : string -> string -> option URL.
Variable net : UrlNet.
Variable args : WaitForUrlArgs.

(** The loop body in full, by what the attempt meets. *)
Lemma waitForUrl_attempt_shape (iterations : jsnum) (i : nat) :
  waitForUrl_attempt newURL net args iterations i
  = match waitForUrl_headers net args i with
    | (tp, inr e) =>
        (tp ++ catch_log args iterations i e
            ++ [Wait (wfu_checkIntervalInMilliseconds args)],
         inl Fallthrough)
    | (tp, inl hs) =>
        match newURL (wfu_path args) (wfu_url args) with
        | None =>
            (tp ++ catch_log args iterations i (TypeError "Invalid URL")
                ++ [Wait (wfu_checkIntervalInMilliseconds args)],
             inl Fallthrough)
        | Some u =>
            match axios defaultValidateStatus (get_outcome net i) with
            | inl _ =>
                (tp ++ [HttpGet (href u) hs;
                        ConsoleLog (LogText "Received success status code")],
                 inl (Return tt))
            | inr e =>
                ((tp ++ [HttpGet (href u) hs])
                   ++ catch_log args iterations i e
                   ++ [Wait (wfu_checkIntervalInMilliseconds args)],
                 inl Fallthrough)
            end
        end
    end.
Proof.
  destruct (waitForUrl_headers net args i) as [tp [hs|e]] eqn:Hh.
  - destruct (newURL (wfu_path args) (wfu_url args)) as [u|] eqn:Hu.
    + pose proof (waitForUrl_try_request newURL net args i tp hs u Hh Hu)
        as Ht.
      destruct (axios defaultValidateStatus (get_outcome net i)).
      * now apply waitForUrl_attempt_returned.
      * now apply waitForUrl_attempt_caught.
    + apply waitForUrl_attempt_caught.
      now apply (waitForUrl_try_unresolved newURL net args i tp hs).
  - apply waitForUrl_attempt_caught. now apply waitForUrl_try_no_headers.
Qed.

(** The headers in full. *)
Lemma waitForUrl_headers_shape (i : nat) :
  waitForUrl_headers net args i
  = if truthy_string (wfu_vercelPassword args) then
      match getPassword (wfu_url args) (wfu_vercelPassword args)
                        (post_outcome net i) with
      | (t, inl jwt) =>
          (t ++ [SetOutput "vercel_jwt" (OutString jwt)],
           inl [("Cookie", ("_vercel_jwt=" ++ jwt)%string)])
      | (t, inr e) => (t, inr e)
      end
    else ([], inl []).
Proof.
  destruct (truthy_string (wfu_vercelPassword args)) eqn:E.
  - now apply waitForUrl_headers_protected.
  - now apply waitForUrl_headers_plain.
Qed.


Lemma waitForUrl_attempt_verdict (iterations : jsnum) (i : nat) :
  snd (waitForUrl_attempt newURL net args iterations i) <> inl (Return tt)
  <-> snd (waitForUrl_attempt newURL net args iterations i)
      = inl Fallthrough.
Proof.
  split; [now apply waitForUrl_attempt_failed|].
  intros ->. discriminate.
Qed.

(** Counting in the trace of an attempt the events of a kind that is
    neither a log line nor a sleep. *)
Lemma count_waitForUrl_attempt (p : Event -> bool) (iterations : jsnum)
    (i : nat) :
  (forall m, p (ConsoleLog m) = false) ->
  (forall ms, p (Wait ms) = false) ->
  count p (fst (waitForUrl_attempt newURL net args iterations i))
  = (count p (fst (waitForUrl_headers net args i))
     + match snd (waitForUrl_headers net args i),
             newURL (wfu_path args) (wfu_url args) with
       | inl hs, Some u => if p (HttpGet (href u) hs) then 1 else 0
       | _, _ => 0
       end)%nat.
Proof.
  intros Hlog Hwait. rewrite waitForUrl_attempt_shape.
  destruct (waitForUrl_headers net args i) as [tp [hs|e]]; cbn [fst snd].
  - destruct (newURL _ _) as [u|].
    + destruct (axios _ _); cbn [fst snd];
        rewrite ?count_app, ?count_catch_log by assumption;
        unfold count; simpl; rewrite ?Hlog, ?Hwait;
        destruct (p (HttpGet (href u) hs)); simpl; lia.
    + cbn [fst snd]. rewrite !count_app, count_catch_log by assumption.
      unfold count; simpl. rewrite Hwait. simpl. lia.
  - rewrite !count_app, count_catch_log by assumption.
    unfold count; simpl. rewrite Hwait. simpl. lia.
Qed.

Lemma count_waitForUrl_headers (p : Event -> bool) (i : nat) :
  (forall m, p (ConsoleLog m) = false) ->
  count p (fst (waitForUrl_headers net args i))
  = if truthy_string (wfu_vercelPassword args) then
      ((if p (HttpPost (wfu_url args)
                 [("_vercel_password", wfu_vercelPassword args)])
        then 1 else 0)
       + match snd (getPassword (wfu_url args) (wfu_vercelPassword args)
                                (post_outcome net i)) with
         | inl jwt =>
             if p (SetOutput "vercel_jwt" (OutString jwt)) then 1 else 0
         | inr _ => 0
         end)%nat
    else 0%nat.
Proof.
  intros Hlog. rewrite waitForUrl_headers_shape.
  destruct (truthy_string (wfu_vercelPassword args)); [|reflexivity].
  pose proof (getPassword_trace (wfu_url args) (wfu_vercelPassword args)
                (post_outcome net i)) as Ht.
  destruct (getPassword _ _ _) as [t [jwt|e]]; simpl in *; subst t;
    rewrite ?count_app; unfold count; simpl; rewrite ?Hlog;
    repeat match goal with |- context [if p ?x then _ else _] =>
             destruct (p x) end; simpl; lia.
Qed.


Lemma waitForUrl_attempt_waits (iterations : jsnum) (i : nat) :
  count is_wait (fst (waitForUrl_attempt newURL net args iterations i))
  = match snd (waitForUrl_attempt newURL net args iterations i) with
    | inl (Return _) => 0%nat
    | _ => 1%nat
    end.
Proof.
  destruct (waitForUrl_try_cases newURL net args i) as [[t E]|[t [e E]]].
  - rewrite (waitForUrl_attempt_returned _ _ _ iterations _ _ _ E). simpl.
    pose proof (waitForUrl_try_never_waits newURL net args i) as H.
    now rewrite E in H.
  - destruct (waitForUrl_attempt_failed newURL net args iterations i)
      as (-> & t0 & -> & H0).
    + rewrite (waitForUrl_attempt_caught _ _ _ iterations _ _ _ E).
      discriminate.
    + rewrite count_app, H0. reflexivity.
Qed.

End UrlHealthPollerOutcomes.

Lemma attempts_trace_ext {R} (body body' : nat -> Eff (Flow R)) (i k : nat) :
  (forall j, (i <= j < i + k)%nat -> body j = body' j) ->
  attempts_trace body i k = attempts_trace body' i k.
Proof.
  revert i. induction k as [|k IH]; intros i H; [reflexivity|].
  unfold attempts_trace in *. simpl. rewrite (H i) by lia.
  f_equal. apply IH. intros j Hj. apply H. lia.
Qed.

(** An attempt reads only the outcomes of its own two requests. *)
Lemma waitForUrl_attempt_local
    (newURL : string -> string -> option URL) (net net' : UrlNet)
    (args : WaitForUrlArgs) (iterations : jsnum) (i : nat) :
  post_outcome net' i = post_outcome net i ->
  get_outcome net' i = get_outcome net i ->
  waitForUrl_attempt newURL net' args iterations i
  = waitForUrl_attempt newURL net args iterations i.
Proof.
  intros Hp Hg.
  unfold waitForUrl_attempt, waitForUrl_try, waitForUrl_headers.
  now rewrite Hp, Hg.
Qed.



(** X4.  [waitForUrl] ends with the first attempt that succeeds: the
    attempts before it are made in order, each followed by one sleep,
    [core.setFailed] is not called, and what the network would answer to
    later attempts plays no part. *)
Theorem waitForUrl_first_success
    (newURL : string -> string -> option URL) (net : UrlNet)
    (args : WaitForUrlArgs) (k fuel : nat) :
  loop_continues k (waitForUrl_iterations args) = true ->
  (forall j, (j < k)%nat ->
     snd (waitForUrl_attempt newURL net args (waitForUrl_iterations args) j)
     <> inl (Return tt)) ->
  snd (waitForUrl_attempt newURL net args (waitForUrl_iterations args) k)
  = inl (Return tt) ->
  (k < fuel)%nat ->
  waitForUrl newURL net args fuel
  = Some (attempts_trace
            (waitForUrl_attempt newURL net args (waitForUrl_iterations args))
            0 k
          ++ fst (waitForUrl_attempt newURL net args
                    (waitForUrl_iterations args) k),
          inl Success)
  /\ count is_wait
       (attempts_trace
          (waitForUrl_attempt newURL net args (waitForUrl_iterations args))
          0 k
        ++ fst (waitForUrl_attempt newURL net args
                  (waitForUrl_iterations args) k)) = k
  /\ (forall net',
        (forall j, (j <= k)%nat ->
           post_outcome net' j = post_outcome net j
           /\ get_outcome net' j = get_outcome net j) ->
        waitForUrl newURL net' args fuel = waitForUrl newURL net args fuel).
Proof.
  intros Hc Hbefore Hk Hfuel.
  assert (Hrun : forall net',
            (forall j, (j <= k)%nat ->
               waitForUrl_attempt newURL net' args
                 (waitForUrl_iterations args) j
               = waitForUrl_attempt newURL net args
                   (waitForUrl_iterations args) j) ->
            waitForUrl newURL net' args fuel
            = Some (attempts_trace
                      (waitForUrl_attempt newURL net args
                         (waitForUrl_iterations args)) 0 k
                    ++ fst (waitForUrl_attempt newURL net args
                              (waitForUrl_iterations args) k),
                    inl Success)).
  { intros net' Hsame.
    destruct (waitForUrl_attempt newURL net args
                (waitForUrl_iterations args) k) as [t r] eqn:Eb.
    simpl in Hk. subst r. unfold waitForUrl.
    rewrite (for_loop_first_return _ _ k fuel t tt).
    - simpl. rewrite app_nil_r. f_equal. f_equal. f_equal.
      apply attempts_trace_ext. intros j Hj. apply Hsame. lia.
    - intros j Hj. rewrite Hsame by lia.
      now apply waitForUrl_attempt_verdict, Hbefore.
    - exact Hc.
    - rewrite Hsame by lia. exact Eb.
    - exact Hfuel. }
  split; [apply Hrun; reflexivity|]. split.
  - rewrite count_app, (count_attempts_trace _ _ 1).
    + rewrite waitForUrl_attempt_waits, Hk. lia.
    + intros j Hj. rewrite waitForUrl_attempt_waits.
      rewrite (proj1 (waitForUrl_attempt_verdict _ _ _ _ _)
                 (Hbefore j ltac:(lia))).
      reflexivity.
  - intros net' Hsame. rewrite (Hrun net'), (Hrun net); auto.
    intros j Hj. destruct (Hsame j Hj) as [Hp Hg].
    now apply waitForUrl_attempt_local.
Qed.

Lemma waitForUrl_first_success_witness :
  waitForUrl ex_newURL ex_net_404_then_200
             (ex_poll_args "https://web-preview.vercel.app") 3
  = Some (attempts_trace
            (waitForUrl_attempt ex_newURL ex_net_404_then_200
               (ex_poll_args "https://web-preview.vercel.app")
               (waitForUrl_iterations
                  (ex_poll_args "https://web-preview.vercel.app"))) 0 1
          ++ fst (waitForUrl_attempt ex_newURL ex_net_404_then_200
                    (ex_poll_args "https://web-preview.vercel.app")
                    (waitForUrl_iterations
                       (ex_poll_args "https://web-preview.vercel.app")) 1),
          inl Success).
Proof.
  refine (proj1 (waitForUrl_first_success ex_newURL ex_net_404_then_200
                   (ex_poll_args "https://web-preview.vercel.app") 1 3
                   eq_refl _ eq_refl _)).
  - intros j Hj. destruct j as [|j]; [discriminate | lia].
  - lia.
Defined.

(** X5.  With an infinite iteration count, which an infinite budget
    over a positive interval gives, a poll whose attempts all fail never
    ends: no number of loop tests brings it to the timeout report. *)
Theorem waitForUrl_never_gives_up
    (newURL : string -> string -> option URL) (net : UrlNet)
    (args : WaitForUrlArgs) (fuel : nat) :
  waitForUrl_iterations args = JPosInf ->
  (forall i, snd (waitForUrl_attempt newURL net args JPosInf i)
             <> inl (Return tt)) ->
  waitForUrl newURL net args fuel = None
  /\ (forall i : Q, (0 < i)%Q ->
        calculateIterations JPosInf (JFin i) = JPosInf).
Proof.
  intros Hit Hfail. split.
  - unfold waitForUrl. rewrite Hit, for_loop_endless; auto.
    intros j. now apply waitForUrl_attempt_verdict.
  - exact infinite_budget.
Qed.

Lemma waitForUrl_never_gives_up_witness :
  waitForUrl ex_newURL ex_net_down
             (ex_endless_args "https://web-preview.vercel.app") 50 = None.
Proof.
  refine (proj1 (waitForUrl_never_gives_up ex_newURL ex_net_down
                   (ex_endless_args "https://web-preview.vercel.app") 50
                   eq_refl _)).
  intros i. discriminate.
Defined.



(** X7.  The token is not kept between attempts: with a password every
    attempt makes the handshake request exactly once, so a poll that
    times out has made as many handshakes as attempts; without a password
    no handshake is made and no output is set. *)
Theorem handshake_on_every_attempt
    (newURL : string -> string -> option URL) (net : UrlNet)
    (args : WaitForUrlArgs) (z : Z) (fuel : nat) :
  waitForUrl_iterations args = Js.of_Z z ->
  (forall i, (i < Z.to_nat z)%nat ->
     snd (waitForUrl_attempt newURL net args (Js.of_Z z) i)
     <> inl (Return tt)) ->
  (Z.to_nat z < fuel)%nat ->
  (forall iterations i,
     count is_post (fst (waitForUrl_attempt newURL net args iterations i))
     = if truthy_string (wfu_vercelPassword args) then 1%nat else 0%nat)
  /\ (exists tr,
        waitForUrl newURL net args fuel = Some (tr, inl Timeout)
        /\ count is_post tr
           = if truthy_string (wfu_vercelPassword args)
             then Z.to_nat z else 0%nat)
  /\ (truthy_string (wfu_vercelPassword args) = false ->
      forall iterations i,
        count is_output
              (fst (waitForUrl_attempt newURL net args iterations i))
        = 0%nat).
Proof.
  intros Hit Hfail Hfuel.
  assert (Hpost : forall iterations i,
            count is_post
                  (fst (waitForUrl_attempt newURL net args iterations i))
            = if truthy_string (wfu_vercelPassword args)
              then 1%nat else 0%nat).
  { intros iterations i.
    rewrite count_waitForUrl_attempt, count_waitForUrl_headers
      by reflexivity.
    destruct (snd (waitForUrl_headers net args i));
      destruct (newURL (wfu_path args) (wfu_url args));
      destruct (truthy_string (wfu_vercelPassword args));
      try destruct (snd (getPassword _ _ _)); reflexivity. }
  split; [exact Hpost|]. split.
  - eexists. split;
      [exact (waitForUrl_all_failed newURL net args z fuel Hit Hfail Hfuel)|].
    rewrite count_app.
    rewrite (count_attempts_trace _ _
               (if truthy_string (wfu_vercelPassword args)
                then 1%nat else 0%nat)) by (intros j _; apply Hpost).
    unfold count at 1; simpl.
    destruct (truthy_string (wfu_vercelPassword args)); lia.
  - intros Hpw iterations i.
    rewrite count_waitForUrl_attempt, count_waitForUrl_headers, Hpw
      by reflexivity.
    destruct (snd (waitForUrl_headers net args i));
      destruct (newURL (wfu_path args) (wfu_url args)); reflexivity.
Qed.

Lemma handshake_on_every_attempt_witness :
  exists tr,
    waitForUrl ex_newURL ex_net_down
               (ex_protected_args "https://web-preview.vercel.app") 3
    = Some (tr, inl Timeout)
    /\ count is_post tr
       = if truthy_string
              (wfu_vercelPassword
                 (ex_protected_args "https://web-preview.vercel.app"))
         then Z.to_nat 2 else 0%nat.
Proof.
  refine (proj1 (proj2 (handshake_on_every_attempt ex_newURL ex_net_down
                          (ex_protected_args "https://web-preview.vercel.app")
                          2 3 eq_refl _ _))).
  - intros i _. discriminate.
  - simpl. lia.
Defined.

Lemma getPassword_failed_trace (target pw : string) (t : Transport)
    (e : Exn) :
  snd (getPassword target pw t) = inr e ->
  getPassword target pw t
  = ([ConsoleLog (LogText "requesting vercel JWT");
      HttpPost target [("_vercel_password", pw)]], inr e).
Proof.
  intros H. pose proof (getPassword_trace target pw t) as Ht.
  destruct (getPassword target pw t) as [tr r]. simpl in *. subst r.
  now rewrite Ht.
Qed.

(** X8.  When the handshake fails, the attempt sends no health check and
    sets no output: after the handshake request come only the log lines
    of the [catch] block and the sleep.  A handshake answered with a
    status outside [200, 307) is reported by the line that names a GET
    status. *)
Theorem failed_handshake_skips_health_check
    (newURL : string -> string -> option URL) (net : UrlNet)
    (args : WaitForUrlArgs) (iterations : jsnum) (i : nat) (e : Exn) :
  truthy_string (wfu_vercelPassword args) = true ->
  snd (getPassword (wfu_url args) (wfu_vercelPassword args)
                   (post_outcome net i)) = inr e ->
  waitForUrl_attempt newURL net args iterations i
  = ([ConsoleLog (LogText "requesting vercel JWT");
      HttpPost (wfu_url args)
               [("_vercel_password", wfu_vercelPassword args)]]
     ++ catch_log args iterations i e
     ++ [Wait (wfu_checkIntervalInMilliseconds args)], inl Fallthrough)
  /\ count is_get
       (fst (waitForUrl_attempt newURL net args iterations i)) = 0%nat
  /\ count is_output
       (fst (waitForUrl_attempt newURL net args iterations i)) = 0%nat
  /\ (forall r,
        post_outcome net i = Responded r ->
        getPassword_validateStatus (status r) = false ->
        e = AxiosResponseError r
        /\ catch_log args iterations i e
           = [ConsoleLog (LogGetStatus (status r) i iterations)]).
Proof.
  intros Hpw He.
  pose proof (getPassword_failed_trace _ _ _ _ He) as Hg.
  assert (Ha : waitForUrl_attempt newURL net args iterations i
               = ([ConsoleLog (LogText "requesting vercel JWT");
                   HttpPost (wfu_url args)
                     [("_vercel_password", wfu_vercelPassword args)]]
                  ++ catch_log args iterations i e
                  ++ [Wait (wfu_checkIntervalInMilliseconds args)],
                  inl Fallthrough))
    by (rewrite waitForUrl_attempt_shape, waitForUrl_headers_shape, Hpw, Hg;
        reflexivity).
  split; [exact Ha|]. rewrite Ha. cbn [fst].
  split; [|split].
  - rewrite !count_app, count_catch_log by reflexivity. reflexivity.
  - rewrite !count_app, count_catch_log by reflexivity. reflexivity.
  - intros r Hr Hs. rewrite Hr in He.
    rewrite (getPassword_rejected _ _ _ (AxiosResponseError r)) in He
      by (simpl; now rewrite Hs).
    simpl in He. injection He as <-. split; reflexivity.
Qed.

Lemma failed_handshake_skips_health_check_witness :
  waitForUrl_attempt ex_newURL ex_net_refused
    (ex_protected_args "https://web-preview.vercel.app") (JFin 2) 0
  = ([ConsoleLog (LogText "requesting vercel JWT");
      HttpPost "https://web-preview.vercel.app"
               [("_vercel_password", "secret")]]
     ++ catch_log (ex_protected_args "https://web-preview.vercel.app")
          (JFin 2) 0 (AxiosResponseError (ex_response 401))
     ++ [Wait (JFin 2000)], inl Fallthrough).
Proof.
  exact (proj1 (failed_handshake_skips_health_check ex_newURL ex_net_refused
                  (ex_protected_args "https://web-preview.vercel.app")
                  (JFin 2) 0 (AxiosResponseError (ex_response 401))
                  eq_refl eq_refl)).
Defined.

(* ------------------------------------------------------------------ *)
(** ** Deployment resolution poller, continued *)





Section DeploymentResolutionOutcomes.

Variable api : VercelApi.
Variable args : WaitForDeploymentArgs.

(** The loop body in full, by what the platform answers. *)
Lemma waitForDeploymentToStart_attempt_shape (i : nat) :
  waitForDeploymentToStart_attempt api args i
  = match deployments_response api i with
    | inr e =>
        ([HttpGet deployments_endpoint (authorization args);
          ConsoleError (LogVercelCallError e);
          Wait (interval_of args)], inl Fallthrough)
    | inl ds =>
        match projects_response api i with
        | inr e =>
            ([HttpGet deployments_endpoint (authorization args);
              HttpGet projects_endpoint (authorization args);
              ConsoleError (LogVercelCallError e);
              Wait (interval_of args)], inl Fallthrough)
        | inl ps =>
            if existsb in_progress ds then
              ([HttpGet deployments_endpoint (authorization args);
                HttpGet projects_endpoint (authorization args);
                ConsoleLog (LogText (still_deploying (filter in_progress ds)));
                Wait (interval_of args);
                Wait (interval_of args)], inl Fallthrough)
            else
              ([HttpGet deployments_endpoint (authorization args);
                HttpGet projects_endpoint (authorization args)],
               inl (Return (collect_finalLinks (wfd_sha args)
                              (map latestDeployments ps))))
        end
    end.
Proof.
  destruct (deployments_response api i) as [ds|e] eqn:Hd.
  - destruct (projects_response api i) as [ps|e] eqn:Hp.
    + destruct (existsb in_progress ds) eqn:Hq.
      * now apply (attempt_in_progress api args i ds ps).
      * now apply (attempt_settled api args i ds ps).
    + now apply (attempt_projects_error api args i ds).
  - now apply attempt_deployments_error.
Qed.

Lemma waitForDeploymentToStart_attempt_never_throws (i : nat) :
  exists t f, waitForDeploymentToStart_attempt api args i = (t, inl f).
Proof.
  rewrite waitForDeploymentToStart_attempt_shape.
  destruct (deployments_response api i); eauto.
  destruct (projects_response api i); eauto.
  destruct (existsb in_progress _); eauto.
Qed.


End DeploymentResolutionOutcomes.







(** X12.  The targets are collected project by project: collecting over
    two lists of projects one after the other gives the two results one
    after the other.  Nothing is collected exactly when no record has the
    commit SHA, and a record without a commit SHA is never collected. *)
Theorem collect_finalLinks_composes (sha : string)
    (latest1 latest2 : list (list LatestDeployment)) :
  collect_finalLinks sha (latest1 ++ latest2)
  = collect_finalLinks sha latest1 ++ collect_finalLinks sha latest2
  /\ (collect_finalLinks sha latest1 = []
      <-> forall l d, In l latest1 -> In d l ->
                      ld_githubCommitSha d <> Some sha)
  /\ (List.length (collect_finalLinks sha latest1)
      <= List.length (List.concat latest1))%nat.
Proof.
  rewrite !collect_finalLinks_eq. split; [|split].
  - now rewrite concat_app, filter_app, map_app.
  - split.
    + intros H l d Hl Hd Hs.
      assert (Hin : In d (filter (sha_matches sha) (List.concat latest1))).
      { apply filter_In. split; [|now apply sha_matches_iff].
        apply in_concat. eauto. }
      apply (in_map toAdd) in Hin. rewrite H in Hin. exact Hin.
    + intros H.
      destruct (filter (sha_matches sha) (List.concat latest1))
        as [|d rest] eqn:E; [reflexivity|].
      assert (Hin : In d (filter (sha_matches sha) (List.concat latest1)))
        by (rewrite E; now left).
      apply filter_In in Hin. destruct Hin as [Hin Hs].
      apply in_concat in Hin. destruct Hin as (l & Hl & Hd).
      apply sha_matches_iff in Hs. now destruct (H l d Hl Hd).
  - rewrite length_map. apply filter_length_le.
Qed.

(* ------------------------------------------------------------------ *)
(** ** Orchestrator, continued *)

Lemma truthy_string_iff (s : string) : truthy_string s = true <-> s <> "".
Proof.
  unfold truthy_string. rewrite negb_true_iff. apply String.eqb_neq.
Qed.

Lemma truthy_string_false_iff (s : string) :
  truthy_string s = false <-> s = "".
Proof.
  unfold truthy_string. rewrite negb_false_iff. apply String.eqb_eq.
Qed.

(** [run] up to the determination of [sha], once the token is there. *)
Lemma run_determine_sha_with_token (inputs : Inputs) (ctx : GithubContext) :
  truthy_string (in_token inputs) = true ->
  run_determine_sha inputs ctx
  = match
      match payload_pull_request ctx with
      | Some pr => getShaForPullRequest ctx pr
      | None =>
          if truthy_string (context_sha ctx)
          then ret (Some (context_sha ctx)) else ret None
      end
    with
    | (t, inl sha) =>
        if falsy_sha sha
        then (vercel_token_check inputs ++ t
              ++ [SetFailed "Unable to determine SHA. Exiting..."], inl None)
        else (vercel_token_check inputs ++ t, inl sha)
    | (t, inr e) => (vercel_token_check inputs ++ t, inr e)
    end.
Proof.
  intros Ht. unfold run_determine_sha, getInput_required, vercel_token_check.
  rewrite Ht. unfold bind, ret, emit. simpl. rewrite Ht. simpl.
  destruct (truthy_string (in_vercel_token inputs)); simpl;
    destruct (match payload_pull_request ctx with
              | Some pr => getShaForPullRequest ctx pr
              | None => _
              end) as [t [sha|e]]; simpl; try reflexivity;
    destruct (falsy_sha sha); simpl; rewrite ?app_nil_r; reflexivity.
Qed.

Lemma run_determine_sha_without_token (inputs : Inputs)
    (ctx : GithubContext) :
  truthy_string (in_token inputs) = false ->
  run_determine_sha inputs ctx
  = ([], inr (JsError "Input required and not supplied: token")).
Proof.
  intros Ht. unfold run_determine_sha, getInput_required.
  now rewrite Ht.
Qed.

(** What [getShaForPullRequest] leaves in the trace and returns. *)
Lemma getShaForPullRequest_cases (ctx : GithubContext) (pr : PullRequest) :
  getShaForPullRequest ctx pr
  = match pr_number pr with
    | Some n =>
        if (n =? 0)%Z
        then ([SetFailed "No pull request number was found"], inl None)
        else
          match pulls_get ctx with
          | PullsGetThrows m => ([], inr (JsError m))
          | PullsGetResponse st prSHA =>
              if (st =? 200)%Z then ([], inl (Some prSHA))
              else ([SetFailed
                       "Could not get information about the current pull request"],
                    inl None)
          end
    | None => ([SetFailed "No pull request number was found"], inl None)
    end.
Proof.
  unfold getShaForPullRequest.
  destruct (pr_number pr) as [n|]; [|reflexivity].
  destruct (n =? 0)%Z; [reflexivity|].
  destruct (pulls_get ctx) as [st sha|m]; [|reflexivity].
  destruct (st =? 200)%Z; reflexivity.
Qed.

Lemma run_determine_sha_of_source (inputs : Inputs) (ctx : GithubContext)
    (sha : string) :
  sha_source inputs ctx sha ->
  run_determine_sha inputs ctx = (vercel_token_check inputs, inl (Some sha)).
Proof.
  intros (Ht & Hs & Hsrc).
  rewrite run_determine_sha_with_token by now apply truthy_string_iff.
  apply truthy_string_iff in Hs.
  destruct (payload_pull_request ctx) as [pr|].
  - destruct Hsrc as ((n & Hn & Hn0) & Hget).
    rewrite getShaForPullRequest_cases, Hn, Hget.
    apply Z.eqb_neq in Hn0. rewrite Hn0. simpl.
    rewrite Hs. simpl. now rewrite app_nil_r.
  - subst sha. rewrite Hs. unfold ret. simpl.
    rewrite Hs. simpl. now rewrite app_nil_r.
Qed.

Lemma run_determine_sha_source (inputs : Inputs) (ctx : GithubContext)
    (sha : string) :
  snd (run_determine_sha inputs ctx) = inl (Some sha) ->
  sha_source inputs ctx sha.
Proof.
  intros H.
  destruct (truthy_string (in_token inputs)) eqn:Ht.
  - rewrite run_determine_sha_with_token in H by exact Ht.
    unfold sha_source. split; [now apply truthy_string_iff|].
    destruct (payload_pull_request ctx) as [pr|].
    + rewrite getShaForPullRequest_cases in H.
      destruct (pr_number pr) as [n|]; [|discriminate].
      destruct (n =? 0)%Z eqn:Hn0; [discriminate|].
      destruct (pulls_get ctx) as [st prSHA|m]; [|discriminate].
      destruct (st =? 200)%Z eqn:Hst; [|discriminate].
      apply Z.eqb_eq in Hst. subst st. simpl in H.
      destruct (truthy_string prSHA) eqn:Hp; simpl in H;
        [|discriminate].
      injection H as ->. apply truthy_string_iff in Hp.
      split; [exact Hp|]. split; [|reflexivity].
      exists n. split; [reflexivity | now apply Z.eqb_neq].
    + destruct (truthy_string (context_sha ctx)) eqn:Hc; simpl in H.
      * rewrite Hc in H. simpl in H. injection H as <-.
        apply truthy_string_iff in Hc. auto.
      * discriminate.
  - rewrite run_determine_sha_without_token in H by exact Ht.
    discriminate.
Qed.

(** Before the poller [run] does nothing but set failures, and it
    returns without a SHA only after the failure of line 749. *)
Lemma run_determine_sha_trace (inputs : Inputs) (ctx : GithubContext) :
  Forall (fun ev => is_failure ev = true) (fst (run_determine_sha inputs ctx))
  /\ (snd (run_determine_sha inputs ctx) = inl None ->
      exists t, fst (run_determine_sha inputs ctx)
                = t ++ [SetFailed "Unable to determine SHA. Exiting..."]).
Proof.
  destruct (truthy_string (in_token inputs)) eqn:Ht.
  - rewrite run_determine_sha_with_token by exact Ht.
    assert (Hv : Forall (fun ev => is_failure ev = true)
                        (vercel_token_check inputs))
      by (unfold vercel_token_check;
          destruct (truthy_string (in_vercel_token inputs));
          repeat constructor).
    destruct (payload_pull_request ctx) as [pr|].
    + rewrite getShaForPullRequest_cases.
      destruct (pr_number pr) as [n|];
        [destruct (n =? 0)%Z;
         [|destruct (pulls_get ctx) as [st prSHA|m];
           [destruct (st =? 200)%Z;
            [destruct (falsy_sha (Some prSHA)) eqn:Hf|]|]]|];
        simpl; rewrite ?Hf; simpl; rewrite ?app_nil_r;
        (split;
         [repeat (apply Forall_app; split); auto; repeat constructor
         |try discriminate; intros _;
          first [ eexists; reflexivity
                | exists (vercel_token_check inputs
                          ++ [SetFailed "No pull request number was found"]);
                  now rewrite <- app_assoc
                | exists (vercel_token_check inputs
                          ++ [SetFailed
                                "Could not get information about the current pull request"]);
                  now rewrite <- app_assoc ]]).
    + destruct (truthy_string (context_sha ctx)) eqn:Hc; unfold ret; simpl;
        rewrite ?Hc; simpl; rewrite ?app_nil_r;
        (split;
         [repeat (apply Forall_app; split); auto; repeat constructor
         |try discriminate; intros _; eexists; reflexivity]).
  - rewrite run_determine_sha_without_token by exact Ht.
    split; [constructor | discriminate].
Qed.

(** X13.  [run] goes on to the deployment poller exactly when the token
    is there and a non-empty SHA is found: [context.sha] on an event
    without a pull request, and on a pull-request event the head SHA of a
    lookup, by a non-zero number, that is answered with status 200;
    there [context.sha] plays no part.  Up to that point it has set at
    most the failure for a missing [vercel_token]. *)
Theorem run_determine_sha_iff (inputs : Inputs) (ctx : GithubContext)
    (sha : string) :
  (snd (run_determine_sha inputs ctx) = inl (Some sha)
   <-> sha_source inputs ctx sha)
  /\ (sha_source inputs ctx sha ->
      run_determine_sha inputs ctx
      = (vercel_token_check inputs, inl (Some sha)))
  /\ (forall pr other,
        payload_pull_request ctx = Some pr ->
        run_determine_sha inputs (with_context_sha ctx other)
        = run_determine_sha inputs ctx).
Proof.
  split; [split|split].
  - apply run_determine_sha_source.
  - intros H. now rewrite (run_determine_sha_of_source _ _ _ H).
  - apply run_determine_sha_of_source.
  - intros pr other Hpr.
    unfold run_determine_sha, with_context_sha. simpl. rewrite Hpr.
    reflexivity.
Qed.

Lemma run_determine_sha_iff_witness :
  run_determine_sha (ex_inputs (JFin 4) (JFin 2))
                    (ex_pull_request 200 "abc123")
  = (vercel_token_check (ex_inputs (JFin 4) (JFin 2)), inl (Some "abc123")).
Proof.
  refine (proj1 (proj2 (run_determine_sha_iff (ex_inputs (JFin 4) (JFin 2))
                          (ex_pull_request 200 "abc123") "abc123")) _).
  split; [discriminate|]. split; [discriminate|].
  split; [|reflexivity]. exists 7%Z. split; [reflexivity | discriminate].
Defined.

Lemma count_among_failures (t : list Event) :
  Forall (fun ev => is_failure ev = true) t ->
  count is_get t = 0%nat /\ count is_output t = 0%nat
  /\ count is_failure t = List.length t.
Proof.
  induction 1 as [|ev t Hev _ (IH1 & IH2 & IH3)]; [repeat split|].
  unfold count in *. destruct ev; try discriminate. simpl.
  rewrite IH1, IH2, IH3. repeat split.
Qed.

Lemma for_loop_never_throws {R} (iterations : jsnum)
    (body : nat -> Eff (Flow R)) (fuel i : nat) (t : list Event)
    (r : Flow R + Exn) :
  (forall j, exists t' f, body j = (t', inl f)) ->
  for_loop iterations body fuel i = Some (t, r) ->
  exists f, r = inl f.
Proof.
  intros Hsafe. revert i t r.
  induction fuel as [|fuel IH]; intros i t r H; [discriminate|].
  simpl in H. destruct (loop_continues i iterations).
  - destruct (Hsafe i) as (t' & [r'|] & Hb); rewrite Hb in H.
    + injection H as _ <-. eauto.
    + destruct (for_loop iterations body fuel (S i)) as [[t1 r1]|] eqn:E;
        [|discriminate].
      simpl in H. injection H as _ <-. eapply IH, E.
  - injection H as _ <-. eauto.
Qed.

Lemma waitForDeploymentToStart_never_throws (api : VercelApi)
    (args : WaitForDeploymentArgs) (fuel : nat) (t : list Event)
    (r : Resolution + Exn) :
  waitForDeploymentToStart api args fuel = Some (t, r) ->
  exists urls, r = inl urls.
Proof.
  unfold waitForDeploymentToStart. intros H.
  destruct (for_loop _ _ fuel 0) as [[t0 r0]|] eqn:E; [|discriminate].
  destruct (for_loop_never_throws _ _ _ _ _ _
              (waitForDeploymentToStart_attempt_never_throws api args) E)
    as (f & ->).
  simpl in H. destruct f; simpl in H; injection H as _ <-; eauto.
Qed.

(** [run] once the SHA is found: the poller, then lines 761-776. *)
Lemma run_with_sha (inputs : Inputs) (ctx : GithubContext) (api : VercelApi)
    (fuel : nat) (sha : string) :
  sha_source inputs ctx sha ->
  run inputs ctx api fuel
  = prepend (vercel_token_check inputs)
      (and_then (waitForDeploymentToStart api (resolution_args inputs sha)
                                          fuel)
                (run_after_resolution inputs)).
Proof.
  intros Hs. unfold run, run_try.
  rewrite (run_determine_sha_of_source _ _ _ Hs).
  destruct (waitForDeploymentToStart api (resolution_args inputs sha) fuel)
    as [[t r]|] eqn:E; [|reflexivity].
  destruct (waitForDeploymentToStart_never_throws _ _ _ _ _ E) as (urls & ->).
  destruct urls; reflexivity.
Qed.

(** X14.  When no SHA is found, whether for a missing token, an event
    without SHA or a failed pull-request lookup, [run] ends before the
    poller is called, whatever the budget: it sends no request to the
    Vercel API and none to a deployment (the trace has no axios request;
    the lookup of the pull request through octokit, which is no event of
    the trace, may have been sent), sets no output, starts no health
    poll, and has called [core.setFailed] at least once. *)
Theorem run_without_sha_starts_no_poll (inputs : Inputs)
    (ctx : GithubContext) (api : VercelApi) (fuel : nat) :
  (forall sha, ~ sha_source inputs ctx sha) ->
  exists tr,
    run inputs ctx api fuel = Some (tr, inl [])
    /\ count is_get tr = 0%nat
    /\ count is_post tr = 0%nat
    /\ count is_output tr = 0%nat
    /\ (1 <= count is_failure tr)%nat.
Proof.
  intros Hno.
  pose proof (run_determine_sha_trace inputs ctx) as (Hall & Hlast).
  pose proof (run_determine_sha_source inputs ctx) as Hsrc.
  assert (Hpost : forall t, Forall (fun ev => is_failure ev = true) t ->
                            count is_post t = 0%nat).
  { intros t Ht. induction Ht as [|ev t Hev _ IH]; [reflexivity|].
    unfold count in *. simpl. destruct ev; try discriminate. exact IH. }
  unfold run, run_try.
  destruct (run_determine_sha inputs ctx) as [t [[sha|]|e]]; simpl in *.
  - destruct (Hno sha). now apply Hsrc.
  - exists t. split; [reflexivity|].
    destruct (count_among_failures t Hall) as (Hg & Ho & Hf).
    repeat split; auto. rewrite Hf.
    destruct (Hlast eq_refl) as (t' & ->). rewrite length_app. simpl. lia.
  - exists (t ++ [SetFailed (exn_message e)]). split; [reflexivity|].
    assert (Hall' : Forall (fun ev => is_failure ev = true)
                           (t ++ [SetFailed (exn_message e)]))
      by (apply Forall_app; split; [exact Hall | repeat constructor]).
    destruct (count_among_failures _ Hall') as (Hg & Ho & Hf).
    repeat split; auto. rewrite Hf, length_app. simpl. lia.
Qed.

Lemma run_without_sha_starts_no_poll_witness :
  exists tr,
    run (ex_inputs (JFin 4) (JFin 2)) ex_pull_request_not_found
        ex_api_idle 3 = Some (tr, inl [])
    /\ count is_get tr = 0%nat
    /\ count is_post tr = 0%nat
    /\ count is_output tr = 0%nat
    /\ (1 <= count is_failure tr)%nat.
Proof.
  apply (run_without_sha_starts_no_poll (ex_inputs (JFin 4) (JFin 2))
           ex_pull_request_not_found ex_api_idle 3).
  intros sha (_ & _ & _ & H). discriminate.
Defined.

(** X15.  On a pull-request event whose lookup does not give a SHA,
    [run] reports as follows.  Without a number, or with a lookup that
    octokit resolves with a status other than 200 (202, say),
    [getShaForPullRequest] sets its own failure and [run] then sets a
    second one, that no SHA could be determined.  When the lookup throws,
    as it does for an answer of 404, the one failure set is the thrown
    message. *)
Theorem pull_request_lookup_failures (inputs : Inputs) (ctx : GithubContext)
    (api : VercelApi) (fuel : nat) (pr : PullRequest) :
  in_token inputs <> "" ->
  payload_pull_request ctx = Some pr ->
  ((pr_number pr = None \/ pr_number pr = Some 0%Z) ->
   run inputs ctx api fuel
   = Some (vercel_token_check inputs
           ++ [SetFailed "No pull request number was found";
               SetFailed "Unable to determine SHA. Exiting..."], inl []))
  /\ (forall n st prSHA,
        pr_number pr = Some n -> n <> 0%Z ->
        pulls_get ctx = PullsGetResponse st prSHA ->
        octokit_resolves st = true -> st <> 200%Z ->
        run inputs ctx api fuel
        = Some (vercel_token_check inputs
                ++ [SetFailed
                      "Could not get information about the current pull request";
                    SetFailed "Unable to determine SHA. Exiting..."],
                inl []))
  /\ (forall n m,
        pr_number pr = Some n -> n <> 0%Z ->
        pulls_get ctx = PullsGetThrows m ->
        run inputs ctx api fuel
        = Some (vercel_token_check inputs ++ [SetFailed m], inl [])).
Proof.
  intros Ht Hpr. apply truthy_string_iff in Ht.
  unfold run, run_try.
  rewrite (run_determine_sha_with_token _ _ Ht), Hpr,
    getShaForPullRequest_cases.
  split; [|split].
  - intros [->| ->]; reflexivity.
  - intros n st prSHA -> Hn -> _ Hst.
    apply Z.eqb_neq in Hn, Hst. rewrite Hn, Hst. reflexivity.
  - intros n m -> Hn ->. apply Z.eqb_neq in Hn. rewrite Hn. simpl.
    now rewrite <- app_assoc.
Qed.

Lemma pull_request_lookup_failures_witness :
  run (ex_inputs (JFin 4) (JFin 2)) (ex_pull_request 202 "abc123")
      ex_api_idle 3
  = Some (vercel_token_check (ex_inputs (JFin 4) (JFin 2))
          ++ [SetFailed
                "Could not get information about the current pull request";
              SetFailed "Unable to determine SHA. Exiting..."], inl [])
  /\ run (ex_inputs (JFin 4) (JFin 2)) ex_pull_request_not_found
         ex_api_idle 3
     = Some (vercel_token_check (ex_inputs (JFin 4) (JFin 2))
             ++ [SetFailed "Not Found"], inl []).
Proof.
  split.
  - refine (proj1 (proj2 (pull_request_lookup_failures
                            (ex_inputs (JFin 4) (JFin 2))
                            (ex_pull_request 202 "abc123") ex_api_idle 3
                            {| pr_number := Some 7%Z |} _ eq_refl))
              7%Z 202%Z "abc123" eq_refl _ eq_refl eq_refl _);
      discriminate.
  - refine (proj2 (proj2 (pull_request_lookup_failures
                            (ex_inputs (JFin 4) (JFin 2))
                            ex_pull_request_not_found ex_api_idle 3
                            {| pr_number := Some 7%Z |} _ eq_refl))
              7%Z "Not Found" eq_refl _ eq_refl);
      discriminate.
Defined.

(** X16.  A missing [vercel_token] does not stop [run]: it sets the
    failure for the missing field and goes on.  The platform is asked
    with the header [Authorization: Bearer ] and an empty token, and a
    resolved list is still published and polled. *)
Theorem missing_vercel_token_does_not_stop_run (inputs : Inputs)
    (ctx : GithubContext) (api : VercelApi) (fuel : nat) (sha : string)
    (t : list Event) (l : list ResolvedTarget) :
  in_vercel_token inputs = "" ->
  sha_source inputs ctx sha ->
  waitForDeploymentToStart api (resolution_args inputs sha) fuel
  = Some (t, inl (Links l)) ->
  run inputs ctx api fuel
  = Some ([SetFailed "Required field `vercel_token` was not provided"]
          ++ t ++ [ConsoleLog (LogUrls l); SetOutput "urls" (OutTargets l)],
          inl (map (health_poll_args inputs) (map url l)))
  /\ authorization (resolution_args inputs sha)
     = [("Authorization", "Bearer ")].
Proof.
  intros Hv Hs Hw. rewrite (run_with_sha _ _ _ _ _ Hs), Hw.
  unfold vercel_token_check, authorization. simpl. rewrite Hv.
  split; reflexivity.
Qed.

Lemma missing_vercel_token_does_not_stop_run_witness :
  run ex_inputs_without_vercel_token (ex_push "abc123") ex_api_idle 1
  = Some ([SetFailed "Required field `vercel_token` was not provided"]
          ++ [HttpGet deployments_endpoint [("Authorization", "Bearer ")];
              HttpGet projects_endpoint [("Authorization", "Bearer ")]]
          ++ [ConsoleLog
                (LogUrls [ {| url := Some "web-preview.vercel.app";
                              name := "web" |} ]);
              SetOutput "urls"
                (OutTargets [ {| url := Some "web-preview.vercel.app";
                                 name := "web" |} ])],
          inl (map (health_poll_args ex_inputs_without_vercel_token)
                 (map url [ {| url := Some "web-preview.vercel.app";
                               name := "web" |} ]))).
Proof.
  refine (proj1 (missing_vercel_token_does_not_stop_run
                   ex_inputs_without_vercel_token (ex_push "abc123")
                   ex_api_idle 1 "abc123"
                   [HttpGet deployments_endpoint [("Authorization", "Bearer ")];
                    HttpGet projects_endpoint [("Authorization", "Bearer ")]]
                   [ {| url := Some "web-preview.vercel.app";
                        name := "web" |} ]
                   eq_refl _ eq_refl)).
  split; [discriminate|]. split; [discriminate | reflexivity].
Defined.

(** X17.  For a resolved list [run] publishes exactly that list as the
    [urls] output and starts one health poll per target, in the order of
    the list.  The poll of a target is for [https://] followed by the
    target's [url], or by the text [undefined] when the target has none;
    all polls share the budget, the interval and the password, and the
    path is [/] when the input is empty. *)
Theorem run_starts_one_poll_per_target (inputs : Inputs)
    (ctx : GithubContext) (api : VercelApi) (fuel : nat) (sha : string)
    (t : list Event) (l : list ResolvedTarget) :
  sha_source inputs ctx sha ->
  waitForDeploymentToStart api (resolution_args inputs sha) fuel
  = Some (t, inl (Links l)) ->
  exists polls,
    run inputs ctx api fuel
    = Some (vercel_token_check inputs ++ t
            ++ [ConsoleLog (LogUrls l); SetOutput "urls" (OutTargets l)],
            inl polls)
    /\ List.length polls = List.length l
    /\ (forall k target,
          nth_error l k = Some target ->
          exists poll,
            nth_error polls k = Some poll
            /\ wfu_url poll
               = ("https://"
                  ++ match url target with
                     | Some u => u
                     | None => "undefined"
                     end)%string
            /\ wfu_maxTimeout poll = MAX_TIMEOUT inputs
            /\ wfu_checkIntervalInMilliseconds poll
               = CHECK_INTERVAL_IN_MS inputs
            /\ wfu_vercelPassword poll = in_vercel_password inputs
            /\ wfu_path poll
               = (if in_path inputs =? "" then "/" else in_path inputs)%string).
Proof.
  intros Hs Hw. exists (map (health_poll_args inputs) (map url l)).
  split; [now rewrite (run_with_sha _ _ _ _ _ Hs), Hw|].
  split; [now rewrite !length_map|].
  intros k target Hk. exists (health_poll_args inputs (url target)).
  split.
  - rewrite map_map.
    exact (map_nth_error (fun x => health_poll_args inputs (url x))
             k l Hk).
  - unfold health_poll_args, PATH, truthy_string; simpl.
    repeat split. now destruct (in_path inputs =? "")%string.
Qed.

Lemma run_starts_one_poll_per_target_witness :
  exists polls,
    run (ex_inputs (JFin 4) (JFin 2)) (ex_push "abc123") ex_api_idle 1
    = Some (vercel_token_check (ex_inputs (JFin 4) (JFin 2))
            ++ [HttpGet deployments_endpoint [("Authorization", "Bearer tok")];
                HttpGet projects_endpoint [("Authorization", "Bearer tok")]]
            ++ [ConsoleLog
                  (LogUrls [ {| url := Some "web-preview.vercel.app";
                                name := "web" |} ]);
                SetOutput "urls"
                  (OutTargets [ {| url := Some "web-preview.vercel.app";
                                   name := "web" |} ])],
            inl polls)
    /\ List.length polls = 1%nat.
Proof.
  destruct (run_starts_one_poll_per_target (ex_inputs (JFin 4) (JFin 2))
              (ex_push "abc123") ex_api_idle 1 "abc123"
              [HttpGet deployments_endpoint [("Authorization", "Bearer tok")];
               HttpGet projects_endpoint [("Authorization", "Bearer tok")]]
              [ {| url := Some "web-preview.vercel.app"; name := "web" |} ])
    as (polls & H1 & H2 & _).
  - split; [discriminate|]. split; [discriminate | reflexivity].
  - reflexivity.
  - exists polls. split; [exact H1 | exact H2].
Defined.

(* ------------------------------------------------------------------ *)
(** ** Status poller *)

Section StatusPollerFacts.

Variable statuses_response : nat -> list DeploymentStatus + Exn.
Variable args : WaitForStatusArgs.

(** The [try] block by what the listing answers. *)
Lemma waitForStatus_try_cases (i : nat) :
  waitForStatus_try statuses_response args i
  = ([ListDeploymentStatuses (wfs_owner args) (wfs_repo args)
                             (wfs_deployment_id args)],
     match statuses_response i with
     | inr e => inr (OtherError e)
     | inl [] => inr (StatusError no_status_message)
     | inl (s :: _) =>
         if accepted_status args s then inl s
         else inr (StatusError not_success_message)
     end).
Proof.
  unfold waitForStatus_try, accepted_status.
  destruct (statuses_response i) as [[|s rest]|e]; try reflexivity.
  simpl.
  destruct (wfs_allowInactive args); simpl;
    destruct (status_state s =? "inactive"); simpl;
    destruct (status_state s =? "success"); reflexivity.
Qed.

Lemma count_status_app (p : StatusEvent -> bool) (t1 t2 : list StatusEvent) :
  count_status p (t1 ++ t2) = (count_status p t1 + count_status p t2)%nat.
Proof. unfold count_status. now rewrite filter_app, length_app. Qed.

(** A failed attempt lists the statuses once, sleeps once and sets no
    failure. *)
Lemma waitForStatus_failed_attempt (iterations : jsnum) (i : nat)
    (e : StatusThrown) :
  snd (waitForStatus_try statuses_response args i) = inr e ->
  count_status is_sleep
    (waitForStatus_attempt statuses_response args iterations i) = 1%nat
  /\ count_status is_listing
       (waitForStatus_attempt statuses_response args iterations i) = 1%nat
  /\ count_status is_failed
       (waitForStatus_attempt statuses_response args iterations i) = 0%nat.
Proof.
  intros H. unfold waitForStatus_attempt. rewrite H.
  rewrite waitForStatus_try_cases. unfold waitForStatus_catch. simpl.
  destruct e as [m|e'].
  - destruct (includes m not_success_fragment); repeat split.
  - repeat split.
Qed.

Lemma count_status_attempts (p : StatusEvent -> bool) (iterations : jsnum)
    (c i k : nat) :
  (forall j, (i <= j < i + k)%nat ->
     count_status p
       (waitForStatus_attempt statuses_response args iterations j) = c) ->
  count_status p
    (status_attempts_trace statuses_response args iterations i k)
  = (k * c)%nat.
Proof.
  revert i. induction k as [|k IH]; intros i H; [reflexivity|].
  unfold status_attempts_trace in *. simpl. rewrite count_status_app.
  rewrite (H i) by lia. rewrite IH; [reflexivity|].
  intros j Hj. apply H. lia.
Qed.

(** [k] attempts that throw are executed one after the other. *)
Lemma waitForStatus_loop_retries (iterations : jsnum) (k fuel i : nat) :
  (forall j, (i <= j < i + k)%nat ->
     loop_continues j iterations = true
     /\ exists e, snd (waitForStatus_try statuses_response args j) = inr e) ->
  waitForStatus_loop statuses_response args iterations (k + fuel) i
  = match waitForStatus_loop statuses_response args iterations fuel (i + k)
    with
    | Some (t, r) =>
        Some (status_attempts_trace statuses_response args iterations i k
              ++ t, r)
    | None => None
    end.
Proof.
  revert i. induction k as [|k IH]; intros i H.
  - simpl. rewrite Nat.add_0_r.
    now destruct (waitForStatus_loop _ _ _ fuel i) as [[t r]|].
  - destruct (H i ltac:(lia)) as (Hc & e & He).
    change (S k + fuel)%nat with (S (k + fuel)).
    simpl. rewrite Hc.
    destruct (waitForStatus_try statuses_response args i) as [t0 r0] eqn:E.
    simpl in He. subst r0.
    rewrite IH by (intros j Hj; apply H; lia).
    replace (i + S k)%nat with (S i + k)%nat by lia.
    destruct (waitForStatus_loop _ _ _ fuel (S i + k)) as [[t r]|];
      [|reflexivity].
    unfold status_attempts_trace, waitForStatus_attempt. simpl.
    rewrite E. unfold waitForStatus_catch. simpl.
    rewrite <- !app_assoc. simpl. now rewrite <- !app_assoc.
Qed.

End StatusPollerFacts.

(** X18.  [waitForStatus] decides on the first status of the listing
    alone.  It returns that status when its state is [success], or
    [inactive] with [allowInactive] set; every other first status, also
    one followed by a [success], makes the attempt fail, as do an empty
    listing and a rejected request.  The branch of line 161 is never
    taken. *)
Theorem waitForStatus_decides_on_first_status
    (statuses_response : nat -> list DeploymentStatus + Exn)
    (args : WaitForStatusArgs) (i : nat) :
  (forall s rest,
     statuses_response i = inl (s :: rest) ->
     snd (waitForStatus_try statuses_response args i)
     = if accepted_status args s then inl s
       else inr (StatusError not_success_message))
  /\ (statuses_response i = inl [] ->
      snd (waitForStatus_try statuses_response args i)
      = inr (StatusError no_status_message))
  /\ (forall e,
        statuses_response i = inr e ->
        snd (waitForStatus_try statuses_response args i)
        = inr (OtherError e))
  /\ snd (waitForStatus_try statuses_response args i)
     <> inr (StatusError unknown_status_message)
  /\ (forall s,
        snd (waitForStatus_try statuses_response args i) = inl s ->
        status_state s = "success"
        \/ (wfs_allowInactive args = true /\ status_state s = "inactive")).
Proof.
  rewrite waitForStatus_try_cases. simpl.
  split; [intros s rest ->; reflexivity|].
  split; [intros ->; reflexivity|].
  split; [intros e ->; reflexivity|].
  split.
  - destruct (statuses_response i) as [[|s rest]|e]; try discriminate.
    destruct (accepted_status args s); discriminate.
  - intros s H.
    destruct (statuses_response i) as [[|s' rest]|e]; try discriminate.
    destruct (accepted_status args s') eqn:Ha; [|discriminate].
    injection H as ->. unfold accepted_status in Ha.
    apply orb_true_iff in Ha. destruct Ha as [Ha|Ha].
    + left. now apply String.eqb_eq.
    + right. apply andb_true_iff in Ha. destruct Ha as [Ha1 Ha2].
      split; [exact Ha1 | now apply String.eqb_eq].
Qed.

Lemma waitForStatus_decides_on_first_status_witness :
  snd (waitForStatus_try ex_statuses_pending (ex_status_args true) 0)
  = (if accepted_status (ex_status_args true) (ex_status "pending")
     then inl (ex_status "pending")
     else inr (StatusError not_success_message))
  /\ snd (waitForStatus_try ex_statuses_late (ex_status_args true) 0)
     = inr (StatusError no_status_message).
Proof.
  destruct (waitForStatus_decides_on_first_status ex_statuses_pending
              (ex_status_args true) 0) as (H1 & _).
  destruct (waitForStatus_decides_on_first_status ex_statuses_late
              (ex_status_args true) 0) as (_ & H2 & _).
  split.
  - apply (H1 (ex_status "pending") [ex_status "success"]). reflexivity.
  - apply H2. reflexivity.
Defined.



(** X20.  [waitForStatus] returns the status of the first attempt that
    finds an accepted one: the attempts before it are made in order with
    one sleep each, and no failure is set. *)
Theorem waitForStatus_first_accepted
    (statuses_response : nat -> list DeploymentStatus + Exn)
    (args : WaitForStatusArgs) (k fuel : nat) (s : DeploymentStatus) :
  loop_continues k (waitForStatus_iterations args) = true ->
  (forall j, (j < k)%nat ->
     exists e, snd (waitForStatus_try statuses_response args j) = inr e) ->
  snd (waitForStatus_try statuses_response args k) = inl s ->
  (k < fuel)%nat ->
  waitForStatus statuses_response args fuel
  = Some (status_attempts_trace statuses_response args
            (waitForStatus_iterations args) 0 k
          ++ [ListDeploymentStatuses (wfs_owner args) (wfs_repo args)
                                     (wfs_deployment_id args)],
          Some s)
  /\ count_status is_sleep
       (status_attempts_trace statuses_response args
          (waitForStatus_iterations args) 0 k) = k
  /\ count_status is_failed
       (status_attempts_trace statuses_response args
          (waitForStatus_iterations args) 0 k) = 0%nat.
Proof.
  intros Hc Hbefore Hk Hfuel. split; [|split].
  - unfold waitForStatus.
    replace fuel with (k + S (fuel - k - 1))%nat by lia.
    rewrite waitForStatus_loop_retries.
    + rewrite Nat.add_0_l. simpl. rewrite Hc.
      rewrite waitForStatus_try_cases in *. simpl in Hk. now rewrite Hk.
    + intros j Hj. split; [|apply Hbefore; lia].
      apply (loop_continues_downward j k); [lia | exact Hc].
  - rewrite (count_status_attempts _ _ _ _ 1%nat); [lia|].
    intros j Hj. destruct (Hbefore j ltac:(lia)) as (e & He).
    now apply (waitForStatus_failed_attempt _ _ _ _ e).
  - rewrite (count_status_attempts _ _ _ _ 0%nat); [lia|].
    intros j Hj. destruct (Hbefore j ltac:(lia)) as (e & He).
    now apply (waitForStatus_failed_attempt _ _ _ _ e).
Qed.

Lemma waitForStatus_first_accepted_witness :
  waitForStatus ex_statuses_late (ex_status_args true) 3
  = Some (status_attempts_trace ex_statuses_late (ex_status_args true)
            (waitForStatus_iterations (ex_status_args true)) 0 1
          ++ [ListDeploymentStatuses "coprime" "web" 42],
          Some (ex_status "inactive")).
Proof.
  refine (proj1 (waitForStatus_first_accepted ex_statuses_late
                   (ex_status_args true) 1 3 (ex_status "inactive")
                   eq_refl _ eq_refl _)).
  - intros j Hj. destruct j as [|j]; [eexists; reflexivity | lia].
  - lia.
Defined.

(** X21.  What a failed attempt of [waitForStatus] logs.  The retry line
    counts attempts from 1.  For a first status that is not accepted it
    is the only line: the message of that error is left out; for an empty
    listing the message follows, and for a rejected request the rejection
    itself.  The sleep comes last. *)
Theorem waitForStatus_failed_attempt_log
    (statuses_response : nat -> list DeploymentStatus + Exn)
    (args : WaitForStatusArgs) (iterations : jsnum) (i : nat) :
  (forall s rest,
     statuses_response i = inl (s :: rest) ->
     accepted_status args s = false ->
     waitForStatus_attempt statuses_response args iterations i
     = [ListDeploymentStatuses (wfs_owner args) (wfs_repo args)
                               (wfs_deployment_id args);
        LogRetrying (i + 1) iterations;
        Sleep (wfs_checkIntervalInMilliseconds args)])
  /\ (statuses_response i = inl [] ->
      waitForStatus_attempt statuses_response args iterations i
      = [ListDeploymentStatuses (wfs_owner args) (wfs_repo args)
                                (wfs_deployment_id args);
         LogRetrying (i + 1) iterations;
         LogLine no_status_message;
         Sleep (wfs_checkIntervalInMilliseconds args)])
  /\ (forall e,
        statuses_response i = inr e ->
        waitForStatus_attempt statuses_response args iterations i
        = [ListDeploymentStatuses (wfs_owner args) (wfs_repo args)
                                  (wfs_deployment_id args);
           LogRetrying (i + 1) iterations;
           LogError e;
           Sleep (wfs_checkIntervalInMilliseconds args)]).
Proof.
  unfold waitForStatus_attempt. rewrite waitForStatus_try_cases. simpl.
  split; [|split].
  - intros s rest -> ->. reflexivity.
  - intros ->. reflexivity.
  - intros e ->. reflexivity.
Qed.

Lemma waitForStatus_failed_attempt_log_witness :
  waitForStatus_attempt ex_statuses_pending (ex_status_args false) (JFin 2) 0
  = [ListDeploymentStatuses "coprime" "web" 42;
     LogRetrying (0 + 1) (JFin 2);
     Sleep (JFin 2000)]
  /\ waitForStatus_attempt ex_statuses_late (ex_status_args false) (JFin 2) 0
     = [ListDeploymentStatuses "coprime" "web" 42;
        LogRetrying (0 + 1) (JFin 2);
        LogLine no_status_message;
        Sleep (JFin 2000)].
Proof.
  destruct (waitForStatus_failed_attempt_log ex_statuses_pending
              (ex_status_args false) (JFin 2) 0) as (H1 & _).
  destruct (waitForStatus_failed_attempt_log ex_statuses_late
              (ex_status_args false) (JFin 2) 0) as (_ & H2 & _).
  split.
  - apply (H1 (ex_status "pending") [ex_status "success"]); reflexivity.
  - apply H2. reflexivity.
Defined.

(* ------------------------------------------------------------------ *)
(** ** The earlier deployment poller *)

Section EarlierPollerFacts.

Variable api : Earlier.VercelApi.
Variable args : WaitForDeploymentArgs.

Lemma earlier_count_app (p : Earlier.Event -> bool)
    (t1 t2 : list Earlier.Event) :
  Earlier.count p (t1 ++ t2)
  = (Earlier.count p t1 + Earlier.count p t2)%nat.
Proof. unfold Earlier.count. now rewrite filter_app, length_app. Qed.

(** An attempt that is not settled returns nothing and sleeps once. *)
Lemma earlier_attempt_not_settled (i : nat) :
  Earlier.settled api i = false ->
  snd (Earlier.waitForDeploymentToStart_attempt api args i) = None
  /\ Earlier.count Earlier.is_sleep
       (fst (Earlier.waitForDeploymentToStart_attempt api args i)) = 1%nat.
Proof.
  unfold Earlier.settled, Earlier.waitForDeploymentToStart_attempt,
    Earlier.waitForDeploymentToStart_try.
  destruct (Earlier.deployments_response api i) as [ds|e];
    [destruct (Earlier.projects_response api i) as [ps|e]|];
    intros H; try (split; reflexivity).
  rewrite H. split; reflexivity.
Qed.

Lemma earlier_attempt_settled (i : nat) (ds : list Earlier.Deployment)
    (ps : list Project) :
  Earlier.deployments_response api i = inl ds ->
  Earlier.projects_response api i = inl ps ->
  existsb Earlier.queued ds = false ->
  Earlier.waitForDeploymentToStart_attempt api args i
  = ([Earlier.Get deployments_endpoint (authorization args);
      Earlier.LogAllDeployments ds;
      Earlier.LogApps (map (fun d => (Earlier.name d, Earlier.state d)) ds);
      Earlier.Get projects_endpoint (authorization args);
      Earlier.LogProjects ps],
     Some (map Earlier.url (filter Earlier.not_canceled ds))).
Proof.
  intros Hd Hp Hq.
  unfold Earlier.waitForDeploymentToStart_attempt,
    Earlier.waitForDeploymentToStart_try.
  rewrite Hd, Hp, Hq. reflexivity.
Qed.

Lemma earlier_count_attempts (p : Earlier.Event -> bool) (c i k : nat) :
  (forall j, (i <= j < i + k)%nat ->
     Earlier.count p
       (fst (Earlier.waitForDeploymentToStart_attempt api args j)) = c) ->
  Earlier.count p (Earlier.attempts_trace api args i k) = (k * c)%nat.
Proof.
  revert i. induction k as [|k IH]; intros i H; [reflexivity|].
  unfold Earlier.attempts_trace in *. simpl. rewrite earlier_count_app.
  rewrite (H i) by lia. rewrite IH; [reflexivity|].
  intros j Hj. apply H. lia.
Qed.

(** [k] attempts that return nothing are executed one after the other. *)
Lemma earlier_loop_retries (iterations : jsnum) (k fuel i : nat) :
  (forall j, (i <= j < i + k)%nat ->
     loop_continues j iterations = true
     /\ snd (Earlier.waitForDeploymentToStart_attempt api args j) = None) ->
  Earlier.waitForDeploymentToStart_loop api args iterations (k + fuel) i
  = match Earlier.waitForDeploymentToStart_loop api args iterations fuel
            (i + k) with
    | Some (t, r) => Some (Earlier.attempts_trace api args i k ++ t, r)
    | None => None
    end.
Proof.
  revert i. induction k as [|k IH]; intros i H.
  - simpl. rewrite Nat.add_0_r.
    now destruct (Earlier.waitForDeploymentToStart_loop _ _ _ fuel i)
      as [[t r]|].
  - destruct (H i ltac:(lia)) as (Hc & Hn).
    change (S k + fuel)%nat with (S (k + fuel)).
    cbn [Earlier.waitForDeploymentToStart_loop]. rewrite Hc.
    destruct (Earlier.waitForDeploymentToStart_attempt api args i)
      as [t0 r0] eqn:E.
    simpl in Hn. subst r0.
    rewrite IH by (intros j Hj; apply H; lia).
    replace (i + S k)%nat with (S i + k)%nat by lia.
    destruct (Earlier.waitForDeploymentToStart_loop _ _ _ fuel (S i + k))
      as [[t r]|]; [|reflexivity].
    unfold Earlier.attempts_trace. cbn [seq map List.concat].
    rewrite E. cbn [fst]. now rewrite <- app_assoc.
Qed.

End EarlierPollerFacts.

(** X22.  The earlier [waitForDeploymentToStart] returns, at the first
    attempt that finds both listings answered and no deployment in state
    [QUEUED], the [url] of every deployment of the team that is not
    [CANCELED], in the order of the listing; the commit plays no part,
    and a deployment that is still [BUILDING] neither delays the result
    nor is left out of it.  Every attempt before it sleeps once. *)
Theorem earlier_poller_returns_uncanceled_urls
    (api : Earlier.VercelApi) (args : WaitForDeploymentArgs) (k fuel : nat)
    (ds : list Earlier.Deployment) (ps : list Project) :
  loop_continues k
    (calculateIterations (maxTimeout_of args) (interval_of args)) = true ->
  Earlier.deployments_response api k = inl ds ->
  existsb Earlier.queued ds = false ->
  Earlier.projects_response api k = inl ps ->
  (forall j, (j < k)%nat -> Earlier.settled api j = false) ->
  (k < fuel)%nat ->
  exists tr,
    Earlier.waitForDeploymentToStart api args fuel
    = Some (tr, Some (map Earlier.url (filter Earlier.not_canceled ds)))
    /\ Earlier.count Earlier.is_sleep tr = k
    /\ (forall d, In d ds -> Earlier.state d <> "CANCELED" ->
                  In (Earlier.url d)
                     (map Earlier.url (filter Earlier.not_canceled ds)))
    /\ (forall u, In u (map Earlier.url (filter Earlier.not_canceled ds)) ->
                  exists d, In d ds /\ Earlier.url d = u
                            /\ Earlier.state d <> "CANCELED").
Proof.
  intros Hc Hd Hq Hp Hbefore Hfuel.
  pose proof (earlier_attempt_settled api args k ds ps Hd Hp Hq) as Ha.
  exists (Earlier.attempts_trace api args 0 k
          ++ fst (Earlier.waitForDeploymentToStart_attempt api args k)).
  split; [|split; [|split]].
  - unfold Earlier.waitForDeploymentToStart.
    replace fuel with (k + S (fuel - k - 1))%nat by lia.
    rewrite earlier_loop_retries.
    + rewrite Nat.add_0_l. cbn [Earlier.waitForDeploymentToStart_loop].
      rewrite Hc, Ha. reflexivity.
    + intros j Hj. split.
      * apply (loop_continues_downward j k); [lia | exact Hc].
      * apply earlier_attempt_not_settled, Hbefore. lia.
  - rewrite earlier_count_app, (earlier_count_attempts _ _ _ 1%nat).
    + rewrite Ha. unfold Earlier.count. simpl. lia.
    + intros j Hj. apply earlier_attempt_not_settled, Hbefore. lia.
  - intros d Hin Hs. apply in_map, filter_In. split; [exact Hin|].
    unfold Earlier.not_canceled. apply negb_true_iff.
    now apply String.eqb_neq.
  - intros u Hu. apply in_map_iff in Hu. destruct Hu as (d & <- & Hin).
    apply filter_In in Hin. destruct Hin as [Hin Hs].
    exists d. repeat split; auto.
    unfold Earlier.not_canceled in Hs. apply negb_true_iff in Hs.
    now apply String.eqb_neq.
Qed.

Lemma earlier_poller_returns_uncanceled_urls_witness :
  exists tr,
    Earlier.waitForDeploymentToStart ex_earlier_api
      (ex_resolution_args "abc123") 1
    = Some (tr, Some (map Earlier.url
                        (filter Earlier.not_canceled
                           [ {| Earlier.name := "web";
                                Earlier.state := "BUILDING";
                                Earlier.url := "web-abc.vercel.app" |};
                             {| Earlier.name := "docs";
                                Earlier.state := "CANCELED";
                                Earlier.url := "docs-abc.vercel.app" |} ])))
    /\ Earlier.count Earlier.is_sleep tr = 0%nat.
Proof.
  destruct (earlier_poller_returns_uncanceled_urls ex_earlier_api
              (ex_resolution_args "abc123") 0 1
              [ {| Earlier.name := "web"; Earlier.state := "BUILDING";
                   Earlier.url := "web-abc.vercel.app" |};
                {| Earlier.name := "docs"; Earlier.state := "CANCELED";
                   Earlier.url := "docs-abc.vercel.app" |} ]
              ex_projects eq_refl eq_refl eq_refl eq_refl)
    as (tr & H1 & H2 & _).
  - intros j Hj. lia.
  - lia.
  - exists tr. split; [exact H1 | exact H2].
Defined.


